(** * Order business-rule engine: permissions, status machine, order schemas

    A shallow embedding of [src/lib/auth/permissions.ts], of the order
    validation schemas (order number, decimal fields, status transitions,
    item and order schemas, the order form) and of the refinements shared
    through common.ts, followed by the properties proved about them.

    Conventions.
    - A JavaScript string is a [string]: the sequence of its code units,
      each below 256.
    - An optional parameter or property ([x?: T]) is an [option T], [None]
      standing for [undefined].
    - A TypeScript union of string literals is an inductive type together
      with the function giving each member its string. *)

From Stdlib Require Import ZArith Ascii String List Bool Lia DecimalString.
From Stdlib Require DecimalPos DecimalFacts.
From stdpp Require Import base decidable option list strings gmap.

Open Scope string_scope.
Open Scope list_scope.
Open Scope Z_scope.

(** ** JavaScript primitives the sources call *)

Module JS.

(** [arr.includes(x)]: membership by [===]. *)
Definition includes `{EqDecision A} (arr : list A) (x : A) : bool :=
  bool_decide (x ∈ arr).

(** [arr.some(f)] and [arr.every(f)]. *)
Definition some {A} (arr : list A) (f : A -> bool) : bool := existsb f arr.
Definition every {A} (arr : list A) (f : A -> bool) : bool := forallb f arr.

(** What a call ends with: a value, or a thrown exception. *)
Inductive exn :=
| TypeError (message : string)
| Error (message : string).

Inductive completion (A : Type) :=
| Normal (value : A)
| Throw (e : exn).
Arguments Normal {A} value.
Arguments Throw {A} e.

(** [String(n)] for an integral number below 10^21 in magnitude: its
    decimal digits, with a leading minus sign when negative. *)
Definition String_int (n : Z) : string := NilZero.string_of_int (Z.to_int n).

(** [s.padStart(targetLength, padString)]: [s] itself when it is already
    long enough (or the pad is empty), else [padString] repeated and cut to
    the missing length, followed by [s]. *)
Fixpoint fill (missing : nat) (rest padString : string) : string :=
  match missing with
  | O => ""
  | S k =>
      match rest with
      | String c rest' => String c (fill k rest' padString)
      | EmptyString =>
          match padString with
          | String c rest' => String c (fill k rest' padString)
          | EmptyString => ""
          end
      end
  end.

Definition padStart (s : string) (targetLength : nat) (padString : string)
    : string :=
  if (targetLength <=? String.length s)%nat then s
  else fill (targetLength - String.length s) padString padString +:+ s.

(** The fields of a [Date] the sources read, in local time:
    [getFullYear()], [getMonth()] (0 for January) and [getDate()]. *)
Record Date := {
  getFullYear : Z;
  getMonth : Z;
  getDate : Z
}.

(** The properties every object literal inherits from [Object.prototype]
    (ECMAScript 20.1.3 and Annex B.2.2). *)
Definition Object_prototype : list string :=
  [ "constructor"; "hasOwnProperty"; "isPrototypeOf";
    "propertyIsEnumerable"; "toLocaleString"; "toString"; "valueOf";
    "__proto__"; "__defineGetter__"; "__defineSetter__";
    "__lookupGetter__"; "__lookupSetter__" ].

(** [obj[key]] on an object literal whose own properties are [own]: an own
    property's value, else a value inherited from [Object.prototype] (a
    function, or the prototype itself), else [undefined]. *)
Inductive property (V : Type) :=
| Own (value : V)
| Inherited (name : string)
| Undefined.
Arguments Own {V} value.
Arguments Inherited {V} name.
Arguments Undefined {V}.

Definition get {V} (own : gmap string V) (key : string) : property V :=
  match own !! key with
  | Some v => Own v
  | None => if includes Object_prototype key then Inherited key else Undefined
  end.

(** A value that may be [null]: [T | null]. *)
Inductive nullable (A : Type) :=
| null
| value (a : A).
Arguments null {A}.
Arguments value {A} a.

#[global] Instance nullable_eq_dec `{EqDecision A} : EqDecision (nullable A).
Proof. solve_decision. Defined.

(** *** Strings *)

(** White space and line terminators, as [trim] and [parseFloat] skip
    them, among the code units below 256. *)
Definition is_white_space (c : ascii) : bool :=
  let n := nat_of_ascii c in
  ((9 <=? n) && (n <=? 13) || (n =? 32) || (n =? 160))%nat.

Fixpoint dropWhile {A} (f : A -> bool) (l : list A) : list A :=
  match l with
  | [] => []
  | x :: l' => if f x then dropWhile f l' else l
  end.

Fixpoint takeWhile {A} (f : A -> bool) (l : list A) : list A :=
  match l with
  | [] => []
  | x :: l' => if f x then x :: takeWhile f l' else []
  end.

Definition trim_list (l : list ascii) : list ascii :=
  rev (dropWhile is_white_space (rev (dropWhile is_white_space l))).

(** [s.trim()]. *)
Definition trim (s : string) : string :=
  string_of_list_ascii (trim_list (list_ascii_of_string s)).

(** [s.split(sep)] for a one-character separator. *)
Fixpoint split_list (sep : ascii) (cur : list ascii) (l : list ascii)
    : list string :=
  match l with
  | [] => [string_of_list_ascii (rev cur)]
  | c :: l' =>
      if Ascii.eqb c sep
      then string_of_list_ascii (rev cur) :: split_list sep [] l'
      else split_list sep (c :: cur) l'
  end.

Definition split (s : string) (sep : ascii) : list string :=
  split_list sep [] (list_ascii_of_string s).

(** *** Numbers

    A [number] is NaN, an infinity, or a finite value written as the
    decimal [m * 10^e].  A finite double is held as the decimal that
    [Number.prototype.toString] prints for it (the shortest one that reads
    back as the same double); that correspondence preserves the order, so
    comparisons and printing are those of the doubles.  Zero has no sign
    here: the sources never tell [-0] from [0]. *)
Inductive number :=
| NaN
| Infinity (negative : bool)
| Dec (m e : Z).

Definition num (z : Z) : number := Dec z 0.

Definition compare_dec (m1 e1 m2 e2 : Z) : comparison :=
  let e := Z.min e1 e2 in
  (m1 * 10 ^ (e1 - e) ?= m2 * 10 ^ (e2 - e)).

(** The order of two numbers; [None] when either is NaN. *)
Definition compare (x y : number) : option comparison :=
  match x, y with
  | NaN, _ | _, NaN => None
  | Infinity a, Infinity b =>
      Some (if a then (if b then Eq else Lt) else (if b then Gt else Eq))
  | Infinity a, Dec _ _ => Some (if a then Lt else Gt)
  | Dec _ _, Infinity b => Some (if b then Gt else Lt)
  | Dec m1 e1, Dec m2 e2 => Some (compare_dec m1 e1 m2 e2)
  end.

(** [x < y], [x <= y], [x > y], [x >= y]: all false on NaN. *)
Definition lt (x y : number) : bool :=
  match compare x y with Some Lt => true | _ => false end.
Definition le (x y : number) : bool :=
  match compare x y with Some Lt | Some Eq => true | _ => false end.
Definition gt (x y : number) : bool := lt y x.
Definition ge (x y : number) : bool := le y x.

Definition isNaN (x : number) : bool :=
  match x with NaN => true | _ => false end.

(** [Number.isInteger(x)]. *)
Definition isInteger (x : number) : bool :=
  match x with
  | Dec m e => (0 <=? e) || (m mod 10 ^ (- e) =? 0)
  | _ => false
  end.

Fixpoint strip_zeros (fuel : nat) (m e : Z) : Z * Z :=
  match fuel with
  | O => (m, e)
  | S fuel' =>
      if m mod 10 =? 0 then strip_zeros fuel' (m / 10) (e + 1) else (m, e)
  end.

Definition zeros (n : Z) : string := fill (Z.to_nat n) "0" "0".

(** [Number::toString] for a positive finite value (ECMAScript 6.1.6.1.20):
    with [s] the digits without trailing zeros, [k] their number and
    [s * 10^(n-k)] the value, plain digits when [0 < n <= 21], a leading
    ["0."] when [-6 < n <= 0], exponent notation otherwise. *)
Definition toString_pos (m e : Z) : string :=
  let '(s, e') := strip_zeros (S (Z.to_nat (Z.log2 m))) m e in
  let digits := String_int s in
  let k := Z.of_nat (String.length digits) in
  let n := k + e' in
  if (k <=? n) && (n <=? 21) then digits +:+ zeros (n - k)
  else if (0 <? n) && (n <=? 21) then
    substring 0 (Z.to_nat n) digits +:+ "."
      +:+ substring (Z.to_nat n) (Z.to_nat (k - n)) digits
  else if (-6 <? n) && (n <=? 0) then "0." +:+ zeros (- n) +:+ digits
  else
    let x := n - 1 in
    let exponent := (if x <? 0 then "-" else "+") +:+ String_int (Z.abs x) in
    if k =? 1 then digits +:+ "e" +:+ exponent
    else substring 0 1 digits +:+ "."
           +:+ substring 1 (Z.to_nat (k - 1)) digits +:+ "e" +:+ exponent.

(** [x.toString()]. *)
Definition toString (x : number) : string :=
  match x with
  | NaN => "NaN"
  | Infinity negative => if negative then "-Infinity" else "Infinity"
  | Dec m e =>
      if m =? 0 then "0"
      else if m <? 0 then "-" +:+ toString_pos (- m) e
      else toString_pos m e
  end.

(** *** A reading of decimal literals, for [parseFloat]

    The longest prefix of the trimmed string that is a decimal literal
    (sign, digits, fraction, exponent, or [Infinity]), NaN when there is
    none.  The value is the literal's exact decimal, which is also what
    [parseFloat] yields whenever the literal has at most 15 significant
    digits and lies in the range of the doubles. *)
Definition is_digit (c : ascii) : bool :=
  let n := nat_of_ascii c in ((48 <=? n) && (n <=? 57))%nat.

Definition digits_value (ds : list ascii) : Z :=
  fold_left (fun acc c => 10 * acc + (Z.of_nat (nat_of_ascii c) - 48)) ds 0.

Definition read_sign (l : list ascii) : bool * list ascii :=
  match l with
  | "-"%char :: l' => (true, l')
  | "+"%char :: l' => (false, l')
  | _ => (false, l)
  end.

Definition read_exponent (l : list ascii) : Z :=
  match l with
  | c :: l' =>
      if Ascii.eqb c "e" || Ascii.eqb c "E" then
        let '(negative, l'') := read_sign l' in
        match takeWhile is_digit l'' with
        | [] => 0
        | ds => if negative then - digits_value ds else digits_value ds
        end
      else 0
  | [] => 0
  end.

Definition parse_decimal (s : string) : number :=
  let l := dropWhile is_white_space (list_ascii_of_string s) in
  let '(negative, l) := read_sign l in
  if bool_decide (take 8 l = list_ascii_of_string "Infinity")
  then Infinity negative
  else
    let ip := takeWhile is_digit l in
    let l1 := dropWhile is_digit l in
    let '(fp, l2) :=
      match l1 with
      | "."%char :: l' => (takeWhile is_digit l', dropWhile is_digit l')
      | _ => ([], l1)
      end in
    match (ip ++ fp) with
    | [] => NaN
    | ds =>
        let m := digits_value ds in
        Dec (if negative then - m else m)
            (read_exponent l2 - Z.of_nat (length fp))
    end.

(** Whether a string has the shape of a UUID: 8-4-4-4-12 hexadecimal
    digits, either case. *)
Definition is_hex (c : ascii) : bool :=
  let n := nat_of_ascii c in
  ((48 <=? n) && (n <=? 57) || (65 <=? n) && (n <=? 70)
   || (97 <=? n) && (n <=? 102))%nat.

Fixpoint matches_groups (groups : list nat) (l : list ascii) : bool :=
  match groups with
  | [] => match l with [] => true | _ => false end
  | g :: groups' =>
      forallb is_hex (take g l) && (length (take g l) =? g)%nat
      && match groups', drop g l with
         | [], [] => true
         | _ :: _, "-"%char :: l' => matches_groups groups' l'
         | _, _ => false
         end
  end.

Definition uuid_shape (s : string) : bool :=
  matches_groups [8; 4; 4; 4; 12]%nat (list_ascii_of_string s).

End JS.

(** ** The part of zod the schemas use

    A schema parses a value found at a path and returns the issues it raised
    with, unless it aborted, the parsed value; an exception thrown by a
    callback of the source escapes the parse.  The value is accepted when no
    issue was raised.  Inputs range over the schema's TypeScript input type. *)

Module z.

(** What the schemas need from their host: the global [parseFloat], and
    the test of zod's UUID regular expression (it differs between zod
    releases). *)
Class Host := {
  parseFloat : string -> JS.number;
  isUuid : string -> bool
}.

Inductive key :=
| Key (name : string)
| Index (i : nat).

Inductive issue_code :=
| invalid_type | invalid_union | invalid_string | invalid_date
| too_small | custom.

(** An issue; [message] is [None] when the source gives none and zod's
    error map supplies the text. *)
Record issue := Issue {
  code : issue_code;
  path : list key;
  message : option string
}.

Inductive result (A : Type) :=
| Threw (e : JS.exn)
| Returned (issues : list issue) (parsed : option A).
Arguments Threw {A} e.
Arguments Returned {A} issues parsed.

Definition schema (I O : Type) : Type := list key -> I -> result O.

Definition OK {A} (v : A) : result A := Returned [] (Some v).
Definition INVALID {A} (i : issue) : result A := Returned [i] None.

(** [safeParse] accepts exactly the results without issue. *)
Definition success {A} (r : result A) : bool :=
  match r with
  | Returned [] (Some _) => true
  | _ => false
  end.

Definition issues_of {A} (r : result A) : list issue :=
  match r with
  | Returned issues _ => issues
  | Threw _ => []
  end.

Definition map {A B} (f : A -> B) (r : result A) : result B :=
  match r with
  | Threw e => Threw e
  | Returned issues v => Returned issues (f <$> v)
  end.

#[global] Instance result_fmap : FMap result := @map.

(** An object parses its properties in the order of its shape, gathers
    their issues, and aborts when one of them aborted. *)
Definition ap {A B} (rf : result (A -> B)) (ra : result A) : result B :=
  match rf with
  | Threw e => Threw e
  | Returned issues1 f =>
      match ra with
      | Threw e => Threw e
      | Returned issues2 a =>
          Returned (issues1 ++ issues2)
            (match f, a with
             | Some f, Some a => Some (f a)
             | _, _ => None
             end)
      end
  end.

Notation "rf <*> ra" := (ap rf ra) (at level 61, left associativity).

Definition field {I O} (ctx : list key) (name : string) (s : schema I O)
    (x : I) : result O :=
  s (ctx ++ [Key name]) x.

Definition when_not (ok : bool) (i : issue) : list issue :=
  if ok then [] else [i].

Section combinators.
Context `{Host}.

(** [z.string()] and its checks, run in the order they were added;
    [trim] replaces the value. *)
Inductive string_check :=
| uuid (message : option string)
| min (n : nat) (message : option string)
| trim.

Fixpoint string_checks (ctx : list key) (checks : list string_check)
    (data : string) (issues : list issue) : result string :=
  match checks with
  | [] => Returned issues (Some data)
  | uuid m :: checks' =>
      string_checks ctx checks' data
        (issues ++ when_not (isUuid data) (Issue invalid_string ctx m))
  | min n m :: checks' =>
      string_checks ctx checks' data
        (issues ++ when_not (n <=? String.length data)%nat
                     (Issue too_small ctx m))
  | trim :: checks' => string_checks ctx checks' (JS.trim data) issues
  end.

Definition string (checks : list string_check) : schema string string :=
  fun ctx data => string_checks ctx checks data [].

(** [z.number()] rejects NaN; [int] and [positive] are checks. *)
Inductive number_check :=
| int
| positive (message : option String.string).

Definition number_check_issues (ctx : list key) (data : JS.number)
    (c : number_check) : list issue :=
  match c with
  | int => when_not (JS.isInteger data) (Issue invalid_type ctx None)
  | positive m =>
      when_not (negb (JS.le data (JS.num 0))) (Issue too_small ctx m)
  end.

Definition number (checks : list number_check)
    : schema JS.number JS.number :=
  fun ctx data =>
    if JS.isNaN data then INVALID (Issue invalid_type ctx None)
    else Returned (concat (number_check_issues ctx data <$> checks))
                  (Some data).

(** [z.enum([...])] and [z.boolean()] on a value of the type. *)
Definition enum {E} : schema E E := fun _ data => OK data.
Definition boolean : schema bool bool := fun _ data => OK data.

(** [z.date()]: a [Date] is held as its time value, NaN when invalid. *)
Definition date : schema JS.number JS.number :=
  fun ctx data =>
    if JS.isNaN data then INVALID (Issue invalid_date ctx None)
    else OK data.

Definition optional {I O} (s : schema I O) : schema (option I) (option O) :=
  fun ctx data =>
    match data with
    | None => OK None
    | Some x => Some <$> s ctx x
    end.

Definition nullable {I O} (s : schema I O)
    : schema (JS.nullable I) (JS.nullable O) :=
  fun ctx data =>
    match data with
    | JS.null => OK JS.null
    | JS.value x => JS.value <$> s ctx x
    end.

Definition default {I O} (d : I) (s : schema I O) : schema (option I) O :=
  fun ctx data =>
    match data with
    | None => s ctx d
    | Some x => s ctx x
    end.

(** [z.union([a, b])]: the first option that does not abort; when both
    abort, a single [invalid_union] issue. *)
Definition union {I1 O1 I2 O2} (a : schema I1 O1) (b : schema I2 O2)
    : schema (I1 + I2) (O1 + O2) :=
  fun ctx data =>
    let r := match data with
             | inl x => inl <$> a ctx x
             | inr y => inr <$> b ctx y
             end in
    match r with
    | Returned _ None => INVALID (Issue invalid_union ctx None)
    | _ => r
    end.

(** [.transform(f)]: [f] runs on a valid base result only, and what it
    throws is not caught.  A base result that is not valid is returned
    as it is: the one base transformed here, a union of unchecked
    [string] and [number], is valid or aborted, and an aborted result
    holds no value. *)
Definition transform {I A B} (f : A -> JS.completion B) (s : schema I A)
    : schema I B :=
  fun ctx data =>
    match s ctx data with
    | Threw e => Threw e
    | Returned [] (Some v) =>
        match f v with
        | JS.Normal b => OK b
        | JS.Throw e => Threw e
        end
    | Returned issues _ => Returned issues None
    end.

(** [.refine(check, { message, path })]: skipped when the base aborted;
    otherwise a check that fails adds one [custom] issue at [path] below
    the value's own path, and the value stays. *)
Definition refine {I A} (check : A -> JS.completion bool)
    (message : String.string) (p : list key) (s : schema I A) : schema I A :=
  fun ctx data =>
    match s ctx data with
    | Returned issues (Some v) =>
        match check v with
        | JS.Normal ok =>
            Returned
              (issues ++ when_not ok (Issue custom (ctx ++ p) (Some message)))
              (Some v)
        | JS.Throw e => Threw e
        end
    | r => r
    end.

(** [z.array(s).min(n, message)]: the length check first, then every
    element at its index. *)
Fixpoint array_items {I O} (s : schema I O) (ctx : list key) (i : nat)
    (data : list I) : result (list O) :=
  match data with
  | [] => OK []
  | x :: data' =>
      cons <$> s (ctx ++ [Index i]) x <*> array_items s ctx (S i) data'
  end.

Definition array {I O} (s : schema I O) (minLength : nat)
    (message : String.string) : schema (list I) (list O) :=
  fun ctx data =>
    match array_items s ctx 0 data with
    | Threw e => Threw e
    | Returned issues v =>
        Returned
          (when_not (minLength <=? length data)%nat
             (Issue too_small ctx (Some message)) ++ issues)
          v
    end.

End combinators.

End z.

(** ** src/lib/auth/permissions.ts *)

Module Permissions.

(** [type UserRole = "ADMIN" | "MANAGER" | "SALES" | "BASIC"]. *)
Inductive UserRole := ADMIN | MANAGER | SALES | BASIC_ROLE.

Definition UserRole_value (r : UserRole) : string :=
  match r with
  | ADMIN => "ADMIN"
  | MANAGER => "MANAGER"
  | SALES => "SALES"
  | BASIC_ROLE => "BASIC"
  end.

#[global] Instance UserRole_eq_dec : EqDecision UserRole.
Proof. solve_decision. Defined.

(** [enum Permission]. *)
Inductive Permission :=
| STORE_CREATE | STORE_READ | STORE_READ_ALL | STORE_UPDATE | STORE_DELETE
| PRODUCT_CREATE | PRODUCT_READ | PRODUCT_UPDATE | PRODUCT_DELETE
| PRODUCT_MANAGE_PRICES
| ORDER_CREATE | ORDER_READ | ORDER_READ_OWN | ORDER_READ_ALL | ORDER_UPDATE
| ORDER_DELETE | ORDER_APPROVE | ORDER_REJECT | ORDER_GENERATE_PO
| VISIT_CREATE | VISIT_READ | VISIT_READ_OWN | VISIT_READ_ALL | VISIT_UPDATE
| VISIT_DELETE | VISIT_DELETE_ALL
| USER_READ | USER_UPDATE | USER_MANAGE_ROLES | USER_DELETE
| REPORT_VIEW
| BASIC.

Definition Permission_value (p : Permission) : string :=
  match p with
  | STORE_CREATE => "store:create"
  | STORE_READ => "store:read"
  | STORE_READ_ALL => "store:read-all"
  | STORE_UPDATE => "store:update"
  | STORE_DELETE => "store:delete"
  | PRODUCT_CREATE => "product:create"
  | PRODUCT_READ => "product:read"
  | PRODUCT_UPDATE => "product:update"
  | PRODUCT_DELETE => "product:delete"
  | PRODUCT_MANAGE_PRICES => "product:manage-prices"
  | ORDER_CREATE => "order:create"
  | ORDER_READ => "order:read"
  | ORDER_READ_OWN => "order:read-own"
  | ORDER_READ_ALL => "order:read-all"
  | ORDER_UPDATE => "order:update"
  | ORDER_DELETE => "order:delete"
  | ORDER_APPROVE => "order:approve"
  | ORDER_REJECT => "order:reject"
  | ORDER_GENERATE_PO => "order:generate-po"
  | VISIT_CREATE => "visit:create"
  | VISIT_READ => "visit:read"
  | VISIT_READ_OWN => "visit:read-own"
  | VISIT_READ_ALL => "visit:read-all"
  | VISIT_UPDATE => "visit:update"
  | VISIT_DELETE => "visit:delete"
  | VISIT_DELETE_ALL => "visit:delete-all"
  | USER_READ => "user:read"
  | USER_UPDATE => "user:update"
  | USER_MANAGE_ROLES => "user:manage-roles"
  | USER_DELETE => "user:delete"
  | REPORT_VIEW => "report:view"
  | BASIC => "basic"
  end.

#[global] Instance Permission_eq_dec : EqDecision Permission.
Proof. solve_decision. Defined.

(** [ROLE_PERMISSIONS]: the flat table, one explicit list per role. *)
Definition ROLE_PERMISSIONS (role : UserRole) : list Permission :=
  match role with
  | ADMIN =>
      [ STORE_CREATE; STORE_READ; STORE_READ_ALL; STORE_UPDATE; STORE_DELETE;
        PRODUCT_CREATE; PRODUCT_READ; PRODUCT_UPDATE; PRODUCT_DELETE;
        PRODUCT_MANAGE_PRICES;
        ORDER_CREATE; ORDER_READ; ORDER_READ_ALL; ORDER_UPDATE; ORDER_DELETE;
        ORDER_APPROVE; ORDER_REJECT; ORDER_GENERATE_PO;
        VISIT_CREATE; VISIT_READ; VISIT_READ_ALL; VISIT_UPDATE; VISIT_DELETE;
        VISIT_DELETE_ALL;
        USER_READ; USER_UPDATE; USER_MANAGE_ROLES; USER_DELETE;
        REPORT_VIEW;
        BASIC ]
  | SALES =>
      [ STORE_READ; STORE_CREATE;
        PRODUCT_READ;
        ORDER_CREATE; ORDER_READ; ORDER_READ_OWN; ORDER_UPDATE;
        VISIT_CREATE; VISIT_READ; VISIT_READ_OWN; VISIT_UPDATE;
        BASIC ]
  | MANAGER =>
      [ STORE_READ; STORE_READ_ALL;
        PRODUCT_READ;
        ORDER_READ; ORDER_READ_ALL;
        VISIT_READ; VISIT_READ_ALL;
        USER_READ;
        REPORT_VIEW;
        BASIC ]
  | BASIC_ROLE => [ BASIC ]
  end.

(** [validateUserRole(role: string): UserRole].  At run time a [UserRole]
    is the string itself, so the result is a string. *)
Definition validRoles : list string := ["ADMIN"; "MANAGER"; "SALES"; "BASIC"].

Definition validateUserRole (role : string) : string :=
  if JS.includes validRoles role then role else "BASIC".

(** [hasPermission(userRole, permission, isUserActive = true, userId?,
    resourceOwnerId?)].  [isUserActive] is [None] when the argument is
    left out, which selects the default [true]. *)
Definition hasPermission (userRole : UserRole) (permission : Permission)
    (isUserActive : option bool) (userId resourceOwnerId : option string)
    : bool :=
  let isUserActive := default true isUserActive in
  if negb isUserActive && bool_decide (permission <> BASIC) then false
  else if negb (JS.includes (ROLE_PERMISSIONS userRole) permission) then false
  else if bool_decide (permission = ORDER_READ_OWN)
          || bool_decide (permission = VISIT_READ_OWN)
       then bool_decide (userId = resourceOwnerId)
  else true.

Definition hasAnyPermission (userRole : UserRole)
    (permissions : list Permission) (isUserActive : option bool)
    (userId resourceOwnerId : option string) : bool :=
  JS.some permissions (fun permission =>
    hasPermission userRole permission isUserActive userId resourceOwnerId).

Definition hasAllPermissions (userRole : UserRole)
    (permissions : list Permission) (isUserActive : option bool)
    (userId resourceOwnerId : option string) : bool :=
  JS.every permissions (fun permission =>
    hasPermission userRole permission isUserActive userId resourceOwnerId).

(** [ResourcePermissions.canViewOwnOrders]: both ids are required here. *)
Definition canViewOwnOrders (role : UserRole) (isActive : bool)
    (userId orderOwnerId : string) : bool :=
  hasPermission role ORDER_READ_OWN (Some isActive)
    (Some userId) (Some orderOwnerId).

(** [BusinessRules.canEditOrder]. *)
Definition canEditOrder (role : UserRole) (orderStatus userId
    orderOwnerId : string) : bool :=
  if bool_decide (role = ADMIN) then true
  else if bool_decide (role = SALES)
          && bool_decide (orderStatus = "DRAFT")
          && bool_decide (userId = orderOwnerId)
       then true
  else false.

(** [BusinessRules.isVisitRequiredForOrder]. *)
Definition isVisitRequiredForOrder (role : UserRole) : bool :=
  bool_decide (role = SALES).

(** [isAdmin], [isManagerOrAdmin], [isSalesOrAbove]: [isUserActive]
    defaults to [true] when left out. *)
Definition isAdmin (userRole : UserRole) (isUserActive : option bool) : bool :=
  let isUserActive := default true isUserActive in
  isUserActive && bool_decide (userRole = ADMIN).

Definition isManagerOrAdmin (userRole : UserRole) (isUserActive : option bool)
    : bool :=
  let isUserActive := default true isUserActive in
  isUserActive
  && (bool_decide (userRole = ADMIN) || bool_decide (userRole = MANAGER)).

Definition isSalesOrAbove (userRole : UserRole) (isUserActive : option bool)
    : bool :=
  let isUserActive := default true isUserActive in
  isUserActive
  && (bool_decide (userRole = ADMIN) || bool_decide (userRole = MANAGER)
      || bool_decide (userRole = SALES)).

(** [ResourcePermissions]: the checkers that pass no ids on. *)
Definition canCreateStore (role : UserRole) (isActive : bool) : bool :=
  hasPermission role STORE_CREATE (Some isActive) None None.
Definition canViewAllStores (role : UserRole) (isActive : bool) : bool :=
  hasPermission role STORE_READ_ALL (Some isActive) None None.
Definition canApproveOrder (role : UserRole) (isActive : bool) : bool :=
  hasPermission role ORDER_APPROVE (Some isActive) None None.
Definition canGeneratePO (role : UserRole) (isActive : bool) : bool :=
  hasPermission role ORDER_GENERATE_PO (Some isActive) None None.
Definition canCreateVisit (role : UserRole) (isActive : bool) : bool :=
  hasPermission role VISIT_CREATE (Some isActive) None None.
Definition canViewAllVisits (role : UserRole) (isActive : bool) : bool :=
  hasPermission role VISIT_READ_ALL (Some isActive) None None.
Definition canDeleteAllVisits (role : UserRole) (isActive : bool) : bool :=
  hasPermission role VISIT_DELETE_ALL (Some isActive) None None.
Definition canManageRoles (role : UserRole) (isActive : bool) : bool :=
  hasPermission role USER_MANAGE_ROLES (Some isActive) None None.

(** [BusinessRules.getDefaultStoreStatus]. *)
Definition getDefaultStoreStatus (role : UserRole) : string :=
  if bool_decide (role = ADMIN) then "TERVERIFIKASI" else "BARU".

(** [ROLE_HIERARCHY] and [isRoleHigherOrEqual]. *)
Definition ROLE_HIERARCHY (role : UserRole) : Z :=
  match role with
  | ADMIN => 4
  | MANAGER => 3
  | SALES => 2
  | BASIC_ROLE => 1
  end.

Definition isRoleHigherOrEqual (userRole compareRole : UserRole) : bool :=
  ROLE_HIERARCHY userRole >=? ROLE_HIERARCHY compareRole.

(** [PermissionCheckSchema] and the [PermissionCheck] it infers. *)
Module PermissionCheck.
Record data := {
  userId : string;
  userRole : UserRole;
  isActive : bool;
  permission : Permission;
  resourceOwnerId : option string
}.
End PermissionCheck.

Definition PermissionCheckSchema `{z.Host}
    : z.schema PermissionCheck.data PermissionCheck.data :=
  fun ctx data =>
    z.ap (z.ap (z.ap (z.ap
      (PermissionCheck.Build_data
         <$> z.field ctx "userId" (z.string [z.uuid None])
               (PermissionCheck.userId data))
      (z.field ctx "userRole" z.enum (PermissionCheck.userRole data)))
      (z.field ctx "isActive" z.boolean (PermissionCheck.isActive data)))
      (z.field ctx "permission" z.enum (PermissionCheck.permission data)))
      (z.field ctx "resourceOwnerId" (z.optional (z.string [z.uuid None]))
         (PermissionCheck.resourceOwnerId data)).

End Permissions.

(** ** src/lib/validations/schemas/common.ts *)

Module Common.

(** [customPriceRefinement[0]], on the two properties it reads. *)
Definition customPriceRefinement (priceType : string)
    (customPrice : option (JS.nullable JS.number)) : bool :=
  if bool_decide (priceType = "CUSTOM")
  then match customPrice with
       | Some (JS.value customPrice) => JS.gt customPrice (JS.num 0)
       | _ => false
       end
  else true.

Definition customPriceRefinement_message : string :=
  "Harga kustom wajib diisi jika tipe harga adalah CUSTOM".
Definition customPriceRefinement_path : list z.key := [z.Key "customPrice"].

(** [customPriceReasonRefinement[0]]. *)
Definition customPriceReasonRefinement (priceType : string)
    (customPriceReason : option (JS.nullable string)) : bool :=
  if bool_decide (priceType = "CUSTOM")
  then match customPriceReason with
       | Some (JS.value customPriceReason) =>
           negb (bool_decide (JS.trim customPriceReason = ""))
       | _ => false
       end
  else true.

Definition customPriceReasonRefinement_message : string :=
  "Alasan harga kustom wajib diisi jika tipe harga adalah CUSTOM".
Definition customPriceReasonRefinement_path : list z.key :=
  [z.Key "customPriceReason"].

End Common.

(** ** Order number and status transitions (order schemas file) *)

Module Order.

(** [generateOrderNumber(sequence = 1)].  [now] is the value of
    [new Date()] at the call; [sequence] is the day's counter, an integer,
    [None] when the argument is left out. *)
Definition generateOrderNumber (now : JS.Date) (sequence : option Z)
    : string :=
  let sequence := default 1 sequence in
  let year := JS.getFullYear now in
  let month := JS.padStart (JS.String_int (JS.getMonth now + 1)) 2 "0" in
  let day := JS.padStart (JS.String_int (JS.getDate now)) 2 "0" in
  let dateStr := JS.String_int year +:+ month +:+ day in
  let seq := JS.padStart (JS.String_int sequence) 3 "0" in
  "PO-" +:+ dateStr +:+ "-" +:+ seq.

(** [s] writes the integer [z] in exactly [width] decimal digits. *)
Definition rendered (width : nat) (z : Z) (s : string) : Prop :=
  String.length s = width
  /\ forallb JS.is_digit (list_ascii_of_string s) = true
  /\ JS.digits_value (list_ascii_of_string s) = z.

Definition renderedb (width : nat) (z : Z) (s : string) : bool :=
  (String.length s =? width)%nat
  && forallb JS.is_digit (list_ascii_of_string s)
  && (JS.digits_value (list_ascii_of_string s) =? z).

(** [statusTransitionMap]: the own properties of the object literal. *)
Definition statusTransitionMap : gmap string (list string) :=
  <["DRAFT" := ["DISETUJUI"; "TIDAK_TERKIRIM"]]>
  (<["DISETUJUI" := ["TERKIRIM"; "TIDAK_TERKIRIM"]]>
  (<["TERKIRIM" := []]>
  (<["TIDAK_TERKIRIM" := ["DISETUJUI"]]> ∅))).

(** [validateStatusTransition]:
    [statusTransitionMap[currentStatus]?.includes(newStatus) ?? false].
    The optional call guards [undefined] only: an inherited property is
    neither [undefined] nor an array, and calling its missing [includes]
    throws. *)
Definition validateStatusTransition (currentStatus newStatus : string)
    : JS.completion bool :=
  match JS.get statusTransitionMap currentStatus with
  | JS.Own allowed => JS.Normal (JS.includes allowed newStatus)
  | JS.Inherited _ =>
      JS.Throw (JS.TypeError
        "statusTransitionMap[currentStatus]?.includes is not a function")
  | JS.Undefined => JS.Normal false
  end.

(** *** Enumerations (enums.ts) *)

Inductive OrderStatus := DRAFT | DISETUJUI | TERKIRIM | TIDAK_TERKIRIM.
Inductive DiscountType := PERCENTAGE | FIXED.
Inductive PriceType := GROSIR | SEMI_GROSIR | RETAIL | MODERN | CUSTOM.

Definition OrderStatus_value (s : OrderStatus) : string :=
  match s with
  | DRAFT => "DRAFT"
  | DISETUJUI => "DISETUJUI"
  | TERKIRIM => "TERKIRIM"
  | TIDAK_TERKIRIM => "TIDAK_TERKIRIM"
  end.

Definition PriceType_value (p : PriceType) : string :=
  match p with
  | GROSIR => "GROSIR"
  | SEMI_GROSIR => "SEMI_GROSIR"
  | RETAIL => "RETAIL"
  | MODERN => "MODERN"
  | CUSTOM => "CUSTOM"
  end.

#[global] Instance OrderStatus_eq_dec : EqDecision OrderStatus.
Proof. solve_decision. Defined.
#[global] Instance DiscountType_eq_dec : EqDecision DiscountType.
Proof. solve_decision. Defined.
#[global] Instance PriceType_eq_dec : EqDecision PriceType.
Proof. solve_decision. Defined.

(** *** The shapes the schemas read ([input], primed properties) and
    produce ([data]) *)

Module CreateItem.
Record input := {
  productId' : string;
  quantity' : JS.number;
  priceType' : option PriceType;
  customPrice' : option (JS.nullable (string + JS.number));
  customPriceReason' : option (JS.nullable string);
  itemDiscountType' : option (JS.nullable DiscountType);
  itemDiscountValue' : option (string + JS.number);
  itemDiscountDescription' : option (JS.nullable string)
}.
Record data := {
  productId : string;
  quantity : JS.number;
  priceType : PriceType;
  customPrice : option (JS.nullable JS.number);
  customPriceReason : option (JS.nullable string);
  itemDiscountType : option (JS.nullable DiscountType);
  itemDiscountValue : JS.number;
  itemDiscountDescription : option (JS.nullable string)
}.
End CreateItem.

(** [createOrderItemBaseSchema.extend({ id, isDeleted })]. *)
Module UpdateItem.
Record input := {
  base' : CreateItem.input;
  id' : option string;
  isDeleted' : option bool
}.
Record data := {
  base : CreateItem.data;
  id : option string;
  isDeleted : option bool
}.
End UpdateItem.

Module CreateOrder.
Record input := {
  storeId' : string;
  salesId' : string;
  visitId' : option (JS.nullable string);
  orderDiscountType' : option (JS.nullable DiscountType);
  orderDiscountValue' : option (string + JS.number);
  orderDiscountDescription' : option (JS.nullable string);
  notes' : option (JS.nullable string);
  items' : list CreateItem.input
}.
Record data := {
  storeId : string;
  salesId : string;
  visitId : option (JS.nullable string);
  orderDiscountType : option (JS.nullable DiscountType);
  orderDiscountValue : JS.number;
  orderDiscountDescription : option (JS.nullable string);
  notes : option (JS.nullable string);
  items : list CreateItem.data
}.
End CreateOrder.

Module UpdateOrder.
Record input := {
  id' : string;
  orderDiscountType' : option (JS.nullable DiscountType);
  orderDiscountValue' : option (string + JS.number);
  orderDiscountDescription' : option (JS.nullable string);
  notes' : option (JS.nullable string);
  deliveryDate' : option (JS.nullable JS.number);
  items' : list UpdateItem.input
}.
Record data := {
  id : string;
  orderDiscountType : option (JS.nullable DiscountType);
  orderDiscountValue : option JS.number;
  orderDiscountDescription : option (JS.nullable string);
  notes : option (JS.nullable string);
  deliveryDate : option (JS.nullable JS.number);
  items : list UpdateItem.data
}.
End UpdateOrder.

Module UpdateStatus.
Record input := {
  id' : string;
  currentStatus' : OrderStatus;
  newStatus' : OrderStatus;
  rejectionReason' : option (JS.nullable string);
  deliveryDate' : option (JS.nullable JS.number);
  userId' : string;
  userName' : option string;
  notes' : option string
}.
Record data := {
  id : string;
  currentStatus : OrderStatus;
  newStatus : OrderStatus;
  rejectionReason : option (JS.nullable string);
  deliveryDate : option (JS.nullable JS.number);
  userId : string;
  userName : option string;
  notes : option string
}.
End UpdateStatus.

(** The element of [OrderFormSchema]'s [items], and the form itself. *)
Module FormItem.
Record input := {
  id' : option string;
  productId' : string;
  quantity' : JS.number;
  priceType' : option PriceType;
  customPrice' : option (JS.nullable JS.number);
  customPriceReason' : option (JS.nullable string);
  itemDiscountType' : option (JS.nullable DiscountType);
  itemDiscountValue' : option JS.number;
  itemDiscountDescription' : option (JS.nullable string);
  isDeleted' : option bool
}.
Record data := {
  id : option string;
  productId : string;
  quantity : JS.number;
  priceType : PriceType;
  customPrice : option (JS.nullable JS.number);
  customPriceReason : option (JS.nullable string);
  itemDiscountType : option (JS.nullable DiscountType);
  itemDiscountValue : JS.number;
  itemDiscountDescription : option (JS.nullable string);
  isDeleted : option bool
}.
End FormItem.

Module OrderForm.
Record input := {
  storeId' : string;
  visitId' : option (JS.nullable string);
  orderDiscountType' : option (JS.nullable DiscountType);
  orderDiscountValue' : option JS.number;
  orderDiscountDescription' : option (JS.nullable string);
  notes' : option (JS.nullable string);
  items' : list FormItem.input
}.
Record data := {
  storeId : string;
  visitId : option (JS.nullable string);
  orderDiscountType : option (JS.nullable DiscountType);
  orderDiscountValue : JS.number;
  orderDiscountDescription : option (JS.nullable string);
  notes : option (JS.nullable string);
  items : list FormItem.data
}.
End OrderForm.

(** [new Set(productIds).size === productIds.length]. *)
Definition allDistinct (productIds : list string) : bool :=
  (size (list_to_set productIds : gset string) =? length productIds)%nat.

Notation "rf <*> ra" := (z.ap rf ra) (at level 61, left associativity).

Section schemas.
Context `{z.Host}.

(** [commonValidations.id] (common.ts). *)
Definition commonValidations_id : z.schema string string :=
  z.string [z.uuid (Some "ID harus berformat UUID yang valid")].

(** [message || fallback]: the empty string is falsy too. *)
Definition or_else (message : option string) (fallback : string) : string :=
  match message with
  | Some m => if bool_decide (m = "") then fallback else m
  | None => fallback
  end.

(** [decimalSchema(maxDigits, decimalPlaces, message)]. *)
Definition decimalSchema (maxDigits decimalPlaces : Z)
    (message : option string) : z.schema (string + JS.number) JS.number :=
  z.refine
    (fun val =>
       let str := JS.toString val in
       let parts := JS.split str "." in
       let integer := nth 0 parts "" in
       let decimal := parts !! 1%nat in
       JS.Normal
         ((Z.of_nat (String.length integer) <=? maxDigits - decimalPlaces)
          && match decimal with
             | None | Some "" => true
             | Some decimal =>
                 Z.of_nat (String.length decimal) <=? decimalPlaces
             end))
    ("Nilai melebihi " +:+ JS.String_int maxDigits +:+ " digit dengan "
       +:+ JS.String_int decimalPlaces +:+ " desimal")
    []
  (z.refine
    (fun val => JS.Normal (JS.ge val (JS.num 0)))
    (or_else message "Nilai harus non-negatif")
    []
  (z.transform
    (fun val =>
       match val with
       | inl s =>
           let num := z.parseFloat s in
           if JS.isNaN num
           then JS.Throw (JS.Error "Format angka tidak valid")
           else JS.Normal num
       | inr n => JS.Normal n
       end)
    (z.union (z.string []) (z.number [])))).

(** [createOrderItemBaseSchema]. *)
Definition createOrderItemBaseSchema
    : z.schema CreateItem.input CreateItem.data :=
  fun ctx data =>
    CreateItem.Build_data
      <$> z.field ctx "productId" commonValidations_id
            (CreateItem.productId' data)
      <*> z.field ctx "quantity"
            (z.number
               [z.int;
                z.positive (Some "Jumlah harus bilangan bulat positif")])
            (CreateItem.quantity' data)
      <*> z.field ctx "priceType" (z.default MODERN z.enum)
            (CreateItem.priceType' data)
      <*> z.field ctx "customPrice"
            (z.optional (z.nullable
               (decimalSchema 8 2 (Some "Harga kustom harus valid"))))
            (CreateItem.customPrice' data)
      <*> z.field ctx "customPriceReason"
            (z.optional (z.nullable (z.string [z.trim])))
            (CreateItem.customPriceReason' data)
      <*> z.field ctx "itemDiscountType"
            (z.optional (z.nullable z.enum))
            (CreateItem.itemDiscountType' data)
      <*> z.field ctx "itemDiscountValue"
            (z.default (inr (JS.num 0))
               (decimalSchema 10 2 (Some "Nilai diskon harus valid")))
            (CreateItem.itemDiscountValue' data)
      <*> z.field ctx "itemDiscountDescription"
            (z.optional (z.nullable (z.string [z.trim])))
            (CreateItem.itemDiscountDescription' data).

(** The three refinements of an order item, written once: the source
    repeats them word for word in the create and the update schema. *)
Definition customPriceGiven (data : CreateItem.data) : bool :=
  negb (bool_decide (CreateItem.priceType data = CUSTOM))
  || match CreateItem.customPrice data with
     | Some (JS.value customPrice) => JS.gt customPrice (JS.num 0)
     | _ => false
     end.

Definition customPriceReasonGiven (data : CreateItem.data) : bool :=
  negb (bool_decide (CreateItem.priceType data = CUSTOM))
  || match CreateItem.customPriceReason data with
     | Some (JS.value customPriceReason) =>
         negb (bool_decide (JS.trim customPriceReason = ""))
     | _ => false
     end.

Definition itemPercentageBounded (data : CreateItem.data) : bool :=
  negb (bool_decide
          (CreateItem.itemDiscountType data = Some (JS.value PERCENTAGE)))
  || JS.le (CreateItem.itemDiscountValue data) (JS.num 100).

Definition customPriceMessage : string :=
  "Harga kustom wajib diisi jika tipe harga adalah CUSTOM".
Definition customPriceReasonMessage : string :=
  "Alasan harga kustom wajib diisi jika tipe harga adalah CUSTOM".
Definition percentageMessage : string :=
  "Diskon persentase tidak boleh melebihi 100%".
Definition duplicateMessage : string :=
  "Produk tidak boleh duplikat dalam satu order".

(** [CreateOrderItemSchema]. *)
Definition CreateOrderItemSchema
    : z.schema CreateItem.input CreateItem.data :=
  z.refine (fun data => JS.Normal (itemPercentageBounded data))
    percentageMessage [z.Key "itemDiscountValue"]
  (z.refine (fun data => JS.Normal (customPriceReasonGiven data))
    customPriceReasonMessage [z.Key "customPriceReason"]
  (z.refine (fun data => JS.Normal (customPriceGiven data))
    customPriceMessage [z.Key "customPrice"]
    createOrderItemBaseSchema)).

(** [updateOrderItemBaseSchema]. *)
Definition updateOrderItemBaseSchema
    : z.schema UpdateItem.input UpdateItem.data :=
  fun ctx data =>
    UpdateItem.Build_data
      <$> createOrderItemBaseSchema ctx (UpdateItem.base' data)
      <*> z.field ctx "id" (z.optional (z.string [z.uuid None]))
            (UpdateItem.id' data)
      <*> z.field ctx "isDeleted" (z.optional z.boolean)
            (UpdateItem.isDeleted' data).

(** [UpdateOrderItemSchema]. *)
Definition UpdateOrderItemSchema
    : z.schema UpdateItem.input UpdateItem.data :=
  z.refine
    (fun data => JS.Normal (itemPercentageBounded (UpdateItem.base data)))
    percentageMessage [z.Key "itemDiscountValue"]
  (z.refine
    (fun data => JS.Normal (customPriceReasonGiven (UpdateItem.base data)))
    customPriceReasonMessage [z.Key "customPriceReason"]
  (z.refine
    (fun data => JS.Normal (customPriceGiven (UpdateItem.base data)))
    customPriceMessage [z.Key "customPrice"]
    updateOrderItemBaseSchema)).

(** [createOrderBaseSchema]. *)
Definition createOrderBaseSchema
    : z.schema CreateOrder.input CreateOrder.data :=
  fun ctx data =>
    CreateOrder.Build_data
      <$> z.field ctx "storeId" commonValidations_id
            (CreateOrder.storeId' data)
      <*> z.field ctx "salesId"
            (z.string
               [z.uuid None; z.min 1 (Some "Sales ID tidak boleh kosong")])
            (CreateOrder.salesId' data)
      <*> z.field ctx "visitId"
            (z.optional (z.nullable (z.string [z.uuid None])))
            (CreateOrder.visitId' data)
      <*> z.field ctx "orderDiscountType"
            (z.optional (z.nullable z.enum))
            (CreateOrder.orderDiscountType' data)
      <*> z.field ctx "orderDiscountValue"
            (z.default (inr (JS.num 0))
               (decimalSchema 10 2 (Some "Nilai diskon order harus valid")))
            (CreateOrder.orderDiscountValue' data)
      <*> z.field ctx "orderDiscountDescription"
            (z.optional (z.nullable (z.string [z.trim])))
            (CreateOrder.orderDiscountDescription' data)
      <*> z.field ctx "notes"
            (z.optional (z.nullable (z.string [z.trim])))
            (CreateOrder.notes' data)
      <*> z.field ctx "items"
            (z.array CreateOrderItemSchema 1
               "Order harus memiliki minimal 1 item")
            (CreateOrder.items' data).

(** [CreateOrderSchema]. *)
Definition CreateOrderSchema
    : z.schema CreateOrder.input CreateOrder.data :=
  z.refine
    (fun data =>
       let productIds := CreateItem.productId <$> CreateOrder.items data in
       JS.Normal (allDistinct productIds))
    duplicateMessage [z.Key "items"]
  (z.refine
    (fun data =>
       JS.Normal
         (negb (bool_decide (CreateOrder.orderDiscountType data
                             = Some (JS.value PERCENTAGE)))
          || JS.le (CreateOrder.orderDiscountValue data) (JS.num 100)))
    percentageMessage [z.Key "orderDiscountValue"]
    createOrderBaseSchema).

(** [updateOrderBaseSchema]. *)
Definition updateOrderBaseSchema
    : z.schema UpdateOrder.input UpdateOrder.data :=
  fun ctx data =>
    UpdateOrder.Build_data
      <$> z.field ctx "id" commonValidations_id (UpdateOrder.id' data)
      <*> z.field ctx "orderDiscountType"
            (z.optional (z.nullable z.enum))
            (UpdateOrder.orderDiscountType' data)
      <*> z.field ctx "orderDiscountValue"
            (z.optional
               (decimalSchema 10 2 (Some "Nilai diskon order harus valid")))
            (UpdateOrder.orderDiscountValue' data)
      <*> z.field ctx "orderDiscountDescription"
            (z.optional (z.nullable (z.string [z.trim])))
            (UpdateOrder.orderDiscountDescription' data)
      <*> z.field ctx "notes"
            (z.optional (z.nullable (z.string [z.trim])))
            (UpdateOrder.notes' data)
      <*> z.field ctx "deliveryDate" (z.optional (z.nullable z.date))
            (UpdateOrder.deliveryDate' data)
      <*> z.field ctx "items"
            (z.array UpdateOrderItemSchema 1
               "Order harus memiliki minimal 1 item")
            (UpdateOrder.items' data).

(** [!item.isDeleted]. *)
Definition notDeleted (item : UpdateItem.data) : bool :=
  negb (default false (UpdateItem.isDeleted item)).

(** [UpdateOrderSchema]. *)
Definition UpdateOrderSchema
    : z.schema UpdateOrder.input UpdateOrder.data :=
  z.refine
    (fun data =>
       let nonDeletedItems := filter notDeleted (UpdateOrder.items data) in
       let productIds :=
         (fun item => CreateItem.productId (UpdateItem.base item))
           <$> nonDeletedItems in
       JS.Normal (allDistinct productIds))
    duplicateMessage [z.Key "items"]
  (z.refine
    (fun data =>
       JS.Normal
         (negb (bool_decide (UpdateOrder.orderDiscountType data
                             = Some (JS.value PERCENTAGE)))
          || match UpdateOrder.orderDiscountValue data with
             | None => true
             | Some orderDiscountValue =>
                 JS.le orderDiscountValue (JS.num 100)
             end))
    percentageMessage [z.Key "orderDiscountValue"]
    updateOrderBaseSchema).

(** [UpdateOrderStatusSchema]. *)
Definition UpdateOrderStatusSchema
    : z.schema UpdateStatus.input UpdateStatus.data :=
  z.refine
    (fun data =>
       validateStatusTransition
         (OrderStatus_value (UpdateStatus.currentStatus data))
         (OrderStatus_value (UpdateStatus.newStatus data)))
    "Transisi status tidak valid" [z.Key "newStatus"]
    (fun ctx data =>
       UpdateStatus.Build_data
         <$> z.field ctx "id" commonValidations_id (UpdateStatus.id' data)
         <*> z.field ctx "currentStatus" z.enum
               (UpdateStatus.currentStatus' data)
         <*> z.field ctx "newStatus" z.enum (UpdateStatus.newStatus' data)
         <*> z.field ctx "rejectionReason"
               (z.optional (z.nullable (z.string [z.trim])))
               (UpdateStatus.rejectionReason' data)
         <*> z.field ctx "deliveryDate" (z.optional (z.nullable z.date))
               (UpdateStatus.deliveryDate' data)
         <*> z.field ctx "userId"
               (z.string [z.uuid (Some "ID user tidak valid")])
               (UpdateStatus.userId' data)
         <*> z.field ctx "userName" (z.optional (z.string []))
               (UpdateStatus.userName' data)
         <*> z.field ctx "notes" (z.optional (z.string [z.trim]))
               (UpdateStatus.notes' data)).

(** The object schema of one element of [OrderFormSchema]'s [items]. *)
Definition orderFormItemSchema : z.schema FormItem.input FormItem.data :=
  fun ctx data =>
    FormItem.Build_data
      <$> z.field ctx "id" (z.optional (z.string [])) (FormItem.id' data)
      <*> z.field ctx "productId"
            (z.string [z.min 1 (Some "Produk harus dipilih")])
            (FormItem.productId' data)
      <*> z.field ctx "quantity"
            (z.number [z.int; z.positive (Some "Jumlah harus positif")])
            (FormItem.quantity' data)
      <*> z.field ctx "priceType" (z.default MODERN z.enum)
            (FormItem.priceType' data)
      <*> z.field ctx "customPrice"
            (z.optional (z.nullable (z.number [])))
            (FormItem.customPrice' data)
      <*> z.field ctx "customPriceReason"
            (z.optional (z.nullable (z.string [])))
            (FormItem.customPriceReason' data)
      <*> z.field ctx "itemDiscountType"
            (z.optional (z.nullable z.enum))
            (FormItem.itemDiscountType' data)
      <*> z.field ctx "itemDiscountValue"
            (z.default (JS.num 0) (z.number []))
            (FormItem.itemDiscountValue' data)
      <*> z.field ctx "itemDiscountDescription"
            (z.optional (z.nullable (z.string [])))
            (FormItem.itemDiscountDescription' data)
      <*> z.field ctx "isDeleted" (z.optional z.boolean)
            (FormItem.isDeleted' data).

Definition orderFormBaseSchema : z.schema OrderForm.input OrderForm.data :=
  fun ctx data =>
    OrderForm.Build_data
      <$> z.field ctx "storeId"
            (z.string [z.min 1 (Some "Toko harus dipilih")])
            (OrderForm.storeId' data)
      <*> z.field ctx "visitId"
            (z.optional (z.nullable (z.string [z.uuid None])))
            (OrderForm.visitId' data)
      <*> z.field ctx "orderDiscountType"
            (z.optional (z.nullable z.enum))
            (OrderForm.orderDiscountType' data)
      <*> z.field ctx "orderDiscountValue"
            (z.default (JS.num 0) (z.number []))
            (OrderForm.orderDiscountValue' data)
      <*> z.field ctx "orderDiscountDescription"
            (z.optional (z.nullable (z.string [])))
            (OrderForm.orderDiscountDescription' data)
      <*> z.field ctx "notes"
            (z.optional (z.nullable (z.string [])))
            (OrderForm.notes' data)
      <*> z.field ctx "items"
            (z.array orderFormItemSchema 1
               "Order harus memiliki minimal 1 item")
            (OrderForm.items' data).

(** [!item.isDeleted] on a form item. *)
Definition active (item : FormItem.data) : bool :=
  negb (default false (FormItem.isDeleted item)).

Definition activeItemMessage : string :=
  "Order harus memiliki minimal 1 item aktif".

(** [OrderFormSchema]. *)
Definition OrderFormSchema : z.schema OrderForm.input OrderForm.data :=
  z.refine
    (fun data =>
       let activeItems := filter active (OrderForm.items data) in
       let productIds := FormItem.productId <$> activeItems in
       JS.Normal (allDistinct productIds))
    duplicateMessage [z.Key "items"]
  (z.refine
    (fun data =>
       JS.Normal
         (negb (bool_decide (OrderForm.orderDiscountType data
                             = Some (JS.value PERCENTAGE)))
          || JS.le (OrderForm.orderDiscountValue data) (JS.num 100)))
    percentageMessage [z.Key "orderDiscountValue"]
  (z.refine
    (fun data =>
       let activeItems := filter active (OrderForm.items data) in
       JS.Normal (0 <? length activeItems)%nat)
    activeItemMessage [z.Key "items"]
    orderFormBaseSchema)).

End schemas.

End Order.

(** ** A host to run the schemas on, and sample requests *)

Module Samples.
Import Order.

(** [parseFloat] read as exact decimals and the 8-4-4-4-12 UUID shape. *)
Definition host : z.Host :=
  {| z.parseFloat := JS.parse_decimal; z.isUuid := JS.uuid_shape |}.

Definition christmas : JS.Date :=
  {| JS.getFullYear := 2024; JS.getMonth := 11; JS.getDate := 25 |}.

Definition uuid1 : string := "123e4567-e89b-42d3-a456-426614174000".
Definition uuid2 : string := "9b2f0c1e-5d3a-4e6f-8a7b-0c1d2e3f4a5b".

(** [{ id, currentStatus: "DRAFT", newStatus: "TIDAK_TERKIRIM", userId }]:
    a rejection with no reason given. *)
Definition rejectWithoutReason : UpdateStatus.input :=
  {| UpdateStatus.id' := uuid1;
     UpdateStatus.currentStatus' := DRAFT;
     UpdateStatus.newStatus' := TIDAK_TERKIRIM;
     UpdateStatus.rejectionReason' := None;
     UpdateStatus.deliveryDate' := None;
     UpdateStatus.userId' := uuid2;
     UpdateStatus.userName' := None;
     UpdateStatus.notes' := None |}.

(** The same rejection with [rejectionReason: null] and with an empty
    reason. *)
Definition rejectWithNullReason : UpdateStatus.input :=
  {| UpdateStatus.id' := uuid1;
     UpdateStatus.currentStatus' := DISETUJUI;
     UpdateStatus.newStatus' := TIDAK_TERKIRIM;
     UpdateStatus.rejectionReason' := Some JS.null;
     UpdateStatus.deliveryDate' := None;
     UpdateStatus.userId' := uuid2;
     UpdateStatus.userName' := Some "Budi";
     UpdateStatus.notes' := None |}.

Definition rejectWithEmptyReason : UpdateStatus.input :=
  {| UpdateStatus.id' := uuid1;
     UpdateStatus.currentStatus' := DRAFT;
     UpdateStatus.newStatus' := TIDAK_TERKIRIM;
     UpdateStatus.rejectionReason' := Some (JS.value "");
     UpdateStatus.deliveryDate' := None;
     UpdateStatus.userId' := uuid2;
     UpdateStatus.userName' := None;
     UpdateStatus.notes' := Some "toko tutup" |}.

(** An item with a 150% discount whose custom price was left as an empty
    form field: [{ productId, quantity: 1, customPrice: "",
    itemDiscountType: "PERCENTAGE", itemDiscountValue: 150 }]. *)
Definition discount150 : CreateItem.input :=
  {| CreateItem.productId' := uuid1;
     CreateItem.quantity' := JS.num 1;
     CreateItem.priceType' := None;
     CreateItem.customPrice' := Some (JS.value (inl ""));
     CreateItem.customPriceReason' := None;
     CreateItem.itemDiscountType' := Some (JS.value PERCENTAGE);
     CreateItem.itemDiscountValue' := Some (inr (JS.num 150));
     CreateItem.itemDiscountDescription' := None |}.

(** A CUSTOM-priced item whose custom price is an empty string:
    [{ productId, quantity: 2, priceType: "CUSTOM", customPrice: "",
    customPriceReason: "promo" }]. *)
Definition customWithoutPrice : CreateItem.input :=
  {| CreateItem.productId' := uuid1;
     CreateItem.quantity' := JS.num 2;
     CreateItem.priceType' := Some CUSTOM;
     CreateItem.customPrice' := Some (JS.value (inl ""));
     CreateItem.customPriceReason' := Some (JS.value "promo");
     CreateItem.itemDiscountType' := None;
     CreateItem.itemDiscountValue' := None;
     CreateItem.itemDiscountDescription' := None |}.

(** A plain item of two units at the default price type. *)
Definition plainItem : CreateItem.input :=
  {| CreateItem.productId' := uuid1;
     CreateItem.quantity' := JS.num 2;
     CreateItem.priceType' := None;
     CreateItem.customPrice' := None;
     CreateItem.customPriceReason' := None;
     CreateItem.itemDiscountType' := None;
     CreateItem.itemDiscountValue' := None;
     CreateItem.itemDiscountDescription' := None |}.

(** An order listing the same product twice, its order discount value left
    as an empty form field. *)
Definition duplicateOrder : CreateOrder.input :=
  {| CreateOrder.storeId' := uuid1;
     CreateOrder.salesId' := uuid2;
     CreateOrder.visitId' := None;
     CreateOrder.orderDiscountType' := None;
     CreateOrder.orderDiscountValue' := Some (inl "");
     CreateOrder.orderDiscountDescription' := None;
     CreateOrder.notes' := None;
     CreateOrder.items' := [plainItem; plainItem] |}.

(** The scenarios of the specification: a 150% item discount, a CUSTOM
    price of 0, the same product twice in a new order, and an update whose
    duplicate line is marked deleted. *)
Definition discount150alone : CreateItem.input :=
  {| CreateItem.productId' := uuid1;
     CreateItem.quantity' := JS.num 1;
     CreateItem.priceType' := None;
     CreateItem.customPrice' := None;
     CreateItem.customPriceReason' := None;
     CreateItem.itemDiscountType' := Some (JS.value PERCENTAGE);
     CreateItem.itemDiscountValue' := Some (inr (JS.num 150));
     CreateItem.itemDiscountDescription' := None |}.

Definition customPriceZero : CreateItem.input :=
  {| CreateItem.productId' := uuid1;
     CreateItem.quantity' := JS.num 2;
     CreateItem.priceType' := Some CUSTOM;
     CreateItem.customPrice' := Some (JS.value (inr (JS.num 0)));
     CreateItem.customPriceReason' := Some (JS.value "promo");
     CreateItem.itemDiscountType' := None;
     CreateItem.itemDiscountValue' := None;
     CreateItem.itemDiscountDescription' := None |}.

Definition sameProductTwice : CreateOrder.input :=
  {| CreateOrder.storeId' := uuid1;
     CreateOrder.salesId' := uuid2;
     CreateOrder.visitId' := None;
     CreateOrder.orderDiscountType' := None;
     CreateOrder.orderDiscountValue' := None;
     CreateOrder.orderDiscountDescription' := None;
     CreateOrder.notes' := None;
     CreateOrder.items' := [plainItem; plainItem] |}.

Definition deletedDuplicate : UpdateOrder.input :=
  {| UpdateOrder.id' := uuid2;
     UpdateOrder.orderDiscountType' := None;
     UpdateOrder.orderDiscountValue' := None;
     UpdateOrder.orderDiscountDescription' := None;
     UpdateOrder.notes' := None;
     UpdateOrder.deliveryDate' := None;
     UpdateOrder.items' :=
       [ {| UpdateItem.base' := plainItem; UpdateItem.id' := None;
            UpdateItem.isDeleted' := Some true |};
         {| UpdateItem.base' := plainItem; UpdateItem.id' := None;
            UpdateItem.isDeleted' := None |} ] |}.

(** The 150% item again, its quantity NaN. *)
Definition discount150NaN : CreateItem.input :=
  {| CreateItem.productId' := uuid1;
     CreateItem.quantity' := JS.NaN;
     CreateItem.priceType' := None;
     CreateItem.customPrice' := None;
     CreateItem.customPriceReason' := None;
     CreateItem.itemDiscountType' := Some (JS.value PERCENTAGE);
     CreateItem.itemDiscountValue' := Some (inr (JS.num 150));
     CreateItem.itemDiscountDescription' := None |}.

End Samples.

Import Permissions Order.

(** Every issue a result carries satisfies [Q]. *)
Definition every_issue {A} (Q : z.issue -> Prop) (r : z.result A) : Prop :=
  Forall Q (z.issues_of r).

(** The result holds a parsed value: the parse reached the refinements. *)
Definition parses {A} (r : z.result A) : Prop :=
  exists issues v, r = z.Returned issues (Some v).

(** [f] under [null]. *)
Definition nullable_map {A B} (f : A -> B) (x : JS.nullable A) : JS.nullable B :=
  match x with
  | JS.null => JS.null
  | JS.value a => JS.value (f a)
  end.

(** The messages [decimalSchema] is given, or builds, in the order schemas. *)
Definition decimal_messages : list string :=
  [ "Harga kustom harus valid"; "Nilai diskon harus valid";
    "Nilai diskon order harus valid";
    "Nilai melebihi 8 digit dengan 2 desimal";
    "Nilai melebihi 10 digit dengan 2 desimal" ].

Section readings.
Context `{z.Host}.

(** The number a decimal property stands for: itself, or what [parseFloat]
    reads in the string. *)
Definition decimal_value (x : string + JS.number) : JS.number :=
  match x with
  | inl s => z.parseFloat s
  | inr n => n
  end.

(** The item a request item is parsed into, when it parses. *)
Definition item_data (item : CreateItem.input) : CreateItem.data :=
  {| CreateItem.productId := CreateItem.productId' item;
     CreateItem.quantity := CreateItem.quantity' item;
     CreateItem.priceType := default MODERN (CreateItem.priceType' item);
     CreateItem.customPrice :=
       nullable_map decimal_value <$> CreateItem.customPrice' item;
     CreateItem.customPriceReason :=
       nullable_map JS.trim <$> CreateItem.customPriceReason' item;
     CreateItem.itemDiscountType := CreateItem.itemDiscountType' item;
     CreateItem.itemDiscountValue :=
       decimal_value (default (inr (JS.num 0))
                        (CreateItem.itemDiscountValue' item));
     CreateItem.itemDiscountDescription :=
       nullable_map JS.trim <$> CreateItem.itemDiscountDescription' item |}.

(** Every number of a request item reads as a number: the quantity is not
    NaN, and neither is the custom price, when one is given, nor the
    discount value. *)
Definition readable (item : CreateItem.input) : Prop :=
  JS.isNaN (CreateItem.quantity' item) = false
  /\ match CreateItem.customPrice' item with
     | Some (JS.value x) => JS.isNaN (decimal_value x) = false
     | _ => True
     end
  /\ JS.isNaN (decimal_value (default (inr (JS.num 0))
                                (CreateItem.itemDiscountValue' item))) = false.

Definition update_item_data (item : UpdateItem.input) : UpdateItem.data :=
  {| UpdateItem.base := item_data (UpdateItem.base' item);
     UpdateItem.id := UpdateItem.id' item;
     UpdateItem.isDeleted := UpdateItem.isDeleted' item |}.

(** A request item is CUSTOM-priced, gives a custom price above 0, gives a
    reason that is not blank. *)
Definition isCustom (item : CreateItem.input) : bool :=
  bool_decide (CreateItem.priceType' item = Some CUSTOM).

Definition givesCustomPrice (item : CreateItem.input) : bool :=
  match CreateItem.customPrice' item with
  | Some (JS.value x) => JS.gt (decimal_value x) (JS.num 0)
  | _ => false
  end.

Definition givesReason (item : CreateItem.input) : bool :=
  match CreateItem.customPriceReason' item with
  | Some (JS.value reason) => negb (bool_decide (JS.trim reason = ""))
  | _ => false
  end.

(** A percentage discount whose value is above 100. *)
Definition percentageAbove100 (discountType : option (JS.nullable DiscountType))
    (discountValue : option (string + JS.number)) : bool :=
  bool_decide (discountType = Some (JS.value PERCENTAGE))
  && match discountValue with
     | Some x => JS.gt (decimal_value x) (JS.num 100)
     | None => false
     end.

End readings.

(** The issues the refinements of the order schemas raise, for a value
    parsed at [ctx]. *)
Definition customPriceIssue (ctx : list z.key) : z.issue :=
  z.Issue z.custom (ctx ++ [z.Key "customPrice"]) (Some customPriceMessage).
Definition customPriceReasonIssue (ctx : list z.key) : z.issue :=
  z.Issue z.custom (ctx ++ [z.Key "customPriceReason"])
    (Some customPriceReasonMessage).
Definition itemPercentageIssue (ctx : list z.key) : z.issue :=
  z.Issue z.custom (ctx ++ [z.Key "itemDiscountValue"]) (Some percentageMessage).
Definition orderPercentageIssue (ctx : list z.key) : z.issue :=
  z.Issue z.custom (ctx ++ [z.Key "orderDiscountValue"]) (Some percentageMessage).
Definition duplicateIssue (ctx : list z.key) : z.issue :=
  z.Issue z.custom (ctx ++ [z.Key "items"]) (Some duplicateMessage).

(** The chain of three refinements that [CreateOrderItemSchema] and
    [UpdateOrderItemSchema] both put on their base schema; [proj] finds the
    item's properties in the parsed value. *)
Definition itemRefinements {I A} (proj : A -> CreateItem.data)
    (s : z.schema I A) : z.schema I A :=
  z.refine (fun data => JS.Normal (itemPercentageBounded (proj data)))
    percentageMessage [z.Key "itemDiscountValue"]
  (z.refine (fun data => JS.Normal (customPriceReasonGiven (proj data)))
    customPriceReasonMessage [z.Key "customPriceReason"]
  (z.refine (fun data => JS.Normal (customPriceGiven (proj data)))
    customPriceMessage [z.Key "customPrice"]
    s)).

(** The two refinements that [CreateOrderSchema] and [UpdateOrderSchema]
    both put on their base schema: the bound on a percentage discount, read
    by [bounded], and the distinctness of the product ids, found by
    [productIds]. *)
Definition orderRefinements {I A} (bounded : A -> bool)
    (productIds : A -> list string) (s : z.schema I A) : z.schema I A :=
  z.refine (fun data => JS.Normal (allDistinct (productIds data)))
    duplicateMessage [z.Key "items"]
  (z.refine (fun data => JS.Normal (bounded data))
    percentageMessage [z.Key "orderDiscountValue"]
    s).

(** An issue is not a [custom] one with message [M]. *)
Definition not_custom (M : string) (i : z.issue) : Prop :=
  z.code i = z.custom -> z.message i <> Some M.

(** An issue lies at or below [ctx]. *)
Definition below (ctx : list z.key) (i : z.issue) : Prop :=
  ctx `prefix_of` z.path i.

(** The request items of an update that are not marked deleted. *)
Definition keptItems (items : list UpdateItem.input) : list UpdateItem.input :=
  filter (fun item => UpdateItem.isDeleted' item <> Some true) items.

(** One legal status change, and a chain of them: the statuses an order
    can go through when every change passes [validateStatusTransition]. *)
Definition transition (currentStatus newStatus : string) : Prop :=
  validateStatusTransition currentStatus newStatus = JS.Normal true.

Inductive reachable : string -> string -> Prop :=
| reachable_refl (status : string) : reachable status status
| reachable_step (status1 status2 status3 : string) :
    reachable status1 status2 -> transition status2 status3 ->
    reachable status1 status3.

(** The four statuses, as the keys of [statusTransitionMap]. *)
Definition statuses : list string :=
  ["DRAFT"; "DISETUJUI"; "TERKIRIM"; "TIDAK_TERKIRIM"].

(** The table of [statusTransitionMap] on the statuses of the enumeration. *)
Definition legalTransition (currentStatus newStatus : OrderStatus) : bool :=
  match currentStatus, newStatus with
  | DRAFT, DISETUJUI | DRAFT, TIDAK_TERKIRIM
  | DISETUJUI, TERKIRIM | DISETUJUI, TIDAK_TERKIRIM
  | TIDAK_TERKIRIM, DISETUJUI => true
  | _, _ => false
  end.

(** The issue the refinement of [UpdateOrderStatusSchema] raises, the
    validity of a delivery date (a [Date] whose time is not NaN), and the
    request a status change is parsed into. *)
Definition transitionIssue (ctx : list z.key) : z.issue :=
  z.Issue z.custom (ctx ++ [z.Key "newStatus"])
    (Some "Transisi status tidak valid").

Definition validDeliveryDate (deliveryDate : option (JS.nullable JS.number))
    : bool :=
  match deliveryDate with
  | Some (JS.value time) => negb (JS.isNaN time)
  | _ => true
  end.

Definition status_data (request : UpdateStatus.input) : UpdateStatus.data :=
  {| UpdateStatus.id := UpdateStatus.id' request;
     UpdateStatus.currentStatus := UpdateStatus.currentStatus' request;
     UpdateStatus.newStatus := UpdateStatus.newStatus' request;
     UpdateStatus.rejectionReason :=
       nullable_map JS.trim <$> UpdateStatus.rejectionReason' request;
     UpdateStatus.deliveryDate := UpdateStatus.deliveryDate' request;
     UpdateStatus.userId := UpdateStatus.userId' request;
     UpdateStatus.userName := UpdateStatus.userName' request;
     UpdateStatus.notes := JS.trim <$> UpdateStatus.notes' request |}.

(** The issues the properties of a status change raise by themselves. *)
Definition status_base_issues `{z.Host} (ctx : list z.key)
    (request : UpdateStatus.input) : list z.issue :=
  z.when_not (z.isUuid (UpdateStatus.id' request))
    (z.Issue z.invalid_string (ctx ++ [z.Key "id"])
       (Some "ID harus berformat UUID yang valid"))
  ++ z.when_not (validDeliveryDate (UpdateStatus.deliveryDate' request))
       (z.Issue z.invalid_date (ctx ++ [z.Key "deliveryDate"]) None)
  ++ z.when_not (z.isUuid (UpdateStatus.userId' request))
       (z.Issue z.invalid_string (ctx ++ [z.Key "userId"])
          (Some "ID user tidak valid")).

(** One step of reading a decimal numeral, as [JS.digits_value] folds it. *)
Definition digit_step (acc : Z) (c : ascii) : Z :=
  10 * acc + (Z.of_nat (nat_of_ascii c) - 48).

(** A date of the calendar whose year has four digits. *)
Definition calendar_date (now : JS.Date) : Prop :=
  1000 <= JS.getFullYear now <= 9999
  /\ 0 <= JS.getMonth now <= 11
  /\ 1 <= JS.getDate now <= 31.

(** The digit check of [decimalSchema], its second refinement, on the
    number the property stands for; and the three conditions under which
    [decimalSchema] accepts a property. *)
Definition decimal_fits (maxDigits decimalPlaces : Z) (val : JS.number) : bool :=
  let parts := JS.split (JS.toString val) "." in
  (Z.of_nat (String.length (nth 0 parts "")) <=? maxDigits - decimalPlaces)
  && match parts !! 1%nat with
     | None | Some "" => true
     | Some decimal => Z.of_nat (String.length decimal) <=? decimalPlaces
     end.

Definition decimal_accepted `{z.Host} (maxDigits decimalPlaces : Z)
    (x : string + JS.number) : bool :=
  negb (JS.isNaN (decimal_value x))
  && JS.ge (decimal_value x) (JS.num 0)
  && decimal_fits maxDigits decimalPlaces (decimal_value x).

(** [digit * 10^exponent] prints without a decimal point and in at most
    six characters. *)
Definition exponent_form (digit exponent : Z) : bool :=
  match JS.split (JS.toString (JS.Dec digit exponent)) "." with
  | [s] => Z.of_nat (String.length s) <=? 6
  | _ => false
  end.

(** What an order form and its items are parsed into. *)
Definition form_item_data (item : FormItem.input) : FormItem.data :=
  {| FormItem.id := FormItem.id' item;
     FormItem.productId := FormItem.productId' item;
     FormItem.quantity := FormItem.quantity' item;
     FormItem.priceType := default MODERN (FormItem.priceType' item);
     FormItem.customPrice := FormItem.customPrice' item;
     FormItem.customPriceReason := FormItem.customPriceReason' item;
     FormItem.itemDiscountType := FormItem.itemDiscountType' item;
     FormItem.itemDiscountValue :=
       default (JS.num 0) (FormItem.itemDiscountValue' item);
     FormItem.itemDiscountDescription :=
       FormItem.itemDiscountDescription' item;
     FormItem.isDeleted := FormItem.isDeleted' item |}.

Definition form_data (form : OrderForm.input) : OrderForm.data :=
  {| OrderForm.storeId := OrderForm.storeId' form;
     OrderForm.visitId := OrderForm.visitId' form;
     OrderForm.orderDiscountType := OrderForm.orderDiscountType' form;
     OrderForm.orderDiscountValue :=
       default (JS.num 0) (OrderForm.orderDiscountValue' form);
     OrderForm.orderDiscountDescription :=
       OrderForm.orderDiscountDescription' form;
     OrderForm.notes := OrderForm.notes' form;
     OrderForm.items := form_item_data <$> OrderForm.items' form |}.

(** What the form schema asks of one item: a product, a positive whole
    quantity, and numbers that are numbers. *)
Definition form_item_accepted (item : FormItem.input) : bool :=
  (1 <=? String.length (FormItem.productId' item))%nat
  && (negb (JS.isNaN (FormItem.quantity' item))
      && JS.isInteger (FormItem.quantity' item)
      && negb (JS.le (FormItem.quantity' item) (JS.num 0)))
  && match FormItem.customPrice' item with
     | Some (JS.value customPrice) => negb (JS.isNaN customPrice)
     | _ => true
     end
  && negb (JS.isNaN (default (JS.num 0) (FormItem.itemDiscountValue' item))).

(** The form items that are not marked deleted. *)
Definition activeInputs (items : list FormItem.input) : list FormItem.input :=
  filter (fun item => FormItem.isDeleted' item <> Some true) items.

(** The parse ended without an exception. *)
Definition returns {A} (r : z.result A) : Prop :=
  exists issues parsed, r = z.Returned issues parsed.

(** * Properties *)

(** ** The primitives on concrete values *)

Example toString_integer : JS.toString (JS.Dec 15 1) = "150".
Proof. vm_compute. reflexivity. Qed.

Example toString_fraction : JS.toString (JS.Dec 12345 (-2)) = "123.45".
Proof. vm_compute. reflexivity. Qed.

Example toString_small : JS.toString (JS.Dec 5 (-7)) = "5e-7".
Proof. vm_compute. reflexivity. Qed.

Example toString_large : JS.toString (JS.Dec 1 21) = "1e+21".
Proof. vm_compute. reflexivity. Qed.

Example toString_negative : JS.toString (JS.Dec (-25) (-3)) = "-0.025".
Proof. vm_compute. reflexivity. Qed.

Example parse_decimal_prefix : JS.parse_decimal "  12.50abc" = JS.Dec 1250 (-2).
Proof. vm_compute. reflexivity. Qed.

Example parse_decimal_exponent : JS.parse_decimal "-1.5e3" = JS.Dec (-15) 2.
Proof. vm_compute. reflexivity. Qed.

Example parse_decimal_empty : JS.parse_decimal "" = JS.NaN.
Proof. vm_compute. reflexivity. Qed.

Example parse_decimal_word : JS.parse_decimal "abc" = JS.NaN.
Proof. vm_compute. reflexivity. Qed.

Example trim_both_ends : JS.trim "  a b  " = "a b".
Proof. vm_compute. reflexivity. Qed.

Example split_decimal_point : JS.split "123.45" "." = ["123"; "45"].
Proof. vm_compute. reflexivity. Qed.

Example padStart_pads : JS.padStart "7" 3 "0" = "007".
Proof. vm_compute. reflexivity. Qed.

Example padStart_keeps : JS.padStart "1000" 3 "0" = "1000".
Proof. vm_compute. reflexivity. Qed.

Example uuid_shape_accepts : JS.uuid_shape Samples.uuid1 = true.
Proof. vm_compute. reflexivity. Qed.

Example uuid_shape_refuses : JS.uuid_shape "123e4567-e89b-42d3-a456" = false.
Proof. vm_compute. reflexivity. Qed.

Example le_compares_values : JS.le (JS.Dec 1005 (-1)) (JS.num 100) = false.
Proof. vm_compute. reflexivity. Qed.

Example generateOrderNumber_christmas :
  generateOrderNumber Samples.christmas None = "PO-20241225-001".
Proof. vm_compute. reflexivity. Qed.

Example hasPermission_owner :
  hasPermission SALES ORDER_READ_OWN (Some true) (Some "u1") (Some "u1") = true.
Proof. vm_compute. reflexivity. Qed.

Example hasPermission_other_owner :
  hasPermission SALES ORDER_READ_OWN (Some true) (Some "u1") (Some "u2") = false.
Proof. vm_compute. reflexivity. Qed.

Example plain_item_accepted :
  z.success (@CreateOrderItemSchema Samples.host [] Samples.plainItem) = true.
Proof. vm_compute. reflexivity. Qed.

Example custom_price_zero_issues :
  z.issues_of (@CreateOrderItemSchema Samples.host [] Samples.customPriceZero)
  = [customPriceIssue []].
Proof. vm_compute. reflexivity. Qed.

Example same_product_twice_issues :
  z.issues_of (@CreateOrderSchema Samples.host [] Samples.sameProductTwice)
  = [duplicateIssue []].
Proof. vm_compute. reflexivity. Qed.

Example deleted_duplicate_accepted :
  z.success (@UpdateOrderSchema Samples.host [] Samples.deletedDuplicate) = true.
Proof. vm_compute. reflexivity. Qed.

(** ** Permission evaluator *)

Lemma includes_true `{EqDecision A} (arr : list A) (x : A) :
  JS.includes arr x = true <-> x ∈ arr.
Proof. unfold JS.includes. apply bool_decide_eq_true. Qed.

Lemma includes_false `{EqDecision A} (arr : list A) (x : A) :
  JS.includes arr x = false <-> x ∉ arr.
Proof. unfold JS.includes. apply bool_decide_eq_false. Qed.

Lemma every_role_holds_BASIC (role : UserRole) :
  JS.includes (ROLE_PERMISSIONS role) BASIC = true.
Proof. destruct role; vm_compute; reflexivity. Qed.

(** Only SALES holds the two ownership-scoped permissions. *)
Lemma own_scoped_holder (role : UserRole) (p : Permission) :
  p = ORDER_READ_OWN \/ p = VISIT_READ_OWN ->
  JS.includes (ROLE_PERMISSIONS role) p = bool_decide (role = SALES).
Proof. intros [-> | ->]; destruct role; vm_compute; reflexivity. Qed.

(** On an ownership-scoped permission the check is: the role is SALES, the
    user is active, and the two ids are the same value, [undefined]
    included. *)
Lemma hasPermission_own_scoped (role : UserRole) (p : Permission)
    (isActive : option bool) (userId resourceOwnerId : option string) :
  p = ORDER_READ_OWN \/ p = VISIT_READ_OWN ->
  hasPermission role p isActive userId resourceOwnerId = true <->
  role = SALES /\ default true isActive = true /\ userId = resourceOwnerId.
Proof.
  intros Hp. unfold hasPermission.
  rewrite (own_scoped_holder role p Hp).
  assert (bool_decide (p <> BASIC) = true) as ->
    by (apply bool_decide_eq_true; destruct Hp; subst; discriminate).
  assert (bool_decide (p = ORDER_READ_OWN) || bool_decide (p = VISIT_READ_OWN)
          = true) as ->
    by (destruct Hp; subst; reflexivity).
  destruct (default true isActive); cbn.
  - destruct (decide (role = SALES)) as [-> | Hr].
    + rewrite (bool_decide_eq_true_2 (SALES = SALES) eq_refl). cbn.
      rewrite bool_decide_eq_true. intuition.
    + rewrite (bool_decide_eq_false_2 _ Hr). cbn. intuition congruence.
  - intuition congruence.
Qed.

(** When exactly one of the two ids is absent the check denies. *)
Lemma hasPermission_own_one_absent (role : UserRole) (p : Permission)
    (isActive : option bool) (id : string) :
  p = ORDER_READ_OWN \/ p = VISIT_READ_OWN ->
  hasPermission role p isActive (Some id) None = false
  /\ hasPermission role p isActive None (Some id) = false.
Proof.
  intros Hp.
  split; apply not_true_is_false; rewrite (hasPermission_own_scoped _ _ _ _ _ Hp);
    intros (_ & _ & ?); discriminate.
Qed.

(** C1, at the input where the code departs from it: with both ids left
    out, an active SALES user passes the check on [order:read-own] and on
    [visit:read-own], because [undefined === undefined]; the claim asks
    for a denial whenever an id is absent. *)
Theorem hasPermission_own_scoped_both_ids_absent :
  hasPermission SALES ORDER_READ_OWN (Some true) None None = true
  /\ hasPermission SALES VISIT_READ_OWN (Some true) None None = true
  /\ hasPermission SALES ORDER_READ_OWN None None None = true.
Proof. vm_compute. auto. Qed.

(** C3: for every role the baseline permission BASIC is granted whatever the
    activity flag (and whatever the ids); every other permission is denied
    to an inactive user, whatever the role. *)
Theorem hasPermission_baseline_and_inactive :
  (forall (role : UserRole) (isActive : option bool)
          (userId resourceOwnerId : option string),
      hasPermission role BASIC isActive userId resourceOwnerId = true)
  /\ (forall (role : UserRole) (permission : Permission)
             (userId resourceOwnerId : option string),
         permission <> BASIC ->
         hasPermission role permission (Some false) userId resourceOwnerId
         = false).
Proof.
  split.
  - intros role isActive userId resourceOwnerId. unfold hasPermission.
    rewrite every_role_holds_BASIC, andb_false_r. reflexivity.
  - intros role permission userId resourceOwnerId Hp. unfold hasPermission.
    cbn. rewrite (bool_decide_eq_true_2 _ Hp). reflexivity.
Qed.

(** C5: [canEditOrder] holds exactly for ADMIN (any status, any owner) and
    for SALES on a DRAFT order they own; MANAGER and BASIC are always
    denied, and SALES is denied on every order that is not DRAFT. *)
Theorem canEditOrder_spec :
  (forall (role : UserRole) (orderStatus userId orderOwnerId : string),
      canEditOrder role orderStatus userId orderOwnerId = true <->
      role = ADMIN
      \/ (role = SALES /\ orderStatus = "DRAFT" /\ userId = orderOwnerId))
  /\ (forall orderStatus userId orderOwnerId : string,
         canEditOrder MANAGER orderStatus userId orderOwnerId = false
         /\ canEditOrder BASIC_ROLE orderStatus userId orderOwnerId = false)
  /\ (forall orderStatus userId orderOwnerId : string,
         orderStatus <> "DRAFT" ->
         canEditOrder SALES orderStatus userId orderOwnerId = false).
Proof.
  split; [| split].
  - intros role orderStatus userId orderOwnerId. unfold canEditOrder.
    repeat case_bool_decide; simpl; intuition (try discriminate; try congruence).
  - intros. split; reflexivity.
  - intros orderStatus userId orderOwnerId Hs. unfold canEditOrder. cbn.
    rewrite (bool_decide_eq_false_2 _ Hs). reflexivity.
Qed.

(** C10: [validateUserRole] returns its argument when it is one of the four
    role names and "BASIC" otherwise; either way the result names a role.
    (It is a total function to strings: there is no exceptional result.) *)
Theorem validateUserRole_spec (role : string) :
  ((role = "ADMIN" \/ role = "MANAGER" \/ role = "SALES" \/ role = "BASIC")
   /\ validateUserRole role = role
   \/ (role <> "ADMIN" /\ role <> "MANAGER" /\ role <> "SALES"
       /\ role <> "BASIC")
      /\ validateUserRole role = "BASIC")
  /\ exists r : UserRole, validateUserRole role = UserRole_value r.
Proof.
  unfold validateUserRole, validRoles.
  destruct (JS.includes _ role) eqn:Hin.
  - apply includes_true in Hin.
    rewrite !elem_of_cons, elem_of_nil in Hin.
    split; [left; split; [tauto | reflexivity] |].
    destruct Hin as [-> | [-> | [-> | [-> | []]]]];
      [exists ADMIN | exists MANAGER | exists SALES | exists BASIC_ROLE];
      reflexivity.
  - apply includes_false in Hin.
    rewrite !elem_of_cons, elem_of_nil in Hin.
    split; [right; split; [tauto | reflexivity] | exists BASIC_ROLE; reflexivity].
Qed.

(** ** Order state machine *)

Lemma status_lookup (currentStatus : string) :
  statusTransitionMap !! currentStatus =
  if decide (currentStatus = "DRAFT") then Some ["DISETUJUI"; "TIDAK_TERKIRIM"]
  else if decide (currentStatus = "DISETUJUI")
       then Some ["TERKIRIM"; "TIDAK_TERKIRIM"]
  else if decide (currentStatus = "TERKIRIM") then Some []
  else if decide (currentStatus = "TIDAK_TERKIRIM") then Some ["DISETUJUI"]
  else None.
Proof.
  unfold statusTransitionMap.
  repeat (case_decide; [subst; rewrite ?lookup_insert_eq; try reflexivity;
                        repeat (rewrite lookup_insert_ne by discriminate);
                        rewrite ?lookup_insert_eq; reflexivity
                       | rewrite lookup_insert_ne by congruence]).
  apply lookup_empty.
Qed.

Lemma Normal_eq_iff {A} (a b : A) : JS.Normal a = JS.Normal b <-> a = b.
Proof. split; [intros [= ->] | intros ->]; reflexivity. Qed.

(** The call answers [true] exactly on the five edges of the table. *)
Lemma validateStatusTransition_true_iff (currentStatus newStatus : string) :
  validateStatusTransition currentStatus newStatus = JS.Normal true <->
  (currentStatus = "DRAFT" /\ newStatus = "DISETUJUI")
  \/ (currentStatus = "DRAFT" /\ newStatus = "TIDAK_TERKIRIM")
  \/ (currentStatus = "DISETUJUI" /\ newStatus = "TERKIRIM")
  \/ (currentStatus = "DISETUJUI" /\ newStatus = "TIDAK_TERKIRIM")
  \/ (currentStatus = "TIDAK_TERKIRIM" /\ newStatus = "DISETUJUI").
Proof.
  unfold validateStatusTransition, JS.get. rewrite status_lookup.
  repeat case_decide; subst;
    try (rewrite Normal_eq_iff, includes_true, ?elem_of_cons, elem_of_nil;
         intuition (try discriminate; try congruence)).
  destruct (JS.includes JS.Object_prototype currentStatus);
    intuition (try discriminate; try congruence).
Qed.

(** A current status that is neither a key of the table nor a property of
    [Object.prototype] is answered [false]. *)
Lemma validateStatusTransition_unknown (currentStatus newStatus : string) :
  currentStatus ∉ ["DRAFT"; "DISETUJUI"; "TERKIRIM"; "TIDAK_TERKIRIM"] ->
  currentStatus ∉ JS.Object_prototype ->
  validateStatusTransition currentStatus newStatus = JS.Normal false.
Proof.
  intros Hown Hproto.
  rewrite !not_elem_of_cons in Hown. destruct Hown as (? & ? & ? & ? & _).
  unfold validateStatusTransition, JS.get. rewrite status_lookup.
  repeat (case_decide; [congruence |]).
  apply includes_false in Hproto. rewrite Hproto. reflexivity.
Qed.

(** The call never throws on the four statuses of the enumeration. *)
Lemma validateStatusTransition_enum (currentStatus newStatus : OrderStatus) :
  validateStatusTransition (OrderStatus_value currentStatus)
    (OrderStatus_value newStatus)
  = JS.Normal
      match currentStatus, newStatus with
      | DRAFT, DISETUJUI | DRAFT, TIDAK_TERKIRIM
      | DISETUJUI, TERKIRIM | DISETUJUI, TIDAK_TERKIRIM
      | TIDAK_TERKIRIM, DISETUJUI => true
      | _, _ => false
      end.
Proof. destruct currentStatus, newStatus; vm_compute; reflexivity. Qed.

(** C4, at the input where the code departs from it: the five edges are
    accepted, DRAFT -> TERKIRIM and every edge out of TERKIRIM are refused,
    an unknown status such as "SHIPPED" is answered [false]; but a current
    status naming a property of [Object.prototype], here "constructor", is
    not one of the four statuses and the call throws a [TypeError] instead
    of answering [false]. *)
Theorem validateStatusTransition_inherited_key_throws :
  validateStatusTransition "constructor" "DISETUJUI"
  = JS.Throw (JS.TypeError
      "statusTransitionMap[currentStatus]?.includes is not a function")
  /\ validateStatusTransition "toString" "DRAFT"
     = JS.Throw (JS.TypeError
         "statusTransitionMap[currentStatus]?.includes is not a function")
  /\ validateStatusTransition "SHIPPED" "DISETUJUI" = JS.Normal false
  /\ validateStatusTransition "DRAFT" "TERKIRIM" = JS.Normal false
  /\ validateStatusTransition "TIDAK_TERKIRIM" "DISETUJUI" = JS.Normal true.
Proof. vm_compute. auto. Qed.

(** ** Order number *)

Lemma append_assoc (s1 s2 s3 : string) :
  (s1 +:+ s2) +:+ s3 = s1 +:+ (s2 +:+ s3).
Proof.
  induction s1 as [| c s1 IH]; [reflexivity |].
  change (String c ((s1 +:+ s2) +:+ s3) = String c (s1 +:+ (s2 +:+ s3))).
  rewrite IH. reflexivity.
Qed.

Lemma renderedb_true (width : nat) (z : Z) (s : string) :
  renderedb width z s = true -> rendered width z s.
Proof.
  unfold renderedb, rendered. rewrite !andb_true_iff.
  intros [[Hlen Hdigits] Hvalue].
  apply Nat.eqb_eq in Hlen. apply Z.eqb_eq in Hvalue. auto.
Qed.

(** A property checked on every integer of a range holds on the range. *)
Lemma checked_on_range (f : Z -> bool) (lo : Z) (n : Z) :
  forallb f (seqZ lo n) = true ->
  forall z : Z, lo <= z < lo + n -> f z = true.
Proof.
  intros Hall z Hz. rewrite forallb_forall in Hall. apply Hall.
  apply list_elem_of_In, elem_of_seqZ. lia.
Qed.

Lemma two_digits (z : Z) :
  1 <= z <= 31 -> rendered 2 z (JS.padStart (JS.String_int z) 2 "0").
Proof.
  intros Hz. apply renderedb_true.
  apply (checked_on_range
           (fun z => renderedb 2 z (JS.padStart (JS.String_int z) 2 "0")) 1 31);
    [vm_compute; reflexivity | lia].
Qed.

Lemma three_digits (z : Z) :
  1 <= z <= 999 -> rendered 3 z (JS.padStart (JS.String_int z) 3 "0").
Proof.
  intros Hz. apply renderedb_true.
  apply (checked_on_range
           (fun z => renderedb 3 z (JS.padStart (JS.String_int z) 3 "0")) 1 999);
    [vm_compute; reflexivity | lia].
Qed.

Lemma four_digit_year (z : Z) :
  1000 <= z <= 9999 -> rendered 4 z (JS.String_int z).
Proof.
  intros Hz. apply renderedb_true.
  apply (checked_on_range (fun z => renderedb 4 z (JS.String_int z)) 1000 9000);
    [vm_compute; reflexivity | lia].
Qed.

(** C9, as amended: on a date whose year has four digits, and for a
    sequence number from 1 to 999, the order number is "PO-", the year, the
    month and the day in two digits each, a hyphen, and the sequence number
    in exactly three digits; leaving the sequence number out counts as 1. *)
Theorem generateOrderNumber_format (now : JS.Date) (sequence : Z) :
  1000 <= JS.getFullYear now <= 9999 ->
  0 <= JS.getMonth now <= 11 ->
  1 <= JS.getDate now <= 31 ->
  1 <= sequence <= 999 ->
  (exists yyyy mm dd nnn : string,
      generateOrderNumber now (Some sequence)
      = "PO-" +:+ yyyy +:+ mm +:+ dd +:+ "-" +:+ nnn
      /\ rendered 4 (JS.getFullYear now) yyyy
      /\ rendered 2 (JS.getMonth now + 1) mm
      /\ rendered 2 (JS.getDate now) dd
      /\ rendered 3 sequence nnn)
  /\ generateOrderNumber now None = generateOrderNumber now (Some 1).
Proof.
  intros Hyear Hmonth Hday Hseq. split; [| reflexivity].
  exists (JS.String_int (JS.getFullYear now)),
         (JS.padStart (JS.String_int (JS.getMonth now + 1)) 2 "0"),
         (JS.padStart (JS.String_int (JS.getDate now)) 2 "0"),
         (JS.padStart (JS.String_int sequence) 3 "0").
  split; [| split; [| split; [| split]]].
  - unfold generateOrderNumber. cbn [default].
    rewrite !append_assoc. reflexivity.
  - apply four_digit_year. lia.
  - apply two_digits. lia.
  - apply two_digits. lia.
  - apply three_digits. lia.
Qed.

Lemma generateOrderNumber_format_witness :
  (1000 <= JS.getFullYear Samples.christmas <= 9999
   /\ 0 <= JS.getMonth Samples.christmas <= 11
   /\ 1 <= JS.getDate Samples.christmas <= 31
   /\ 1 <= 7 <= 999)
  /\ (exists yyyy mm dd nnn : string,
         generateOrderNumber Samples.christmas (Some 7)
         = "PO-" +:+ yyyy +:+ mm +:+ dd +:+ "-" +:+ nnn
         /\ rendered 4 (JS.getFullYear Samples.christmas) yyyy
         /\ rendered 2 (JS.getMonth Samples.christmas + 1) mm
         /\ rendered 2 (JS.getDate Samples.christmas) dd
         /\ rendered 3 7 nnn)
     /\ generateOrderNumber Samples.christmas None
        = generateOrderNumber Samples.christmas (Some 1).
Proof.
  split; [cbn; lia |].
  apply (generateOrderNumber_format Samples.christmas 7); cbn; lia.
Defined.

(** C9 as stated fails from the thousandth order of a day on: the sequence
    number 1000 is written with four digits. *)
Lemma generateOrderNumber_sequence_1000 :
  generateOrderNumber Samples.christmas (Some 1000) = "PO-20241225-1000"
  /\ ~ (exists nnn : string,
          generateOrderNumber Samples.christmas (Some 1000)
          = "PO-20241225-" +:+ nnn
          /\ String.length nnn = 3%nat).
Proof.
  split; [vm_compute; reflexivity |].
  intros (nnn & Heq & Hlen).
  assert (generateOrderNumber Samples.christmas (Some 1000)
          = "PO-20241225-" +:+ "1000") as Hrun by (vm_compute; reflexivity).
  rewrite Hrun in Heq. apply (inj (String.append _)) in Heq. subst nnn.
  discriminate Hlen.
Qed.

(** ** Parsing: what a result holds and which issues it can carry *)

Lemma map_Some {A B} (f : A -> B) (r : z.result A) issues (b : B) :
  f <$> r = z.Returned issues (Some b) ->
  exists a, r = z.Returned issues (Some a) /\ b = f a.
Proof.
  destruct r as [e | issues' [a |]]; cbn; intros [= <- <-] || intros [=].
  eauto.
Qed.

Lemma ap_Some {A B} (rf : z.result (A -> B)) (ra : z.result A) issues (b : B) :
  rf <*> ra = z.Returned issues (Some b) ->
  exists issues1 f issues2 a,
    rf = z.Returned issues1 (Some f) /\ ra = z.Returned issues2 (Some a)
    /\ issues = issues1 ++ issues2 /\ b = f a.
Proof.
  destruct rf as [e | issues1 [f |]], ra as [e' | issues2 [a |]]; cbn;
    intros [= <- <-] || intros [=].
  eauto 8.
Qed.

Lemma every_issue_OK {A} (Q : z.issue -> Prop) (v : A) :
  every_issue Q (z.OK v).
Proof. constructor. Qed.

Lemma every_issue_INVALID {A} (Q : z.issue -> Prop) (i : z.issue) :
  Q i -> every_issue Q (@z.INVALID A i).
Proof. intros Hi. repeat constructor. exact Hi. Qed.

Lemma every_issue_map {A B} (Q : z.issue -> Prop) (f : A -> B) r :
  every_issue Q r -> every_issue Q (f <$> r).
Proof. destruct r; exact id. Qed.

Lemma every_issue_ap {A B} (Q : z.issue -> Prop) (rf : z.result (A -> B)) ra :
  every_issue Q rf -> every_issue Q ra -> every_issue Q (rf <*> ra).
Proof.
  destruct rf, ra; cbn; try (intros; constructor).
  unfold every_issue. cbn. intros. apply Forall_app. auto.
Qed.

Lemma every_issue_mono {A} (Q Q' : z.issue -> Prop) (r : z.result A) :
  (forall i, Q i -> Q' i) -> every_issue Q r -> every_issue Q' r.
Proof. intros HQ Hr. exact (Forall_impl _ _ _ Hr HQ). Qed.

Lemma every_issue_when_not (Q : z.issue -> Prop) ok i :
  Q i -> Forall Q (z.when_not ok i).
Proof. destruct ok; repeat constructor; assumption. Qed.

Section parsing.
Context `{z.Host}.

(** The primitive schemas raise issues at the value's own path only, and
    none of them with the code [custom]. *)
Definition primitive (Q : z.issue -> Prop) (ctx : list z.key) : Prop :=
  forall c m, c <> z.custom -> Q (z.Issue c ctx m).

Lemma every_issue_string_checks Q ctx checks data issues :
  primitive Q ctx -> Forall Q issues ->
  every_issue Q (z.string_checks ctx checks data issues).
Proof.
  intros HQ. revert data issues.
  induction checks as [| [m | n m |] checks IH]; intros data issues Hissues;
    cbn; [exact Hissues | apply IH | apply IH | apply IH; exact Hissues];
    (apply Forall_app; split; [exact Hissues |]);
    apply every_issue_when_not, HQ; discriminate.
Qed.

Lemma every_issue_string Q ctx checks data :
  primitive Q ctx -> every_issue Q (z.string checks ctx data).
Proof. intros HQ. apply every_issue_string_checks; [exact HQ | constructor]. Qed.

Lemma every_issue_number Q ctx checks data :
  primitive Q ctx -> every_issue Q (z.number checks ctx data).
Proof.
  intros HQ. unfold z.number. destruct (JS.isNaN data).
  - apply every_issue_INVALID, HQ. discriminate.
  - unfold every_issue. cbn. apply Forall_concat, Forall_fmap, Forall_forall.
    intros [| m] _; cbn; apply every_issue_when_not, HQ; discriminate.
Qed.

Lemma every_issue_date Q ctx data :
  primitive Q ctx -> every_issue Q (z.date ctx data).
Proof.
  intros HQ. unfold z.date. destruct (JS.isNaN data).
  - apply every_issue_INVALID, HQ. discriminate.
  - apply every_issue_OK.
Qed.

Lemma every_issue_optional {I O} Q (s : z.schema I O) ctx data :
  (forall x, every_issue Q (s ctx x)) -> every_issue Q (z.optional s ctx data).
Proof.
  intros Hs. destruct data; cbn;
    [apply every_issue_map, Hs | apply every_issue_OK].
Qed.

Lemma every_issue_nullable {I O} Q (s : z.schema I O) ctx data :
  (forall x, every_issue Q (s ctx x)) -> every_issue Q (z.nullable s ctx data).
Proof.
  intros Hs. destruct data; cbn;
    [apply every_issue_OK | apply every_issue_map, Hs].
Qed.

Lemma every_issue_default {I O} Q (d : I) (s : z.schema I O) ctx data :
  (forall x, every_issue Q (s ctx x)) -> every_issue Q (z.default d s ctx data).
Proof. intros Hs. destruct data; cbn; apply Hs. Qed.

Lemma every_issue_union {I1 O1 I2 O2} Q (a : z.schema I1 O1)
    (b : z.schema I2 O2) ctx data :
  primitive Q ctx ->
  (forall x, every_issue Q (a ctx x)) -> (forall y, every_issue Q (b ctx y)) ->
  every_issue Q (z.union a b ctx data).
Proof.
  intros HQ Ha Hb. unfold z.union.
  assert (every_issue Q
            match data with
            | inl x => inl <$> a ctx x
            | inr y => inr <$> b ctx y
            end) as Hr
    by (destruct data; apply every_issue_map; auto).
  destruct (match data with inl x => _ | inr y => _ end) as [e | issues [v |]];
    [exact Hr | exact Hr |].
  apply every_issue_INVALID, HQ. discriminate.
Qed.

Lemma every_issue_transform {I A B} Q (f : A -> JS.completion B)
    (s : z.schema I A) ctx data :
  every_issue Q (s ctx data) -> every_issue Q (z.transform f s ctx data).
Proof.
  unfold z.transform. destruct (s ctx data) as [e | [| i issues] [v |]];
    try exact id.
  intros _. destruct (f v); constructor.
Qed.

Lemma every_issue_refine {I A} Q (check : A -> JS.completion bool) message p
    (s : z.schema I A) ctx data :
  Q (z.Issue z.custom (ctx ++ p) (Some message)) ->
  every_issue Q (s ctx data) ->
  every_issue Q (z.refine check message p s ctx data).
Proof.
  intros Hi. unfold z.refine.
  destruct (s ctx data) as [e | issues [v |]]; try exact id.
  intros Hs. destruct (check v) as [ok | e]; [| constructor].
  apply Forall_app. split; [exact Hs | apply every_issue_when_not, Hi].
Qed.

Lemma every_issue_array_items {I O} (Q : nat -> z.issue -> Prop)
    (s : z.schema I O) ctx data :
  forall i,
    (forall n x, (i <= n)%nat -> every_issue (Q n) (s (ctx ++ [z.Index n]) x)) ->
    every_issue (fun issue => exists n, Q n issue) (z.array_items s ctx i data).
Proof.
  induction data as [| x data IH]; intros i Hs; cbn.
  - apply every_issue_OK.
  - apply every_issue_ap; [apply every_issue_map |].
    + eapply every_issue_mono; [| apply (Hs i x); lia]. eauto.
    + apply IH. intros n y Hn. apply Hs. lia.
Qed.

Lemma every_issue_array {I O} (Q : z.issue -> Prop) (s : z.schema I O)
    minLength message ctx data :
  primitive Q ctx ->
  (forall n x, every_issue Q (s (ctx ++ [z.Index n]) x)) ->
  every_issue Q (z.array s minLength message ctx data).
Proof.
  intros HQ Hs. unfold z.array.
  pose proof (every_issue_array_items (fun _ => Q) s ctx data 0%nat
                (fun n x _ => Hs n x)) as Hitems.
  destruct (z.array_items s ctx 0 data) as [e | issues v]; [constructor |].
  apply Forall_app. split.
  - apply every_issue_when_not, HQ. discriminate.
  - eapply Forall_impl; [exact Hitems |]. cbn. intros i [_ Hi]. exact Hi.
Qed.

Lemma every_issue_field {I O} Q (s : z.schema I O) ctx name data :
  (forall x, every_issue Q (s (ctx ++ [z.Key name]) x)) ->
  every_issue Q (z.field ctx name s data).
Proof. intros Hs. apply Hs. Qed.

End parsing.

(** ** Numbers and strings *)

Lemma compare_dec_antisym (m1 e1 m2 e2 : Z) :
  JS.compare_dec m2 e2 m1 e1 = CompOpp (JS.compare_dec m1 e1 m2 e2).
Proof.
  unfold JS.compare_dec. cbv zeta. rewrite (Z.min_comm e2 e1).
  apply Z.compare_antisym.
Qed.

Lemma compare_antisym (x y : JS.number) :
  JS.compare y x = CompOpp <$> JS.compare x y.
Proof.
  destruct x as [| [] | m1 e1], y as [| [] | m2 e2]; cbn; try reflexivity.
  f_equal. apply compare_dec_antisym.
Qed.

(** [x < y] rules out [y <= x]. *)
Lemma lt_not_le (x y : JS.number) : JS.lt x y = true -> JS.le y x = false.
Proof.
  unfold JS.lt, JS.le. rewrite (compare_antisym x y).
  destruct (JS.compare x y) as [[] |]; cbn; congruence.
Qed.

(** On numbers (not NaN), [x <= y] fails exactly when [x > y]. *)
Lemma not_le_gt (x y : JS.number) :
  JS.isNaN x = false -> JS.isNaN y = false ->
  JS.le x y = negb (JS.gt x y).
Proof.
  intros Hx Hy. unfold JS.gt, JS.lt, JS.le. rewrite (compare_antisym x y).
  destruct x as [| [] | m1 e1], y as [| [] | m2 e2]; try discriminate; cbn;
    try reflexivity.
  destruct (JS.compare_dec m1 e1 m2 e2); reflexivity.
Qed.

Lemma dropWhile_head {A} (f : A -> bool) (l : list A) :
  match JS.dropWhile f l with
  | [] => True
  | x :: _ => f x = false
  end.
Proof.
  induction l as [| x l IH]; cbn; [exact I |].
  destruct (f x) eqn:Hx; [exact IH | exact Hx].
Qed.

Lemma dropWhile_fixed {A} (f : A -> bool) (l : list A) :
  match l with [] => True | x :: _ => f x = false end ->
  JS.dropWhile f l = l.
Proof. destruct l as [| x l]; cbn; [reflexivity | intros ->; reflexivity]. Qed.

Lemma dropWhile_suffix {A} (f : A -> bool) (l : list A) :
  exists dropped, l = dropped ++ JS.dropWhile f l.
Proof.
  induction l as [| x l [dropped IH]]; cbn; [exists []; reflexivity |].
  destruct (f x); [| exists []; reflexivity].
  exists (x :: dropped). cbn. f_equal. exact IH.
Qed.

(** Trimming twice is trimming once. *)
Lemma trim_list_idempotent (l : list ascii) :
  JS.trim_list (JS.trim_list l) = JS.trim_list l.
Proof.
  unfold JS.trim_list.
  set (a := JS.dropWhile JS.is_white_space l).
  set (b := JS.dropWhile JS.is_white_space (rev a)).
  assert (JS.dropWhile JS.is_white_space (rev b) = rev b) as ->.
  { apply dropWhile_fixed.
    destruct (dropWhile_suffix JS.is_white_space (rev a)) as [dropped Hrev].
    fold b in Hrev. apply (f_equal (@rev ascii)) in Hrev.
    rewrite rev_involutive, rev_app_distr in Hrev.
    pose proof (dropWhile_head JS.is_white_space l) as Ha. fold a in Ha.
    destruct (rev b) as [| x r]; [exact I |].
    rewrite Hrev in Ha. exact Ha. }
  rewrite rev_involutive. f_equal.
  apply dropWhile_fixed. apply dropWhile_head.
Qed.

Lemma trim_idempotent (s : string) : JS.trim (JS.trim s) = JS.trim s.
Proof.
  unfold JS.trim. rewrite list_ascii_of_string_of_list_ascii.
  rewrite trim_list_idempotent. reflexivity.
Qed.

(** [new Set(ids).size === ids.length] says that no id occurs twice. *)
Lemma size_list_to_set_le (ids : list string) :
  (size (list_to_set ids : gset string) <= length ids)%nat.
Proof.
  induction ids as [| x ids IH]; cbn; [rewrite size_empty; lia |].
  rewrite size_union_alt, size_singleton.
  assert (size ((list_to_set ids : gset string) ∖ {[x]})
          <= size (list_to_set ids : gset string))%nat
    by (apply subseteq_size, subseteq_difference_l; reflexivity).
  lia.
Qed.

Lemma allDistinct_NoDup (ids : list string) :
  allDistinct ids = true <-> NoDup ids.
Proof.
  unfold allDistinct. rewrite Nat.eqb_eq. split.
  - induction ids as [| x ids IH]; [constructor |].
    cbn. intros Hsize.
    destruct (decide (x ∈ ids)) as [Hin | Hout].
    + assert ({[x]} ∪ list_to_set ids = (list_to_set ids : gset string)) as Heq
        by (apply subseteq_union_1_L, singleton_subseteq_l,
              elem_of_list_to_set; exact Hin).
      rewrite Heq in Hsize. pose proof (size_list_to_set_le ids). lia.
    + constructor; [exact Hout |]. apply IH.
      rewrite size_union in Hsize
        by (apply disjoint_singleton_l; rewrite elem_of_list_to_set; exact Hout).
      rewrite size_singleton in Hsize. lia.
  - apply size_list_to_set.
Qed.

(** ** The schemas: what they read and which issues they raise *)

Section schema_facts.
Context `{z.Host}.

Lemma decimalSchema_Some maxDigits decimalPlaces message ctx x issues v :
  decimalSchema maxDigits decimalPlaces message ctx x
  = z.Returned issues (Some v) ->
  v = decimal_value x /\ JS.isNaN v = false.
Proof.
  unfold decimalSchema, z.refine, z.transform, z.union, z.string, z.number.
  destruct x as [s | n]; cbn.
  - destruct (JS.isNaN (z.parseFloat s)) eqn:Hnan; cbn; [discriminate |].
    intros [= _ <-]. auto.
  - destruct (JS.isNaN n) eqn:Hnan; cbn; [discriminate |].
    intros [= _ <-]. auto.
Qed.

Lemma decimalSchema_numeric maxDigits decimalPlaces message ctx x :
  JS.isNaN (decimal_value x) = false ->
  exists issues,
    decimalSchema maxDigits decimalPlaces message ctx x
    = z.Returned issues (Some (decimal_value x)).
Proof.
  unfold decimalSchema, z.refine, z.transform, z.union, z.string, z.number.
  destruct x as [s | n]; cbn; intros ->; cbn; eauto.
Qed.

(** A decimal property that does not read as a number: the string makes the
    transform throw, the NaN aborts the union. *)
Lemma decimalSchema_not_numeric maxDigits decimalPlaces message ctx x :
  JS.isNaN (decimal_value x) = true ->
  decimalSchema maxDigits decimalPlaces message ctx x
  = match x with
    | inl _ => z.Threw (JS.Error "Format angka tidak valid")
    | inr _ => z.INVALID (z.Issue z.invalid_union ctx None)
    end.
Proof.
  unfold decimalSchema, z.refine, z.transform, z.union, z.string, z.number.
  destruct x as [s | n]; cbn; intros ->; reflexivity.
Qed.

Lemma every_issue_decimalSchema Q maxDigits decimalPlaces message ctx x :
  primitive Q ctx ->
  Q (z.Issue z.custom ctx (Some (or_else message "Nilai harus non-negatif"))) ->
  Q (z.Issue z.custom ctx
       (Some ("Nilai melebihi " +:+ JS.String_int maxDigits +:+ " digit dengan "
              +:+ JS.String_int decimalPlaces +:+ " desimal"))) ->
  every_issue Q (decimalSchema maxDigits decimalPlaces message ctx x).
Proof.
  intros HQ Hneg Hdigits. unfold decimalSchema.
  apply every_issue_refine; [rewrite app_nil_r; exact Hdigits |].
  apply every_issue_refine; [rewrite app_nil_r; exact Hneg |].
  apply every_issue_transform, every_issue_union; [exact HQ | |];
    intros; [apply every_issue_string | apply every_issue_number]; exact HQ.
Qed.

Lemma refine_pure_Some {I A} (f : A -> bool) message p (s : z.schema I A)
    ctx x issues v :
  s ctx x = z.Returned issues (Some v) ->
  z.refine (fun data => JS.Normal (f data)) message p s ctx x
  = z.Returned
      (issues ++ z.when_not (f v) (z.Issue z.custom (ctx ++ p) (Some message)))
      (Some v).
Proof. unfold z.refine. intros ->. reflexivity. Qed.

Lemma refine_Threw {I A} (check : A -> JS.completion bool) message p
    (s : z.schema I A) ctx x e :
  s ctx x = z.Threw e -> z.refine check message p s ctx x = z.Threw e.
Proof. unfold z.refine. intros ->. reflexivity. Qed.

Lemma refine_aborted {I A} (check : A -> JS.completion bool) message p
    (s : z.schema I A) ctx x issues :
  s ctx x = z.Returned issues None ->
  z.refine check message p s ctx x = z.Returned issues None.
Proof. unfold z.refine. intros ->. reflexivity. Qed.

End schema_facts.

Ltac object_inv H :=
  repeat
    match type of H with
    | z.ap _ _ = z.Returned _ (Some _) =>
        let Hfield := fresh "Hfield" in
        apply ap_Some in H as (? & ? & ? & ? & H & Hfield & -> & ->)
    | fmap _ _ = z.Returned _ (Some _) => apply map_Some in H as (? & H & ->)
    end.

Section item_facts.
Context `{z.Host}.

Lemma default_run {I O} (d : I) (s : z.schema I O) ctx x :
  z.default d s ctx x = s ctx (default d x).
Proof. destruct x; reflexivity. Qed.

Lemma optional_nullable_Some {I O} (s : z.schema I O) (f : I -> O)
    (P : I -> Prop) ctx x issues v :
  (forall a issues' b, s ctx a = z.Returned issues' (Some b) -> b = f a /\ P a) ->
  z.optional (z.nullable s) ctx x = z.Returned issues (Some v) ->
  v = nullable_map f <$> x
  /\ match x with Some (JS.value a) => P a | _ => True end.
Proof.
  intros Hs. destruct x as [[| a] |]; cbn.
  - intros [= _ <-]. auto.
  - intros Hrun. apply map_Some in Hrun as (? & Hrun & ->).
    apply map_Some in Hrun as (b & Hrun & ->).
    apply Hs in Hrun as [-> HP]. auto.
  - intros [= _ <-]. auto.
Qed.

Lemma string_trim_Some ctx s issues v :
  z.string [z.trim] ctx s = z.Returned issues (Some v) -> v = JS.trim s /\ True.
Proof. cbn. intros [= _ <-]. auto. Qed.

Lemma enum_Some {E} ctx (x : E) issues v :
  @z.enum E ctx x = z.Returned issues (Some v) -> v = x /\ True.
Proof. cbn. intros [= _ <-]. auto. Qed.

Lemma nullable_map_id {A} (x : option (JS.nullable A)) :
  nullable_map (fun a => a) <$> x = x.
Proof. destruct x as [[| a] |]; reflexivity. Qed.

(** What [createOrderItemBaseSchema] reads, when it returns an item. *)
Lemma item_base_Some ctx item issues data :
  createOrderItemBaseSchema ctx item = z.Returned issues (Some data) ->
  data = item_data item /\ readable item.
Proof.
  unfold createOrderItemBaseSchema, z.field. intros Hrun. object_inv Hrun.
  unfold commonValidations_id in Hrun. cbn in Hrun.
  injection Hrun as _ <-.
  (* quantity *)
  unfold z.number in Hfield5.
  destruct (JS.isNaN (CreateItem.quantity' item)) eqn:Hquantity;
    [discriminate |]. injection Hfield5 as _ <-.
  (* priceType *)
  rewrite default_run in Hfield4. apply enum_Some in Hfield4 as [-> _].
  (* customPrice *)
  apply (optional_nullable_Some _ decimal_value
           (fun a => JS.isNaN (decimal_value a) = false)) in Hfield3
    as [-> HcustomPrice].
  2:{ intros a issues' b Ha. apply decimalSchema_Some in Ha as [-> Ha].
      auto. }
  (* customPriceReason, itemDiscountType *)
  apply (optional_nullable_Some _ JS.trim (fun _ => True)) in Hfield2
    as [-> _]; [| intros ? ? ?; apply string_trim_Some].
  apply (optional_nullable_Some _ (fun a => a) (fun _ => True)) in Hfield1
    as [-> _]; [| intros ? ? ?; apply enum_Some].
  rewrite nullable_map_id.
  (* itemDiscountValue, itemDiscountDescription *)
  rewrite default_run in Hfield0.
  apply decimalSchema_Some in Hfield0 as [-> HdiscountValue].
  apply (optional_nullable_Some _ JS.trim (fun _ => True)) in Hfield
    as [-> _]; [| intros ? ? ?; apply string_trim_Some].
  split; [reflexivity |]. unfold readable. auto.
Qed.

End item_facts.

Ltac schema_issues :=
  first
    [ apply every_issue_OK
    | apply every_issue_string
    | apply every_issue_number
    | apply every_issue_date
    | apply every_issue_optional; intros; schema_issues
    | apply every_issue_nullable; intros; schema_issues
    | apply every_issue_default; intros; schema_issues
    | apply every_issue_decimalSchema ].

Section item_issues.
Context `{z.Host}.

Lemma ap_Returned {A B} (rf : z.result (A -> B)) (ra : z.result A)
    issues1 f issues2 a :
  rf = z.Returned issues1 (Some f) -> ra = z.Returned issues2 (Some a) ->
  rf <*> ra = z.Returned (issues1 ++ issues2) (Some (f a)).
Proof. intros -> ->. reflexivity. Qed.

(** A readable request item passes the base schema, issues aside. *)
Lemma item_base_readable ctx item :
  readable item ->
  exists issues,
    createOrderItemBaseSchema ctx item = z.Returned issues (Some (item_data item)).
Proof.
  intros (Hquantity & HcustomPrice & HdiscountValue).
  unfold createOrderItemBaseSchema, z.field.
  assert (exists issues,
             z.optional (z.nullable
               (decimalSchema 8 2 (Some "Harga kustom harus valid")))
               (ctx ++ [z.Key "customPrice"]) (CreateItem.customPrice' item)
             = z.Returned issues
                 (Some (nullable_map decimal_value
                          <$> CreateItem.customPrice' item)))
    as [issues1 ->].
  { destruct (CreateItem.customPrice' item) as [[| x] |]; cbn; eauto.
    destruct (decimalSchema_numeric 8 2 (Some "Harga kustom harus valid")
                (ctx ++ [z.Key "customPrice"]) x HcustomPrice) as [issues ->].
    cbn. eauto. }
  rewrite !default_run.
  destruct (decimalSchema_numeric 10 2 (Some "Nilai diskon harus valid")
              (ctx ++ [z.Key "itemDiscountValue"]) _ HdiscountValue)
    as [issues2 ->].
  unfold z.number. rewrite Hquantity.
  unfold commonValidations_id, item_data.
  destruct (CreateItem.customPriceReason' item) as [[| reason] |],
           (CreateItem.itemDiscountType' item) as [[| discountType] |],
           (CreateItem.itemDiscountDescription' item) as [[| description] |];
    cbn; eauto.
Qed.

Lemma item_base_parses ctx item :
  parses (createOrderItemBaseSchema ctx item) <-> readable item.
Proof.
  split.
  - intros (issues & data & Hrun). apply item_base_Some in Hrun. tauto.
  - intros Hreadable.
    destruct (item_base_readable ctx item Hreadable) as [issues Hrun].
    exists issues, (item_data item). exact Hrun.
Qed.

(** The issues of [createOrderItemBaseSchema]: a primitive issue at one of
    its properties, or a [custom] one of [decimalSchema]. *)
Lemma every_issue_item_base Q ctx item :
  (forall name, primitive Q (ctx ++ [z.Key name])) ->
  (forall name m, m ∈ decimal_messages ->
     Q (z.Issue z.custom (ctx ++ [z.Key name]) (Some m))) ->
  every_issue Q (createOrderItemBaseSchema ctx item).
Proof.
  intros Hprimitive Hdecimal. unfold createOrderItemBaseSchema.
  repeat apply every_issue_ap; try apply every_issue_map;
    apply every_issue_field; intros; unfold commonValidations_id;
    schema_issues; try exact (Hprimitive _);
    apply Hdecimal; apply (bool_decide_unpack _); vm_compute; exact I.
Qed.

End item_issues.

Lemma elem_of_when_not (ok : bool) (i j : z.issue) :
  i ∈ z.when_not ok j <-> ok = false /\ i = j.
Proof.
  destruct ok; cbn.
  - rewrite elem_of_nil. intuition discriminate.
  - rewrite list_elem_of_singleton. intuition.
Qed.

Lemma primitive_not_custom M ctx : primitive (not_custom M) ctx.
Proof. intros c m Hc Hcustom. cbn in Hcustom. contradiction. Qed.

Lemma primitive_below ctx ctx' : ctx `prefix_of` ctx' -> primitive (below ctx) ctx'.
Proof. intros Hprefix c m _. exact Hprefix. Qed.

Lemma prefix_of_app_key (ctx : list z.key) (k : z.key) : ctx `prefix_of` ctx ++ [k].
Proof. apply prefix_app_r. reflexivity. Qed.

Lemma customPriceMessage_fresh : customPriceMessage ∉ decimal_messages.
Proof. apply (bool_decide_unpack _). vm_compute. exact I. Qed.

Lemma customPriceReasonMessage_fresh :
  customPriceReasonMessage ∉ decimal_messages.
Proof. apply (bool_decide_unpack _). vm_compute. exact I. Qed.

Lemma percentageMessage_fresh : percentageMessage ∉ decimal_messages.
Proof. apply (bool_decide_unpack _). vm_compute. exact I. Qed.

Lemma duplicateMessage_fresh : duplicateMessage ∉ decimal_messages.
Proof. apply (bool_decide_unpack _). vm_compute. exact I. Qed.

Section item_refinements.
Context `{z.Host}.

Lemma item_checks_read item :
  customPriceGiven (item_data item)
  = negb (isCustom item) || givesCustomPrice item
  /\ customPriceReasonGiven (item_data item)
     = negb (isCustom item) || givesReason item
  /\ (readable item ->
      itemPercentageBounded (item_data item)
      = negb (percentageAbove100 (CreateItem.itemDiscountType' item)
                (CreateItem.itemDiscountValue' item))).
Proof.
  unfold customPriceGiven, customPriceReasonGiven, itemPercentageBounded,
    isCustom, givesCustomPrice, givesReason, percentageAbove100, item_data.
  cbn [CreateItem.priceType CreateItem.customPrice CreateItem.customPriceReason
       CreateItem.itemDiscountType CreateItem.itemDiscountValue].
  assert (bool_decide (default MODERN (CreateItem.priceType' item) = CUSTOM)
          = bool_decide (CreateItem.priceType' item = Some CUSTOM)) as ->.
  { destruct (CreateItem.priceType' item) as [[] |]; reflexivity. }
  split; [| split].
  - destruct (CreateItem.customPrice' item) as [[| x] |]; reflexivity.
  - destruct (CreateItem.customPriceReason' item) as [[| reason] |];
      cbn; rewrite ?trim_idempotent; reflexivity.
  - intros (_ & _ & Hvalue).
    destruct (bool_decide (CreateItem.itemDiscountType' item
                           = Some (JS.value PERCENTAGE))); [| reflexivity].
    cbn. rewrite not_le_gt by (exact Hvalue || reflexivity).
    destruct (CreateItem.itemDiscountValue' item); reflexivity.
Qed.

Section refined.
Context {I A : Type} (s : z.schema I A) (proj : A -> CreateItem.data)
        (inp : I -> CreateItem.input).
Hypothesis s_reads :
  forall ctx x issues data,
    s ctx x = z.Returned issues (Some data) ->
    proj data = item_data (inp x) /\ readable (inp x).
Hypothesis s_issues :
  forall M ctx x, M ∉ decimal_messages -> every_issue (not_custom M) (s ctx x).

Lemma itemRefinements_Some ctx x issues data :
  s ctx x = z.Returned issues (Some data) ->
  itemRefinements proj s ctx x
  = z.Returned
      (((issues
         ++ z.when_not (customPriceGiven (proj data)) (customPriceIssue ctx))
        ++ z.when_not (customPriceReasonGiven (proj data))
             (customPriceReasonIssue ctx))
       ++ z.when_not (itemPercentageBounded (proj data))
            (itemPercentageIssue ctx))
      (Some data).
Proof.
  intros Hrun. unfold itemRefinements.
  apply (refine_pure_Some (fun data => itemPercentageBounded (proj data))).
  apply (refine_pure_Some (fun data => customPriceReasonGiven (proj data))).
  apply (refine_pure_Some (fun data => customPriceGiven (proj data))).
  exact Hrun.
Qed.

Lemma itemRefinements_parses ctx x :
  parses (itemRefinements proj s ctx x) <-> parses (s ctx x).
Proof.
  destruct (s ctx x) as [e | issues [data |]] eqn:Hrun.
  - unfold itemRefinements.
    erewrite refine_Threw; [reflexivity |].
    erewrite refine_Threw; [reflexivity |].
    erewrite refine_Threw; [reflexivity | exact Hrun].
  - rewrite (itemRefinements_Some ctx x issues data Hrun).
    split; intros _; eexists _, _; reflexivity.
  - unfold itemRefinements.
    erewrite refine_aborted; [reflexivity |].
    erewrite refine_aborted; [reflexivity |].
    erewrite refine_aborted; [reflexivity | exact Hrun].
Qed.

Lemma base_issue_not_custom M ctx x c p :
  M ∉ decimal_messages ->
  z.Issue c p (Some M) ∈ z.issues_of (s ctx x) -> c <> z.custom.
Proof.
  intros HM Hin Hc. subst c.
  pose proof (s_issues M ctx x HM) as Hall.
  unfold every_issue in Hall. rewrite Forall_forall in Hall.
  apply Hall in Hin. apply Hin; reflexivity.
Qed.

(** When each of the three refinement issues is raised. *)
Lemma itemRefinements_issues ctx x :
  (customPriceIssue ctx ∈ z.issues_of (itemRefinements proj s ctx x) <->
   parses (itemRefinements proj s ctx x)
   /\ isCustom (inp x) = true /\ givesCustomPrice (inp x) = false)
  /\ (customPriceReasonIssue ctx ∈ z.issues_of (itemRefinements proj s ctx x) <->
      parses (itemRefinements proj s ctx x)
      /\ isCustom (inp x) = true /\ givesReason (inp x) = false)
  /\ (itemPercentageIssue ctx ∈ z.issues_of (itemRefinements proj s ctx x) <->
      parses (itemRefinements proj s ctx x)
      /\ percentageAbove100 (CreateItem.itemDiscountType' (inp x))
           (CreateItem.itemDiscountValue' (inp x)) = true).
Proof.
  pose proof (base_issue_not_custom customPriceMessage ctx x z.custom
                (ctx ++ [z.Key "customPrice"]) customPriceMessage_fresh) as H1.
  pose proof (base_issue_not_custom customPriceReasonMessage ctx x z.custom
                (ctx ++ [z.Key "customPriceReason"])
                customPriceReasonMessage_fresh) as H2.
  pose proof (base_issue_not_custom percentageMessage ctx x z.custom
                (ctx ++ [z.Key "itemDiscountValue"]) percentageMessage_fresh)
    as H3.
  rewrite !itemRefinements_parses.
  destruct (s ctx x) as [e | issues [data |]] eqn:Hrun.
  - unfold itemRefinements.
    erewrite refine_Threw;
      [| erewrite refine_Threw; [reflexivity |];
         erewrite refine_Threw; [reflexivity | exact Hrun]].
    cbn. rewrite !elem_of_nil.
    repeat split; try tauto; intros ((? & ? & [=]) & _).
  - rewrite (itemRefinements_Some ctx x issues data Hrun).
    destruct (s_reads ctx x issues data Hrun) as [-> Hreadable].
    destruct (item_checks_read (inp x)) as (-> & -> & Hbounded).
    rewrite (Hbounded Hreadable). clear Hbounded.
    cbn [z.issues_of] in *.
    assert (parses (z.Returned issues (Some data))) as Hparses
      by (eexists _, _; reflexivity).
    rewrite !elem_of_app, !elem_of_when_not.
    unfold customPriceIssue, customPriceReasonIssue, itemPercentageIssue in *.
    destruct (isCustom (inp x)), (givesCustomPrice (inp x)),
      (givesReason (inp x)),
      (percentageAbove100 (CreateItem.itemDiscountType' (inp x))
         (CreateItem.itemDiscountValue' (inp x)));
      cbn; repeat split;
      intuition (try discriminate; try congruence).
  - unfold itemRefinements.
    erewrite refine_aborted;
      [| erewrite refine_aborted; [reflexivity |];
         erewrite refine_aborted; [reflexivity | exact Hrun]].
    cbn [z.issues_of] in *.
    repeat split; try tauto; intros ((? & ? & [=]) & _).
Qed.

Lemma itemRefinements_Some_inv ctx x issues data :
  itemRefinements proj s ctx x = z.Returned issues (Some data) ->
  exists issues0, s ctx x = z.Returned issues0 (Some data).
Proof.
  destruct (s ctx x) as [e | issues0 [data0 |]] eqn:Hrun.
  - unfold itemRefinements.
    erewrite refine_Threw;
      [| erewrite refine_Threw; [reflexivity |];
         erewrite refine_Threw; [reflexivity | exact Hrun]].
    discriminate.
  - rewrite (itemRefinements_Some ctx x issues0 data0 Hrun).
    intros [= _ <-]. eauto.
  - unfold itemRefinements.
    erewrite refine_aborted;
      [| erewrite refine_aborted; [reflexivity |];
         erewrite refine_aborted; [reflexivity | exact Hrun]].
    discriminate.
Qed.

Lemma every_issue_itemRefinements Q ctx x :
  Q (customPriceIssue ctx) -> Q (customPriceReasonIssue ctx) ->
  Q (itemPercentageIssue ctx) ->
  every_issue Q (s ctx x) -> every_issue Q (itemRefinements proj s ctx x).
Proof.
  intros H1 H2 H3 Hs. unfold itemRefinements.
  repeat (apply every_issue_refine; [assumption |]). exact Hs.
Qed.

End refined.
End item_refinements.

Section item_schemas.
Context `{z.Host}.

Lemma CreateOrderItemSchema_chain :
  CreateOrderItemSchema = itemRefinements (fun data => data) createOrderItemBaseSchema.
Proof. reflexivity. Qed.

Lemma UpdateOrderItemSchema_chain :
  UpdateOrderItemSchema = itemRefinements UpdateItem.base updateOrderItemBaseSchema.
Proof. reflexivity. Qed.

Lemma decimal_not_custom M name ctx m :
  M ∉ decimal_messages -> m ∈ decimal_messages ->
  not_custom M (z.Issue z.custom (ctx ++ [z.Key name]) (Some m)).
Proof. intros HM Hm _. cbn. intros [= ->]. contradiction. Qed.

Lemma item_base_not_custom M ctx item :
  M ∉ decimal_messages ->
  every_issue (not_custom M) (createOrderItemBaseSchema ctx item).
Proof.
  intros HM. apply every_issue_item_base.
  - intros name. apply primitive_not_custom.
  - intros name m Hm. apply decimal_not_custom; assumption.
Qed.

Lemma every_issue_update_item_base Q ctx item :
  (forall name, primitive Q (ctx ++ [z.Key name])) ->
  (forall name m, m ∈ decimal_messages ->
     Q (z.Issue z.custom (ctx ++ [z.Key name]) (Some m))) ->
  every_issue Q (updateOrderItemBaseSchema ctx item).
Proof.
  intros Hprimitive Hdecimal. unfold updateOrderItemBaseSchema.
  repeat apply every_issue_ap; try apply every_issue_map.
  - apply every_issue_item_base; assumption.
  - apply every_issue_field; intros; schema_issues. exact (Hprimitive _).
  - apply every_issue_field; intros; schema_issues.
Qed.

Lemma update_item_base_not_custom M ctx item :
  M ∉ decimal_messages ->
  every_issue (not_custom M) (updateOrderItemBaseSchema ctx item).
Proof.
  intros HM. apply every_issue_update_item_base.
  - intros name. apply primitive_not_custom.
  - intros name m Hm. apply decimal_not_custom; assumption.
Qed.

Lemma update_item_base_Some ctx item issues data :
  updateOrderItemBaseSchema ctx item = z.Returned issues (Some data) ->
  data = update_item_data item /\ readable (UpdateItem.base' item).
Proof.
  unfold updateOrderItemBaseSchema, z.field. intros Hrun. object_inv Hrun.
  apply item_base_Some in Hrun as [-> Hreadable].
  match goal with
  | Hid : z.optional (z.string _) _ _ = z.Returned _ (Some ?v) |- _ =>
      assert (v = UpdateItem.id' item) as ->
        by (destruct (UpdateItem.id' item); cbn in Hid;
            injection Hid as _ <-; reflexivity)
  end.
  match goal with
  | Hdeleted : z.optional z.boolean _ _ = z.Returned _ (Some ?v) |- _ =>
      assert (v = UpdateItem.isDeleted' item) as ->
        by (destruct (UpdateItem.isDeleted' item); cbn in Hdeleted;
            injection Hdeleted as _ <-; reflexivity)
  end.
  auto.
Qed.

(** The issues of the item schemas lie at or below the item's path. *)
Lemma item_below ctx item :
  every_issue (below ctx) (CreateOrderItemSchema ctx item).
Proof.
  rewrite CreateOrderItemSchema_chain.
  apply every_issue_itemRefinements; try apply prefix_of_app_key.
  apply every_issue_item_base.
  - intros name. apply primitive_below, prefix_of_app_key.
  - intros name m _. apply prefix_of_app_key.
Qed.

Lemma update_item_below ctx item :
  every_issue (below ctx) (UpdateOrderItemSchema ctx item).
Proof.
  rewrite UpdateOrderItemSchema_chain.
  apply every_issue_itemRefinements; try apply prefix_of_app_key.
  apply every_issue_update_item_base.
  - intros name. apply primitive_below, prefix_of_app_key.
  - intros name m _. apply prefix_of_app_key.
Qed.

Lemma CreateOrderItemSchema_Some ctx item issues data :
  CreateOrderItemSchema ctx item = z.Returned issues (Some data) ->
  data = item_data item.
Proof.
  rewrite CreateOrderItemSchema_chain. intros Hrun.
  apply itemRefinements_Some_inv in Hrun as [issues0 Hrun].
  apply item_base_Some in Hrun. tauto.
Qed.

Lemma UpdateOrderItemSchema_Some ctx item issues data :
  UpdateOrderItemSchema ctx item = z.Returned issues (Some data) ->
  data = update_item_data item.
Proof.
  rewrite UpdateOrderItemSchema_chain. intros Hrun.
  apply itemRefinements_Some_inv in Hrun as [issues0 Hrun].
  apply update_item_base_Some in Hrun. tauto.
Qed.

End item_schemas.

(** ** Order schemas *)

Section order_refinements.
Context `{z.Host} {I A : Type} (s : z.schema I A) (bounded : A -> bool)
        (productIds : A -> list string).
Hypothesis s_clean :
  forall ctx x,
    every_issue (fun i => i <> orderPercentageIssue ctx /\ i <> duplicateIssue ctx)
      (s ctx x).

Lemma orderRefinements_Some ctx x issues data :
  s ctx x = z.Returned issues (Some data) ->
  orderRefinements bounded productIds s ctx x
  = z.Returned
      ((issues ++ z.when_not (bounded data) (orderPercentageIssue ctx))
       ++ z.when_not (allDistinct (productIds data)) (duplicateIssue ctx))
      (Some data).
Proof.
  intros Hrun. unfold orderRefinements.
  apply (refine_pure_Some (fun data => allDistinct (productIds data))).
  apply (refine_pure_Some bounded). exact Hrun.
Qed.

Lemma orderRefinements_issues ctx x :
  (orderPercentageIssue ctx
     ∈ z.issues_of (orderRefinements bounded productIds s ctx x) <->
   exists issues data,
     s ctx x = z.Returned issues (Some data) /\ bounded data = false)
  /\ (duplicateIssue ctx
        ∈ z.issues_of (orderRefinements bounded productIds s ctx x) <->
      exists issues data,
        s ctx x = z.Returned issues (Some data)
        /\ allDistinct (productIds data) = false)
  /\ (forall issues data,
         orderRefinements bounded productIds s ctx x
         = z.Returned issues (Some data) ->
         exists issues0, s ctx x = z.Returned issues0 (Some data)
                         /\ issues0 `prefix_of` issues).
Proof.
  pose proof (s_clean ctx x) as Hclean. unfold every_issue in Hclean.
  rewrite Forall_forall in Hclean.
  destruct (s ctx x) as [e | issues [data |]] eqn:Hrun.
  - unfold orderRefinements.
    erewrite refine_Threw; [| erewrite refine_Threw; [reflexivity | exact Hrun]].
    cbn. rewrite !elem_of_nil.
    repeat split; try tauto; try (intros (? & ? & [=] & _)). discriminate.
  - rewrite (orderRefinements_Some ctx x issues data Hrun).
    cbn [z.issues_of] in *.
    rewrite !elem_of_app, !elem_of_when_not.
    assert (orderPercentageIssue ctx <> duplicateIssue ctx) as Hdistinct
      by (intros [= _ ?]; discriminate).
    repeat split.
    + intros [[Hin | [Hcheck _]] | [_ Heq]].
      * apply Hclean in Hin. tauto.
      * eauto.
      * contradiction.
    + intros (? & ? & [= <- <-] & Hcheck). auto.
    + intros [[Hin | [_ Heq]] | [Hcheck _]].
      * apply Hclean in Hin. tauto.
      * symmetry in Heq. contradiction.
      * eauto.
    + intros (? & ? & [= <- <-] & Hcheck). auto.
    + intros issues' data' [= <- <-]. exists issues. split; [reflexivity |].
      rewrite <- app_assoc. apply prefix_app_r. reflexivity.
  - unfold orderRefinements.
    erewrite refine_aborted;
      [| erewrite refine_aborted; [reflexivity | exact Hrun]].
    cbn [z.issues_of] in *.
    repeat split; try (intros (? & ? & [=] & _)); try discriminate.
    + intros Hin. apply Hclean in Hin. tauto.
    + intros Hin. apply Hclean in Hin. tauto.
Qed.

End order_refinements.

Lemma below_item_not_order_issue ctx name n c m (i : z.issue) :
  below ((ctx ++ [z.Key "items"]) ++ [z.Index n]) i ->
  i <> z.Issue c (ctx ++ [z.Key name]) m.
Proof.
  intros [k Hpath] ->. cbn in Hpath.
  rewrite <- !app_assoc in Hpath. apply app_inv_head in Hpath.
  discriminate Hpath.
Qed.

Section order_schemas.
Context `{z.Host}.

Lemma optional_Some {I O} (s : z.schema I O) (f : I -> O) (P : I -> Prop)
    ctx x issues v :
  (forall a issues' b, s ctx a = z.Returned issues' (Some b) -> b = f a /\ P a) ->
  z.optional s ctx x = z.Returned issues (Some v) ->
  v = f <$> x /\ match x with Some a => P a | None => True end.
Proof.
  intros Hs. destruct x as [a |]; cbn.
  - intros Hrun. apply map_Some in Hrun as (b & Hrun & ->).
    apply Hs in Hrun as [-> HP]. auto.
  - intros [= _ <-]. auto.
Qed.

Lemma array_items_Some {I O} (s : z.schema I O) (f : I -> O) :
  (forall c x issues y, s c x = z.Returned issues (Some y) -> y = f x) ->
  forall data ctx i issues parsed,
    z.array_items s ctx i data = z.Returned issues (Some parsed) ->
    parsed = f <$> data.
Proof.
  intros Hs. induction data as [| x data IH]; intros ctx i issues parsed; cbn.
  - intros [= _ <-]. reflexivity.
  - intros Hrun. object_inv Hrun.
    apply Hs in Hrun as ->. f_equal. eapply IH. eassumption.
Qed.

Lemma array_Some {I O} (s : z.schema I O) (f : I -> O) minLength message
    ctx data issues parsed :
  (forall c x issues y, s c x = z.Returned issues (Some y) -> y = f x) ->
  z.array s minLength message ctx data = z.Returned issues (Some parsed) ->
  parsed = f <$> data.
Proof.
  intros Hs. unfold z.array.
  destruct (z.array_items s ctx 0 data) as [e | issues0 parsed0] eqn:Hitems;
    [discriminate |].
  intros [= _ ->]. eapply array_items_Some; eassumption.
Qed.

(** No issue of the base order schemas is one of the two refinement
    issues: primitive issues are not [custom], the decimal ones carry other
    messages, and the items' issues lie below an index of [items]. *)
Lemma order_issue_clean ctx :
  (forall name,
     primitive (fun i => i <> orderPercentageIssue ctx /\ i <> duplicateIssue ctx)
       (ctx ++ [z.Key name]))
  /\ (forall name m, m ∈ decimal_messages ->
        z.Issue z.custom (ctx ++ [z.Key name]) (Some m) <> orderPercentageIssue ctx
        /\ z.Issue z.custom (ctx ++ [z.Key name]) (Some m) <> duplicateIssue ctx)
  /\ (forall n i, below ((ctx ++ [z.Key "items"]) ++ [z.Index n]) i ->
        i <> orderPercentageIssue ctx /\ i <> duplicateIssue ctx).
Proof.
  split; [| split].
  - intros name c m Hc. split; intros [= -> _ _]; contradiction.
  - intros name m Hm. split; intros [= _ ->].
    + exact (percentageMessage_fresh Hm).
    + exact (duplicateMessage_fresh Hm).
  - intros n i Hbelow. split; eapply below_item_not_order_issue; exact Hbelow.
Qed.

Lemma create_order_base_clean ctx order :
  every_issue (fun i => i <> orderPercentageIssue ctx /\ i <> duplicateIssue ctx)
    (createOrderBaseSchema ctx order).
Proof.
  destruct (order_issue_clean ctx) as (Hprimitive & Hdecimal & Hitems).
  unfold createOrderBaseSchema.
  repeat apply every_issue_ap; try apply every_issue_map;
    apply every_issue_field; intros; unfold commonValidations_id;
    try (schema_issues; try exact (Hprimitive _);
         apply Hdecimal; apply (bool_decide_unpack _); vm_compute; exact I).
  apply every_issue_array; [exact (Hprimitive _) |].
  intros n item. eapply every_issue_mono; [apply Hitems | apply item_below].
Qed.

Lemma update_order_base_clean ctx order :
  every_issue (fun i => i <> orderPercentageIssue ctx /\ i <> duplicateIssue ctx)
    (updateOrderBaseSchema ctx order).
Proof.
  destruct (order_issue_clean ctx) as (Hprimitive & Hdecimal & Hitems).
  unfold updateOrderBaseSchema.
  repeat apply every_issue_ap; try apply every_issue_map;
    apply every_issue_field; intros; unfold commonValidations_id;
    try (schema_issues; try exact (Hprimitive _);
         apply Hdecimal; apply (bool_decide_unpack _); vm_compute; exact I).
  apply every_issue_array; [exact (Hprimitive _) |].
  intros n item.
  eapply every_issue_mono; [apply Hitems | apply update_item_below].
Qed.

End order_schemas.

Section order_readings.
Context `{z.Host}.

Lemma create_order_base_Some ctx order issues data :
  createOrderBaseSchema ctx order = z.Returned issues (Some data) ->
  CreateOrder.orderDiscountType data = CreateOrder.orderDiscountType' order
  /\ CreateOrder.orderDiscountValue data
     = decimal_value (default (inr (JS.num 0))
                        (CreateOrder.orderDiscountValue' order))
  /\ JS.isNaN (CreateOrder.orderDiscountValue data) = false
  /\ CreateOrder.items data = item_data <$> CreateOrder.items' order.
Proof.
  unfold createOrderBaseSchema, z.field. intros Hrun. object_inv Hrun.
  cbn [CreateOrder.orderDiscountType CreateOrder.orderDiscountValue
       CreateOrder.items].
  repeat match goal with
  | Hf : z.optional (z.nullable z.enum) _ _ = z.Returned _ (Some ?v) |- _ =>
      apply (optional_nullable_Some _ (fun a => a) (fun _ => True)) in Hf
        as [-> _]; [| intros ? ? ?; apply enum_Some]
  | Hf : z.default _ (decimalSchema _ _ _) _ _ = z.Returned _ (Some ?v) |- _ =>
      rewrite default_run in Hf; apply decimalSchema_Some in Hf as [-> ?]
  | Hf : z.array _ _ _ _ _ = z.Returned _ (Some ?v) |- _ =>
      apply (array_Some _ item_data) in Hf as ->;
        [| intros ? ? ? ?; apply CreateOrderItemSchema_Some]
  end.
  rewrite nullable_map_id. auto.
Qed.

Lemma update_order_base_Some ctx order issues data :
  updateOrderBaseSchema ctx order = z.Returned issues (Some data) ->
  UpdateOrder.orderDiscountType data = UpdateOrder.orderDiscountType' order
  /\ UpdateOrder.orderDiscountValue data
     = decimal_value <$> UpdateOrder.orderDiscountValue' order
  /\ match UpdateOrder.orderDiscountValue' order with
     | Some x => JS.isNaN (decimal_value x) = false
     | None => True
     end
  /\ UpdateOrder.items data = update_item_data <$> UpdateOrder.items' order.
Proof.
  unfold updateOrderBaseSchema, z.field. intros Hrun. object_inv Hrun.
  cbn [UpdateOrder.orderDiscountType UpdateOrder.orderDiscountValue
       UpdateOrder.items].
  repeat match goal with
  | Hf : z.optional (z.nullable z.enum) _ _ = z.Returned _ (Some ?v) |- _ =>
      apply (optional_nullable_Some _ (fun a => a) (fun _ => True)) in Hf
        as [-> _]; [| intros ? ? ?; apply enum_Some]
  | Hf : z.optional (decimalSchema _ _ _) _ _ = z.Returned _ (Some ?v) |- _ =>
      apply (optional_Some _ decimal_value
               (fun a => JS.isNaN (decimal_value a) = false)) in Hf as [-> ?];
        [| intros ? ? ? Ha; apply decimalSchema_Some in Ha as [-> ?]; auto]
  | Hf : z.array _ _ _ _ _ = z.Returned _ (Some ?v) |- _ =>
      apply (array_Some _ update_item_data) in Hf as ->;
        [| intros ? ? ? ?; apply UpdateOrderItemSchema_Some]
  end.
  rewrite nullable_map_id. auto.
Qed.

Lemma kept_productIds (items : list UpdateItem.input) :
  (fun item => CreateItem.productId (UpdateItem.base item))
    <$> filter notDeleted (update_item_data <$> items)
  = (fun item => CreateItem.productId' (UpdateItem.base' item))
      <$> keptItems items.
Proof.
  unfold keptItems. induction items as [| item items IH]; [reflexivity |].
  rewrite fmap_cons, !filter_cons.
  destruct (decide (notDeleted (update_item_data item))) as [Hkept | Hkept];
    destruct (decide (UpdateItem.isDeleted' item <> Some true))
      as [Hkept' | Hkept'];
    try (cbn; f_equal; exact IH);
    exfalso; unfold notDeleted, update_item_data in Hkept; cbn in Hkept;
    destruct (UpdateItem.isDeleted' item) as [[] |]; cbn in Hkept;
    try contradiction; try (apply Hkept'; discriminate);
    try (apply Hkept; exact I).
Qed.

End order_readings.

(** ** Status change requests *)

Section status_change.
Context `{z.Host}.

Lemma optional_nullable_trim_run ctx (x : option (JS.nullable string)) :
  z.optional (z.nullable (z.string [z.trim])) ctx x
  = z.OK (nullable_map JS.trim <$> x).
Proof. destruct x as [[| s] |]; reflexivity. Qed.

Lemma optional_string_run ctx (x : option string) :
  z.optional (z.string []) ctx x = z.OK x.
Proof. destruct x; reflexivity. Qed.

Lemma optional_trim_run ctx (x : option string) :
  z.optional (z.string [z.trim]) ctx x = z.OK (JS.trim <$> x).
Proof. destruct x; reflexivity. Qed.

(** A status change is accepted exactly when both ids are UUIDs, the
    delivery date, if any, is a valid date, and the transition is one of the
    five edges; [rejectionReason] plays no part. *)
Lemma UpdateOrderStatusSchema_success ctx (request : UpdateStatus.input) :
  z.success (UpdateOrderStatusSchema ctx request) = true <->
  z.isUuid (UpdateStatus.id' request) = true
  /\ z.isUuid (UpdateStatus.userId' request) = true
  /\ match UpdateStatus.deliveryDate' request with
     | Some (JS.value time) => JS.isNaN time = false
     | _ => True
     end
  /\ validateStatusTransition
       (OrderStatus_value (UpdateStatus.currentStatus' request))
       (OrderStatus_value (UpdateStatus.newStatus' request))
     = JS.Normal true.
Proof.
  unfold UpdateOrderStatusSchema, z.refine, z.field, commonValidations_id.
  rewrite optional_nullable_trim_run, optional_string_run, optional_trim_run.
  destruct request as [id currentStatus newStatus reason deliveryDate userId
                         userName notes].
  cbn [UpdateStatus.id' UpdateStatus.userId' UpdateStatus.deliveryDate'
       UpdateStatus.currentStatus' UpdateStatus.newStatus'
       UpdateStatus.rejectionReason' UpdateStatus.userName' UpdateStatus.notes'].
  unfold z.string, z.string_checks, z.enum, z.OK.
  destruct (z.isUuid id), (z.isUuid userId);
    destruct deliveryDate as [[| time] |];
    try (unfold z.nullable, z.optional, z.date;
         destruct (JS.isNaN time) eqn:Htime);
    cbn; rewrite ?validateStatusTransition_enum;
    destruct currentStatus, newStatus; cbn;
    intuition (try discriminate; try congruence).
Qed.

End status_change.

(** C2, as amended: [UpdateOrderStatusSchema] asks for no rejection reason.
    A request is accepted exactly when [id] and [userId] are UUIDs, the
    delivery date, if given, is a valid date, and the transition is legal;
    so a request into TIDAK_TERKIRIM is accepted, whatever its
    [rejectionReason] (absent, null, empty or not), exactly when moreover
    the current status is DRAFT or DISETUJUI. *)
Theorem UpdateOrderStatusSchema_reason_not_required `{z.Host} :
  forall (ctx : list z.key) (request : UpdateStatus.input),
    (z.success (UpdateOrderStatusSchema ctx request) = true <->
     z.isUuid (UpdateStatus.id' request) = true
     /\ z.isUuid (UpdateStatus.userId' request) = true
     /\ match UpdateStatus.deliveryDate' request with
        | Some (JS.value time) => JS.isNaN time = false
        | _ => True
        end
     /\ validateStatusTransition
          (OrderStatus_value (UpdateStatus.currentStatus' request))
          (OrderStatus_value (UpdateStatus.newStatus' request))
        = JS.Normal true)
    /\ (UpdateStatus.newStatus' request = TIDAK_TERKIRIM ->
        (validateStatusTransition
           (OrderStatus_value (UpdateStatus.currentStatus' request))
           (OrderStatus_value (UpdateStatus.newStatus' request))
         = JS.Normal true <->
         UpdateStatus.currentStatus' request = DRAFT
         \/ UpdateStatus.currentStatus' request = DISETUJUI)).
Proof.
  intros ctx request. split; [apply UpdateOrderStatusSchema_success |].
  intros ->. rewrite validateStatusTransition_enum.
  destruct (UpdateStatus.currentStatus' request);
    intuition (try discriminate; try congruence).
Qed.

(** C2 as stated fails: rejections into TIDAK_TERKIRIM whose reason is
    absent, null or empty are accepted. *)
Lemma UpdateOrderStatusSchema_accepts_missing_reason :
  UpdateStatus.newStatus' Samples.rejectWithoutReason = TIDAK_TERKIRIM
  /\ UpdateStatus.rejectionReason' Samples.rejectWithoutReason = None
  /\ z.success (@UpdateOrderStatusSchema Samples.host []
                  Samples.rejectWithoutReason) = true
  /\ z.success (@UpdateOrderStatusSchema Samples.host []
                  Samples.rejectWithNullReason) = true
  /\ z.success (@UpdateOrderStatusSchema Samples.host []
                  Samples.rejectWithEmptyReason) = true.
Proof. vm_compute. auto. Qed.

(** ** Order items and orders *)

Lemma success_inv {A} (r : z.result A) :
  z.success r = true -> parses r /\ z.issues_of r = [].
Proof.
  destruct r as [e | [| i issues] [v |]]; try discriminate.
  intros _. split; [eexists _, _ |]; reflexivity.
Qed.

Section item_claims.
Context `{z.Host}.

Lemma CreateOrderItemSchema_issues ctx item :
  (customPriceIssue ctx ∈ z.issues_of (CreateOrderItemSchema ctx item) <->
   parses (CreateOrderItemSchema ctx item)
   /\ isCustom item = true /\ givesCustomPrice item = false)
  /\ (customPriceReasonIssue ctx ∈ z.issues_of (CreateOrderItemSchema ctx item) <->
      parses (CreateOrderItemSchema ctx item)
      /\ isCustom item = true /\ givesReason item = false)
  /\ (itemPercentageIssue ctx ∈ z.issues_of (CreateOrderItemSchema ctx item) <->
      parses (CreateOrderItemSchema ctx item)
      /\ percentageAbove100 (CreateItem.itemDiscountType' item)
           (CreateItem.itemDiscountValue' item) = true).
Proof.
  rewrite CreateOrderItemSchema_chain.
  apply (itemRefinements_issues createOrderItemBaseSchema (fun data => data)
           (fun item => item)).
  - intros. eapply item_base_Some. eassumption.
  - intros. apply item_base_not_custom. assumption.
Qed.

Lemma UpdateOrderItemSchema_issues ctx item :
  (customPriceIssue ctx ∈ z.issues_of (UpdateOrderItemSchema ctx item) <->
   parses (UpdateOrderItemSchema ctx item)
   /\ isCustom (UpdateItem.base' item) = true
   /\ givesCustomPrice (UpdateItem.base' item) = false)
  /\ (customPriceReasonIssue ctx ∈ z.issues_of (UpdateOrderItemSchema ctx item) <->
      parses (UpdateOrderItemSchema ctx item)
      /\ isCustom (UpdateItem.base' item) = true
      /\ givesReason (UpdateItem.base' item) = false)
  /\ (itemPercentageIssue ctx ∈ z.issues_of (UpdateOrderItemSchema ctx item) <->
      parses (UpdateOrderItemSchema ctx item)
      /\ percentageAbove100
           (CreateItem.itemDiscountType' (UpdateItem.base' item))
           (CreateItem.itemDiscountValue' (UpdateItem.base' item)) = true).
Proof.
  rewrite UpdateOrderItemSchema_chain.
  apply (itemRefinements_issues updateOrderItemBaseSchema UpdateItem.base
           UpdateItem.base').
  - intros ctx' x issues data Hrun.
    apply update_item_base_Some in Hrun as [-> Hreadable]. auto.
  - intros. apply update_item_base_not_custom. assumption.
Qed.

(** An item schema parses exactly the readable items. *)
Lemma CreateOrderItemSchema_parses ctx item :
  parses (CreateOrderItemSchema ctx item) <-> readable item.
Proof.
  rewrite CreateOrderItemSchema_chain, itemRefinements_parses.
  apply item_base_parses.
Qed.

End item_claims.

Section order_claims.
Context `{z.Host}.

Lemma orderRefinements_parses {I A} (s : z.schema I A) bounded productIds ctx x :
  parses (orderRefinements bounded productIds s ctx x) <-> parses (s ctx x).
Proof.
  destruct (s ctx x) as [e | issues [data |]] eqn:Hrun.
  - unfold orderRefinements.
    erewrite refine_Threw; [reflexivity |].
    erewrite refine_Threw; [reflexivity | exact Hrun].
  - rewrite (orderRefinements_Some s bounded productIds ctx x issues data Hrun).
    split; intros _; eexists _, _; reflexivity.
  - unfold orderRefinements.
    erewrite refine_aborted; [reflexivity |].
    erewrite refine_aborted; [reflexivity | exact Hrun].
Qed.

Lemma CreateOrderSchema_chain :
  CreateOrderSchema
  = orderRefinements
      (fun data =>
         negb (bool_decide (CreateOrder.orderDiscountType data
                            = Some (JS.value PERCENTAGE)))
         || JS.le (CreateOrder.orderDiscountValue data) (JS.num 100))
      (fun data => CreateItem.productId <$> CreateOrder.items data)
      createOrderBaseSchema.
Proof. reflexivity. Qed.

Lemma UpdateOrderSchema_chain :
  UpdateOrderSchema
  = orderRefinements
      (fun data =>
         negb (bool_decide (UpdateOrder.orderDiscountType data
                            = Some (JS.value PERCENTAGE)))
         || match UpdateOrder.orderDiscountValue data with
            | None => true
            | Some orderDiscountValue => JS.le orderDiscountValue (JS.num 100)
            end)
      (fun data =>
         (fun item => CreateItem.productId (UpdateItem.base item))
           <$> filter notDeleted (UpdateOrder.items data))
      updateOrderBaseSchema.
Proof. reflexivity. Qed.

Lemma allDistinct_false (ids : list string) :
  allDistinct ids = false <-> ~ NoDup ids.
Proof.
  rewrite <- allDistinct_NoDup. destruct (allDistinct ids); intuition congruence.
Qed.

Lemma CreateOrderSchema_issues ctx order :
  (orderPercentageIssue ctx ∈ z.issues_of (CreateOrderSchema ctx order) <->
   parses (CreateOrderSchema ctx order)
   /\ percentageAbove100 (CreateOrder.orderDiscountType' order)
        (CreateOrder.orderDiscountValue' order) = true)
  /\ (duplicateIssue ctx ∈ z.issues_of (CreateOrderSchema ctx order) <->
      parses (CreateOrderSchema ctx order)
      /\ ~ NoDup (CreateItem.productId' <$> CreateOrder.items' order)).
Proof.
  rewrite CreateOrderSchema_chain, orderRefinements_parses.
  match goal with
  | |- context [orderRefinements ?b ?ids _] =>
      destruct (orderRefinements_issues createOrderBaseSchema b ids
                  create_order_base_clean ctx order) as (-> & -> & _)
  end.
  split; split.
  - intros (issues & data & Hrun & Hcheck).
    split; [eexists _, _; exact Hrun |].
    apply create_order_base_Some in Hrun as (Htype & Hvalue & Hnan & _).
    unfold percentageAbove100. rewrite Htype in Hcheck.
    destruct (bool_decide (CreateOrder.orderDiscountType' order = _));
      [| discriminate Hcheck].
    cbn in Hcheck |- *. rewrite not_le_gt in Hcheck by (assumption || reflexivity).
    rewrite Hvalue in Hcheck. apply negb_false_iff in Hcheck.
    destruct (CreateOrder.orderDiscountValue' order);
      [exact Hcheck | discriminate Hcheck].
  - intros ((issues & data & Hrun) & Habove). exists issues, data.
    split; [exact Hrun |].
    apply create_order_base_Some in Hrun as (Htype & Hvalue & Hnan & _).
    unfold percentageAbove100 in Habove. rewrite Htype.
    destruct (bool_decide (CreateOrder.orderDiscountType' order = _));
      [| discriminate Habove].
    cbn in Habove |- *. rewrite not_le_gt by (assumption || reflexivity).
    rewrite Hvalue. apply negb_false_iff.
    destruct (CreateOrder.orderDiscountValue' order);
      [exact Habove | discriminate Habove].
  - intros (issues & data & Hrun & Hcheck).
    split; [eexists _, _; exact Hrun |].
    apply create_order_base_Some in Hrun as (_ & _ & _ & Hitems).
    rewrite Hitems, <- list_fmap_compose in Hcheck.
    apply allDistinct_false in Hcheck. exact Hcheck.
  - intros ((issues & data & Hrun) & Hdup). exists issues, data.
    split; [exact Hrun |].
    apply create_order_base_Some in Hrun as (_ & _ & _ & Hitems).
    rewrite Hitems, <- list_fmap_compose. apply allDistinct_false. exact Hdup.
Qed.

Lemma UpdateOrderSchema_issues ctx order :
  (orderPercentageIssue ctx ∈ z.issues_of (UpdateOrderSchema ctx order) <->
   parses (UpdateOrderSchema ctx order)
   /\ percentageAbove100 (UpdateOrder.orderDiscountType' order)
        (UpdateOrder.orderDiscountValue' order) = true)
  /\ (duplicateIssue ctx ∈ z.issues_of (UpdateOrderSchema ctx order) <->
      parses (UpdateOrderSchema ctx order)
      /\ ~ NoDup ((fun item => CreateItem.productId' (UpdateItem.base' item))
                    <$> keptItems (UpdateOrder.items' order))).
Proof.
  rewrite UpdateOrderSchema_chain, orderRefinements_parses.
  match goal with
  | |- context [orderRefinements ?b ?ids _] =>
      destruct (orderRefinements_issues updateOrderBaseSchema b ids
                  update_order_base_clean ctx order) as (-> & -> & _)
  end.
  split; split.
  - intros (issues & data & Hrun & Hcheck).
    split; [eexists _, _; exact Hrun |].
    apply update_order_base_Some in Hrun as (Htype & Hvalue & Hnan & _).
    unfold percentageAbove100. rewrite Htype, Hvalue in Hcheck.
    destruct (bool_decide (UpdateOrder.orderDiscountType' order = _));
      [| discriminate Hcheck].
    destruct (UpdateOrder.orderDiscountValue' order) as [x |];
      [| discriminate Hcheck].
    cbn in Hcheck |- *. rewrite not_le_gt in Hcheck by (assumption || reflexivity).
    apply negb_false_iff in Hcheck. exact Hcheck.
  - intros ((issues & data & Hrun) & Habove). exists issues, data.
    split; [exact Hrun |].
    apply update_order_base_Some in Hrun as (Htype & Hvalue & Hnan & _).
    unfold percentageAbove100 in Habove. rewrite Htype, Hvalue.
    destruct (bool_decide (UpdateOrder.orderDiscountType' order = _));
      [| discriminate Habove].
    destruct (UpdateOrder.orderDiscountValue' order) as [x |];
      [| discriminate Habove].
    cbn in Habove |- *. rewrite not_le_gt by (assumption || reflexivity).
    apply negb_false_iff. exact Habove.
  - intros (issues & data & Hrun & Hcheck).
    split; [eexists _, _; exact Hrun |].
    apply update_order_base_Some in Hrun as (_ & _ & _ & Hitems).
    rewrite Hitems, kept_productIds in Hcheck.
    apply allDistinct_false in Hcheck. exact Hcheck.
  - intros ((issues & data & Hrun) & Hdup). exists issues, data.
    split; [exact Hrun |].
    apply update_order_base_Some in Hrun as (_ & _ & _ & Hitems).
    rewrite Hitems, kept_productIds. apply allDistinct_false. exact Hdup.
Qed.

End order_claims.

Lemma rejected_when_raised {A} (r : z.result A) (i : z.issue) :
  i ∈ z.issues_of r -> z.success r = false.
Proof.
  intros Hin. destruct (z.success r) eqn:Hsuccess; [| reflexivity].
  apply success_inv in Hsuccess as [_ Hnone]. rewrite Hnone in Hin.
  apply elem_of_nil in Hin. contradiction.
Qed.

Lemma rejected_unless_parsed {A} (r : z.result A) :
  ~ parses r -> z.success r = false.
Proof.
  intros Hno. destruct (z.success r) eqn:Hsuccess; [| reflexivity].
  apply success_inv in Hsuccess as [Hparses _]. contradiction.
Qed.

(** Whatever raises an issue exactly when the parse reaches it rejects the
    request whenever its condition holds. *)
Lemma rejected_when {A} (r : z.result A) (i : z.issue) (condition : Prop) :
  (i ∈ z.issues_of r <-> parses r /\ condition) ->
  condition -> z.success r = false.
Proof.
  intros Hiff Hcondition. destruct (z.success r) eqn:Hsuccess; [| reflexivity].
  pose proof (success_inv r Hsuccess) as [Hparses _].
  rewrite <- Hsuccess. apply (rejected_when_raised r i), Hiff. auto.
Qed.


Lemma parses_computed {A} (r : z.result A) issues v :
  r = z.Returned issues (Some v) -> parses r.
Proof. intros ->. eexists _, _. reflexivity. Qed.









(** ** Further properties *)

Lemma success_map {A B} (f : A -> B) (r : z.result A) :
  z.success (f <$> r) = z.success r.
Proof. destruct r as [e | [| i issues] [v |]]; reflexivity. Qed.

Lemma success_ap {A B} (rf : z.result (A -> B)) (ra : z.result A) :
  z.success (rf <*> ra) = z.success rf && z.success ra.
Proof.
  destruct rf as [e | [| i issues] [f |]], ra as [e' | [| i' issues'] [a |]];
    reflexivity.
Qed.

Lemma success_refine {I A} (check : A -> JS.completion bool) message p
    (s : z.schema I A) ctx x :
  z.success (z.refine check message p s ctx x) = true ->
  z.success (s ctx x) = true.
Proof.
  unfold z.refine. destruct (s ctx x) as [e | issues [v |]]; try exact id.
  destruct (check v) as [ok | e]; [| discriminate].
  destruct issues; [reflexivity | discriminate].
Qed.

Lemma success_array_items {I O} (s : z.schema I O) ctx data :
  forall i,
    z.success (z.array_items s ctx i data) = true ->
    forall n x, data !! n = Some x ->
                z.success (s (ctx ++ [z.Index (i + n)]) x) = true.
Proof.
  induction data as [| y data IH]; intros i Hsuccess n x Hn; [discriminate Hn |].
  cbn in Hsuccess. rewrite success_ap, success_map in Hsuccess.
  apply andb_true_iff in Hsuccess as [Hhead Htail].
  destruct n as [| n]; cbn in Hn.
  - injection Hn as <-. rewrite Nat.add_0_r. exact Hhead.
  - rewrite <- Nat.add_succ_comm. apply IH; assumption.
Qed.

Lemma success_array {I O} (s : z.schema I O) minLength message ctx data :
  z.success (z.array s minLength message ctx data) = true ->
  forall n x, data !! n = Some x ->
              z.success (s (ctx ++ [z.Index n]) x) = true.
Proof.
  unfold z.array. intros Hsuccess n x Hn.
  apply (success_array_items s ctx data 0%nat); [| exact Hn].
  destruct (z.array_items s ctx 0 data) as [e | issues v]; [discriminate |].
  destruct (z.when_not _ _); [exact Hsuccess | discriminate].
Qed.

(** X4. An accepted order holds accepted items only: each item of an
    accepted create request is accepted by [CreateOrderItemSchema] at its
    place, so an order with a 150% item discount, or with a CUSTOM item
    lacking its price or its reason, is never accepted. *)
Theorem accepted_order_has_accepted_items `{z.Host} (ctx : list z.key)
    (order : CreateOrder.input) (n : nat) (item : CreateItem.input) :
  z.success (CreateOrderSchema ctx order) = true ->
  CreateOrder.items' order !! n = Some item ->
  z.success (CreateOrderItemSchema ((ctx ++ [z.Key "items"]) ++ [z.Index n]) item)
  = true
  /\ percentageAbove100 (CreateItem.itemDiscountType' item)
       (CreateItem.itemDiscountValue' item) = false
  /\ (isCustom item = true ->
      givesCustomPrice item = true /\ givesReason item = true).
Proof.
  intros Hsuccess Hitem.
  assert (z.success (CreateOrderItemSchema
                       ((ctx ++ [z.Key "items"]) ++ [z.Index n]) item) = true)
    as Haccepted.
  { unfold CreateOrderSchema in Hsuccess.
    do 2 apply success_refine in Hsuccess.
    unfold createOrderBaseSchema in Hsuccess.
    rewrite success_ap in Hsuccess.
    apply andb_true_iff in Hsuccess as [_ Hitems].
    exact (success_array _ _ _ _ _ Hitems n item Hitem). }
  split; [exact Haccepted |].
  destruct (CreateOrderItemSchema_issues
              ((ctx ++ [z.Key "items"]) ++ [z.Index n]) item)
    as (Hprice & Hreason & Hpercentage).
  split.
  - destruct (percentageAbove100 _ _) eqn:Habove; [| reflexivity].
    rewrite (rejected_when _ _ _ Hpercentage eq_refl) in Haccepted.
    discriminate Haccepted.
  - intros Hcustom. split.
    + destruct (givesCustomPrice item) eqn:Hgiven; [reflexivity |].
      rewrite (rejected_when _ _ _ Hprice (conj Hcustom eq_refl)) in Haccepted.
      discriminate Haccepted.
    + destruct (givesReason item) eqn:Hgiven; [reflexivity |].
      rewrite (rejected_when _ _ _ Hreason (conj Hcustom eq_refl)) in Haccepted.
      discriminate Haccepted.
Qed.

Lemma accepted_order_has_accepted_items_witness :
  (z.success (@CreateOrderSchema Samples.host []
                {| CreateOrder.storeId' := Samples.uuid1;
                   CreateOrder.salesId' := Samples.uuid2;
                   CreateOrder.visitId' := None;
                   CreateOrder.orderDiscountType' := None;
                   CreateOrder.orderDiscountValue' := None;
                   CreateOrder.orderDiscountDescription' := None;
                   CreateOrder.notes' := None;
                   CreateOrder.items' := [Samples.plainItem] |}) = true
   /\ [Samples.plainItem] !! 0%nat = Some Samples.plainItem)
  /\ z.success (@CreateOrderItemSchema Samples.host
                  (([] ++ [z.Key "items"]) ++ [z.Index 0]) Samples.plainItem)
     = true
  /\ @percentageAbove100 Samples.host
       (CreateItem.itemDiscountType' Samples.plainItem)
       (CreateItem.itemDiscountValue' Samples.plainItem) = false
  /\ (isCustom Samples.plainItem = true ->
      @givesCustomPrice Samples.host Samples.plainItem = true
      /\ givesReason Samples.plainItem = true).
Proof.
  split; [split; vm_compute; reflexivity |].
  apply (@accepted_order_has_accepted_items Samples.host []
           {| CreateOrder.storeId' := Samples.uuid1;
              CreateOrder.salesId' := Samples.uuid2;
              CreateOrder.visitId' := None;
              CreateOrder.orderDiscountType' := None;
              CreateOrder.orderDiscountValue' := None;
              CreateOrder.orderDiscountDescription' := None;
              CreateOrder.notes' := None;
              CreateOrder.items' := [Samples.plainItem] |} 0%nat);
    vm_compute; reflexivity.
Defined.

(** X1. On the two ownership-scoped permissions the check is exactly: the role
    is SALES, the user is active, and the two ids are the same value; so it
    denies when exactly one id is absent. *)
Theorem hasPermission_ownership :
  forall (role : UserRole) (isActive : option bool)
         (userId resourceOwnerId : option string),
    (hasPermission role ORDER_READ_OWN isActive userId resourceOwnerId = true <->
     role = SALES /\ default true isActive = true /\ userId = resourceOwnerId)
    /\ (hasPermission role VISIT_READ_OWN isActive userId resourceOwnerId = true <->
        role = SALES /\ default true isActive = true
        /\ userId = resourceOwnerId).
Proof.
  intros. split; apply hasPermission_own_scoped; auto.
Qed.

(** X2. The state machine answers [true] on the five edges of the table and
    on nothing else; on the four statuses it never throws. *)
Theorem status_transitions :
  forall currentStatus newStatus : string,
    (validateStatusTransition currentStatus newStatus = JS.Normal true <->
     (currentStatus = "DRAFT" /\ newStatus = "DISETUJUI")
     \/ (currentStatus = "DRAFT" /\ newStatus = "TIDAK_TERKIRIM")
     \/ (currentStatus = "DISETUJUI" /\ newStatus = "TERKIRIM")
     \/ (currentStatus = "DISETUJUI" /\ newStatus = "TIDAK_TERKIRIM")
     \/ (currentStatus = "TIDAK_TERKIRIM" /\ newStatus = "DISETUJUI"))
    /\ (currentStatus ∈ ["DRAFT"; "DISETUJUI"; "TERKIRIM"; "TIDAK_TERKIRIM"] ->
        exists answer, validateStatusTransition currentStatus newStatus
                       = JS.Normal answer).
Proof.
  intros currentStatus newStatus.
  split; [apply validateStatusTransition_true_iff |].
  rewrite !elem_of_cons, elem_of_nil.
  intros [-> | [-> | [-> | [-> | []]]]]; vm_compute; eauto.
Qed.

(** X3. The base parse of an order item returns an item exactly when each
    of its numbers reads as a number: the refinements of
    [CreateOrderItemSchema] run on those items and on no other. *)
Theorem item_refinements_reached `{z.Host} (ctx : list z.key)
    (item : CreateItem.input) :
  (parses (CreateOrderItemSchema ctx item) <-> readable item)
  /\ (forall issues data,
         CreateOrderItemSchema ctx item = z.Returned issues (Some data) ->
         data = item_data item).
Proof.
  split; [apply CreateOrderItemSchema_parses |].
  intros issues data. apply CreateOrderItemSchema_Some.
Qed.

(** ** Further properties of the permission evaluator *)

(** X5. For an inactive user [hasAnyPermission] holds exactly when BASIC is
    among the permissions asked for, and [hasAllPermissions] exactly when
    every one of them is BASIC; on the empty list [hasAnyPermission] denies
    and [hasAllPermissions] grants, whoever asks; and all of a list that is
    not empty implies one of it. *)
Theorem permission_lists :
  forall (role : UserRole) (permissions : list Permission)
         (isActive : option bool) (userId resourceOwnerId : option string),
    hasAnyPermission role permissions (Some false) userId resourceOwnerId
    = JS.includes permissions BASIC
    /\ (hasAllPermissions role permissions (Some false) userId resourceOwnerId
        = true <-> forall p, p ∈ permissions -> p = BASIC)
    /\ hasAnyPermission role [] isActive userId resourceOwnerId = false
    /\ hasAllPermissions role [] isActive userId resourceOwnerId = true
    /\ (hasAllPermissions role permissions isActive userId resourceOwnerId
        = true ->
        permissions <> [] ->
        hasAnyPermission role permissions isActive userId resourceOwnerId
        = true).
Proof.
  intros role permissions isActive userId resourceOwnerId.
  assert (forall p, hasPermission role p (Some false) userId resourceOwnerId
                    = bool_decide (p = BASIC)) as Hinactive.
  { intros p. unfold hasPermission. cbn.
    destruct (decide (p = BASIC)) as [-> | Hp].
    - rewrite every_role_holds_BASIC. reflexivity.
    - rewrite (bool_decide_eq_true_2 _ Hp), (bool_decide_eq_false_2 _ Hp).
      reflexivity. }
  split; [| split; [| split; [| split]]]; try reflexivity.
  - unfold hasAnyPermission, JS.some.
    induction permissions as [| p permissions IH]; [reflexivity |].
    cbn [existsb]. rewrite IH, Hinactive. unfold JS.includes.
    destruct (decide (p = BASIC)) as [-> | Hp].
    + rewrite (bool_decide_eq_true_2 (BASIC = BASIC) eq_refl). cbn. symmetry.
      apply bool_decide_eq_true_2. left.
    + rewrite (bool_decide_eq_false_2 _ Hp). cbn.
      apply bool_decide_ext. rewrite elem_of_cons. intuition congruence.
  - unfold hasAllPermissions, JS.every. rewrite forallb_forall.
    split.
    + intros Hall p Hp. apply list_elem_of_In, Hall in Hp.
      rewrite Hinactive in Hp. apply bool_decide_eq_true in Hp. exact Hp.
    + intros Hall p Hp. rewrite Hinactive. apply bool_decide_eq_true_2.
      apply Hall, list_elem_of_In, Hp.
  - unfold hasAllPermissions, hasAnyPermission, JS.every, JS.some.
    destruct permissions as [| p permissions]; [contradiction |].
    cbn. intros Hall _. apply andb_true_iff in Hall as [-> _]. reflexivity.
Qed.

(** X6. [isAdmin], [isManagerOrAdmin] and [isSalesOrAbove] are the
    thresholds ADMIN, MANAGER and SALES of [ROLE_HIERARCHY] on an active
    user; each implies the next. *)
Theorem role_predicates_are_thresholds :
  forall (role : UserRole) (isActive : option bool),
    isAdmin role isActive
    = default true isActive && isRoleHigherOrEqual role ADMIN
    /\ isManagerOrAdmin role isActive
       = default true isActive && isRoleHigherOrEqual role MANAGER
    /\ isSalesOrAbove role isActive
       = default true isActive && isRoleHigherOrEqual role SALES
    /\ (isAdmin role isActive = true -> isManagerOrAdmin role isActive = true)
    /\ (isManagerOrAdmin role isActive = true ->
        isSalesOrAbove role isActive = true).
Proof.
  intros role isActive.
  destruct role, (default true isActive) eqn:Hactive;
    unfold isAdmin, isManagerOrAdmin, isSalesOrAbove; rewrite Hactive;
    vm_compute; intuition discriminate.
Qed.

(** X7. [isRoleHigherOrEqual] is a total order on the roles, with ADMIN
    on top and BASIC at the bottom. *)
Theorem isRoleHigherOrEqual_total_order :
  (forall r, isRoleHigherOrEqual r r = true)
  /\ (forall r1 r2 r3,
         isRoleHigherOrEqual r1 r2 = true -> isRoleHigherOrEqual r2 r3 = true ->
         isRoleHigherOrEqual r1 r3 = true)
  /\ (forall r1 r2,
         isRoleHigherOrEqual r1 r2 = true -> isRoleHigherOrEqual r2 r1 = true ->
         r1 = r2)
  /\ (forall r1 r2,
         isRoleHigherOrEqual r1 r2 = true \/ isRoleHigherOrEqual r2 r1 = true)
  /\ (forall r, isRoleHigherOrEqual ADMIN r = true
                /\ isRoleHigherOrEqual r BASIC_ROLE = true).
Proof.
  unfold isRoleHigherOrEqual.
  split; [| split; [| split; [| split]]].
  - intros r. apply Z.geb_le. lia.
  - intros r1 r2 r3. rewrite !Z.geb_le. lia.
  - intros r1 r2. rewrite !Z.geb_le.
    destruct r1, r2; cbn; intros; (reflexivity || lia).
  - intros r1 r2. rewrite !Z.geb_le. lia.
  - intros r. rewrite !Z.geb_le. destruct r; cbn; lia.
Qed.

(** X8. The permission lists do not follow the hierarchy: the list of a
    role contains the list of another exactly when it is at least as high
    and, the other being SALES, is SALES itself.  So neither ADMIN nor
    MANAGER holds all that SALES holds. *)
Theorem role_permissions_inclusion :
  forall r1 r2 : UserRole,
    (forall p, p ∈ ROLE_PERMISSIONS r2 -> p ∈ ROLE_PERMISSIONS r1) <->
    isRoleHigherOrEqual r1 r2 = true /\ (r2 = SALES -> r1 = SALES).
Proof.
  intros r1 r2. split.
  - intros Hincl.
    destruct r1, r2; try (split; [reflexivity | congruence]);
      try (specialize (Hincl ORDER_READ_OWN); apply includes_true in Hincl;
           [discriminate Hincl | apply includes_true; reflexivity]);
      try (specialize (Hincl STORE_READ_ALL); apply includes_true in Hincl;
           [discriminate Hincl | apply includes_true; reflexivity]);
      try (specialize (Hincl STORE_CREATE); apply includes_true in Hincl;
           [discriminate Hincl | apply includes_true; reflexivity]).
  - intros [Hrank Hsales] p. rewrite <- !includes_true.
    destruct r1, r2; try discriminate Hrank;
      try (specialize (Hsales eq_refl); discriminate Hsales);
      destruct p; vm_compute; auto.
Qed.

(** X9. An ADMIN is granted BASIC always and, when active, every
    permission but the two ownership-scoped ones, which ADMIN does not
    hold: whatever the ids, ADMIN is denied [order:read-own] and
    [visit:read-own]. *)
Theorem hasPermission_ADMIN :
  forall (p : Permission) (isActive : option bool)
         (userId resourceOwnerId : option string),
    hasPermission ADMIN p isActive userId resourceOwnerId = true <->
    p = BASIC
    \/ (default true isActive = true /\ p <> ORDER_READ_OWN
        /\ p <> VISIT_READ_OWN).
Proof.
  intros p isActive userId resourceOwnerId. unfold hasPermission.
  destruct (default true isActive), p; vm_compute;
    intuition (try discriminate; try congruence).
Qed.

(** X10. The checkers of [ResourcePermissions] by role: approving orders,
    generating purchase orders, deleting any visit and managing roles are
    [isAdmin]; viewing all stores or all visits is [isManagerOrAdmin];
    creating a store or a visit is for active ADMIN and SALES; and who may
    view their own orders is SALES or above but neither MANAGER nor
    ADMIN. *)
Theorem resource_checkers_by_role :
  forall (role : UserRole) (isActive : bool),
    canApproveOrder role isActive = isAdmin role (Some isActive)
    /\ canGeneratePO role isActive = isAdmin role (Some isActive)
    /\ canDeleteAllVisits role isActive = isAdmin role (Some isActive)
    /\ canManageRoles role isActive = isAdmin role (Some isActive)
    /\ canViewAllStores role isActive = isManagerOrAdmin role (Some isActive)
    /\ canViewAllVisits role isActive = isManagerOrAdmin role (Some isActive)
    /\ canCreateStore role isActive
       = isActive && (bool_decide (role = ADMIN) || bool_decide (role = SALES))
    /\ canCreateVisit role isActive = canCreateStore role isActive
    /\ (forall userId orderOwnerId,
           canViewOwnOrders role isActive userId orderOwnerId = true ->
           isSalesOrAbove role (Some isActive) = true
           /\ isManagerOrAdmin role (Some isActive) = false).
Proof.
  intros role isActive.
  do 8 (split; [destruct role, isActive; vm_compute; reflexivity |]).
  intros userId orderOwnerId Hgranted. unfold canViewOwnOrders in Hgranted.
  apply hasPermission_own_scoped in Hgranted as (-> & Hactive & _); [| auto].
  cbn in Hactive. subst isActive. split; reflexivity.
Qed.

(** X11. The business rules stay within the permission table: whoever
    may edit an order holds [order:update]; a role that must link a visit
    can create visits and orders; among the roles that can create orders
    the visit is required of all but ADMIN; the default store status is
    TERVERIFIKASI for ADMIN and BARU otherwise; on one's own order,
    [canEditOrder] is: ADMIN, or a role bound to visits on a DRAFT. *)
Theorem business_rules_within_permissions :
  forall role : UserRole,
    (forall orderStatus userId orderOwnerId,
        canEditOrder role orderStatus userId orderOwnerId = true ->
        hasPermission role ORDER_UPDATE None None None = true)
    /\ (isVisitRequiredForOrder role = true ->
        hasPermission role VISIT_CREATE None None None = true
        /\ hasPermission role ORDER_CREATE None None None = true)
    /\ (hasPermission role ORDER_CREATE None None None = true ->
        isVisitRequiredForOrder role = negb (isAdmin role None))
    /\ (getDefaultStoreStatus role
        = if isAdmin role None then "TERVERIFIKASI" else "BARU")
    /\ (forall orderStatus userId,
           canEditOrder role orderStatus userId userId
           = isAdmin role None
             || isVisitRequiredForOrder role
                && bool_decide (orderStatus = "DRAFT")).
Proof.
  intros role. split; [| split; [| split; [| split]]].
  - intros orderStatus userId orderOwnerId. unfold canEditOrder.
    destruct role; cbn; try discriminate; reflexivity.
  - destruct role; cbn; try discriminate. auto.
  - destruct role; cbn; try discriminate; reflexivity.
  - destruct role; reflexivity.
  - intros orderStatus userId. unfold canEditOrder.
    rewrite (bool_decide_eq_true_2 (userId = userId) eq_refl).
    destruct role, (bool_decide (orderStatus = "DRAFT")); reflexivity.
Qed.

(** X12. [validateUserRole] is idempotent, leaves the four role names as
    they are, and leaves nothing else as it is. *)
Theorem validateUserRole_normalises :
  (forall role : string,
      validateUserRole (validateUserRole role) = validateUserRole role)
  /\ (forall r : UserRole, validateUserRole (UserRole_value r) = UserRole_value r)
  /\ (forall role : string,
         validateUserRole role = role <->
         exists r : UserRole, role = UserRole_value r).
Proof.
  assert (forall r : UserRole, validateUserRole (UserRole_value r)
                               = UserRole_value r) as Hfixed
    by (intros []; reflexivity).
  assert (forall role : string, exists r : UserRole,
             validateUserRole role = UserRole_value r) as Hrole.
  { intros role. unfold validateUserRole, validRoles.
    destruct (JS.includes _ role) eqn:Hin.
    - apply includes_true in Hin. rewrite !elem_of_cons, elem_of_nil in Hin.
      destruct Hin as [-> | [-> | [-> | [-> | []]]]];
        [exists ADMIN | exists MANAGER | exists SALES | exists BASIC_ROLE];
        reflexivity.
    - exists BASIC_ROLE. reflexivity. }
  split; [| split].
  - intros role. destruct (Hrole role) as [r ->]. apply Hfixed.
  - exact Hfixed.
  - intros role. split.
    + intros Heq. destruct (Hrole role) as [r Hr]. exists r. congruence.
    + intros [r ->]. apply Hfixed.
Qed.

Section permission_check.
Context `{z.Host}.

Lemma PermissionCheckSchema_run ctx (check : PermissionCheck.data) :
  exists issues,
    PermissionCheckSchema ctx check = z.Returned issues (Some check)
    /\ (issues = [] <->
        z.isUuid (PermissionCheck.userId check) = true
        /\ match PermissionCheck.resourceOwnerId check with
           | Some resourceOwnerId => z.isUuid resourceOwnerId = true
           | None => True
           end).
Proof.
  destruct check as [userId userRole isActive permission [resourceOwnerId |]];
    unfold PermissionCheckSchema, z.field; cbn;
    destruct (z.isUuid userId); try destruct (z.isUuid resourceOwnerId); cbn;
    eexists; (split; [reflexivity |]);
    intuition (try discriminate; try congruence).
Qed.

End permission_check.

(** X13. [PermissionCheckSchema] never throws and returns the check as
    it is; it accepts it exactly when [userId], and [resourceOwnerId] when
    given, are UUIDs.  Since a check always names its user, passing its
    properties to [hasPermission] grants an ownership-scoped permission
    only when [resourceOwnerId] is given and is that user. *)
Theorem PermissionCheckSchema_closes_ownership `{z.Host} :
  forall (ctx : list z.key) (check : PermissionCheck.data),
    (exists issues,
        PermissionCheckSchema ctx check = z.Returned issues (Some check))
    /\ (z.success (PermissionCheckSchema ctx check) = true <->
        z.isUuid (PermissionCheck.userId check) = true
        /\ match PermissionCheck.resourceOwnerId check with
           | Some resourceOwnerId => z.isUuid resourceOwnerId = true
           | None => True
           end)
    /\ (PermissionCheck.permission check = ORDER_READ_OWN
        \/ PermissionCheck.permission check = VISIT_READ_OWN ->
        hasPermission (PermissionCheck.userRole check)
          (PermissionCheck.permission check)
          (Some (PermissionCheck.isActive check))
          (Some (PermissionCheck.userId check))
          (PermissionCheck.resourceOwnerId check) = true ->
        PermissionCheck.resourceOwnerId check
        = Some (PermissionCheck.userId check)).
Proof.
  intros ctx check.
  destruct (PermissionCheckSchema_run ctx check) as (issues & Hrun & Hissues).
  split; [eauto |]. split.
  - rewrite Hrun. cbn. rewrite <- Hissues.
    destruct issues; intuition (try discriminate; try congruence).
  - intros Hown Hgranted.
    apply hasPermission_own_scoped in Hgranted as (_ & _ & Heq); auto.
Qed.

(** ** Further properties of the order number *)

Lemma digits_value_fold (l : list ascii) :
  JS.digits_value l = fold_left digit_step l 0.
Proof. reflexivity. Qed.

Lemma of_uint_acc_fold (d : Decimal.uint) (acc : positive) :
  Z.pos (Pos.of_uint_acc d acc)
  = fold_left digit_step
      (list_ascii_of_string (NilEmpty.string_of_uint d)) (Z.pos acc).
Proof.
  revert acc. induction d; intros acc;
    cbn [Pos.of_uint_acc NilEmpty.string_of_uint list_ascii_of_string
         fold_left];
    [reflexivity | rewrite IHd; f_equal; unfold digit_step;
       match goal with
       | |- context [Z.of_nat (nat_of_ascii ?c)] =>
           let v := eval vm_compute in (Z.of_nat (nat_of_ascii c)) in
           change (Z.of_nat (nat_of_ascii c)) with v
       end; lia ..].
Qed.

Lemma of_uint_fold (d : Decimal.uint) :
  Z.of_N (Pos.of_uint d)
  = JS.digits_value (list_ascii_of_string (NilEmpty.string_of_uint d)).
Proof.
  rewrite digits_value_fold.
  induction d; cbn [Pos.of_uint NilEmpty.string_of_uint list_ascii_of_string
                    fold_left];
    [reflexivity | exact IHd
     | cbn [Z.of_N]; rewrite of_uint_acc_fold; reflexivity ..].
Qed.

Lemma String_int_pos (p : positive) :
  JS.String_int (Z.pos p) = NilEmpty.string_of_uint (Pos.to_uint p).
Proof.
  unfold JS.String_int. cbn [Z.to_int NilZero.string_of_int].
  pose proof (DecimalPos.Unsigned.to_uint_nonnil p) as Hnil.
  destruct (Pos.to_uint p); [contradiction | reflexivity ..].
Qed.

(** Reading the digits of [String(n)] gives [n] back. *)
Lemma digits_value_String_int (n : Z) :
  0 <= n -> JS.digits_value (list_ascii_of_string (JS.String_int n)) = n.
Proof.
  intros Hn. destruct n as [| p | p]; [reflexivity | | lia].
  rewrite String_int_pos, <- of_uint_fold, DecimalPos.Unsigned.of_to.
  reflexivity.
Qed.

Lemma string_of_uint_digits (d : Decimal.uint) :
  forallb JS.is_digit (list_ascii_of_string (NilEmpty.string_of_uint d)) = true.
Proof. induction d; [reflexivity | exact IHd ..]. Qed.

Lemma String_int_digits (n : Z) :
  0 <= n -> forallb JS.is_digit (list_ascii_of_string (JS.String_int n)) = true.
Proof.
  intros Hn. destruct n as [| p | p]; [reflexivity | | lia].
  rewrite String_int_pos. apply string_of_uint_digits.
Qed.

Lemma list_ascii_of_string_app (s1 s2 : string) :
  list_ascii_of_string (s1 +:+ s2)
  = list_ascii_of_string s1 ++ list_ascii_of_string s2.
Proof.
  induction s1 as [| c s1 IH]; [reflexivity |].
  change (c :: list_ascii_of_string (s1 +:+ s2)
          = c :: (list_ascii_of_string s1 ++ list_ascii_of_string s2)).
  rewrite IH. reflexivity.
Qed.

Lemma length_list_ascii (s : string) :
  length (list_ascii_of_string s) = String.length s.
Proof. induction s as [| c s IH]; [reflexivity | cbn; rewrite IH; reflexivity]. Qed.

Lemma fill_zero (k : nat) (rest : string) :
  rest = "0" \/ rest = "" ->
  list_ascii_of_string (JS.fill k rest "0") = replicate k "0"%char.
Proof.
  revert rest. induction k as [| k IH]; intros rest Hrest; [reflexivity |].
  destruct Hrest as [-> | ->]; cbn; rewrite IH; auto.
Qed.

Lemma digits_value_zeros (k : nat) (l : list ascii) :
  JS.digits_value (replicate k "0"%char ++ l) = JS.digits_value l.
Proof.
  rewrite !digits_value_fold, fold_left_app.
  replace (fold_left digit_step (replicate k "0"%char) 0) with 0; [reflexivity |].
  induction k as [| k IH]; [reflexivity | exact IH].
Qed.

Lemma padStart_zero (s : string) (width : nat) :
  list_ascii_of_string (JS.padStart s width "0")
  = replicate (width - String.length s) "0"%char ++ list_ascii_of_string s.
Proof.
  unfold JS.padStart. destruct (width <=? String.length s)%nat eqn:Hlen.
  - apply Nat.leb_le in Hlen.
    replace (width - String.length s)%nat with 0%nat by lia. reflexivity.
  - rewrite list_ascii_of_string_app, fill_zero; auto.
Qed.

(** A number padded with zeros still reads as the number. *)
Lemma digits_value_padStart (n : Z) (width : nat) :
  0 <= n ->
  JS.digits_value
    (list_ascii_of_string (JS.padStart (JS.String_int n) width "0")) = n.
Proof.
  intros Hn. rewrite padStart_zero, digits_value_zeros.
  apply digits_value_String_int, Hn.
Qed.

Lemma append_inj_length (a b x y : string) :
  String.length a = String.length b -> a +:+ x = b +:+ y -> a = b /\ x = y.
Proof.
  revert b. induction a as [| c a IH]; intros [| c' b] Hlen Heq;
    try discriminate Hlen.
  - auto.
  - change (String c (a +:+ x) = String c' (b +:+ y)) in Heq.
    injection Heq as -> Heq. injection Hlen as Hlen.
    destruct (IH b Hlen Heq) as [-> ->]. auto.
Qed.

Lemma append_length (s1 s2 : string) :
  String.length (s1 +:+ s2) = (String.length s1 + String.length s2)%nat.
Proof.
  rewrite <- !length_list_ascii, list_ascii_of_string_app. apply length_app.
Qed.

Lemma padStart_length (s : string) (width : nat) :
  String.length (JS.padStart s width "0") = Nat.max width (String.length s).
Proof.
  rewrite <- (length_list_ascii (JS.padStart s width "0")), padStart_zero,
    length_app, length_replicate, length_list_ascii.
  lia.
Qed.

Lemma padStart_digits (s : string) (width : nat) :
  forallb JS.is_digit (list_ascii_of_string s) = true ->
  forallb JS.is_digit (list_ascii_of_string (JS.padStart s width "0")) = true.
Proof.
  intros Hs. rewrite padStart_zero, forallb_app, Hs, andb_true_r.
  induction (width - String.length s)%nat as [| k IH]; [reflexivity | exact IH].
Qed.





(** ** Further properties of the status machine *)

Lemma reachable_DRAFT (status : string) :
  reachable status "DRAFT" -> status = "DRAFT".
Proof.
  inversion 1 as [| ? status2 ? _ Hstep]; [reflexivity |]. subst.
  apply validateStatusTransition_true_iff in Hstep.
  destruct Hstep as [[_ Heq] | [[_ Heq] | [[_ Heq] | [[_ Heq] | [_ Heq]]]]];
    congruence.
Qed.

Lemma reachable_from_TERKIRIM (status : string) :
  reachable "TERKIRIM" status -> status = "TERKIRIM".
Proof.
  intros Hpath. remember "TERKIRIM" as start eqn:Hstart.
  induction Hpath as [| status1 status2 status3 _ IH Hstep]; [reflexivity |].
  specialize (IH Hstart). subst.
  apply validateStatusTransition_true_iff in Hstep.
  destruct Hstep as [[Heq _] | [[Heq _] | [[Heq _] | [[Heq _] | [Heq _]]]]];
    congruence.
Qed.

Lemma transition_target (status1 status2 : string) :
  transition status1 status2 -> status1 ∈ statuses /\ status2 ∈ statuses.
Proof.
  intros Hstep. apply validateStatusTransition_true_iff in Hstep.
  unfold statuses. rewrite !elem_of_cons.
  destruct Hstep as [[-> ->] | [[-> ->] | [[-> ->] | [[-> ->] | [-> ->]]]]];
    auto 10.
Qed.

(** X16. Histories of legal status changes: no status follows itself;
    DRAFT is never entered again; nothing follows TERKIRIM; a history
    that starts at one of the four statuses stays among them, where
    [validateStatusTransition] never throws; from every other status
    TERKIRIM can still be reached; and DISETUJUI and TIDAK_TERKIRIM can
    alternate without end. *)
Theorem status_histories :
  (forall status, ~ transition status status)
  /\ (forall status, reachable status "DRAFT" -> status = "DRAFT")
  /\ (forall status, reachable "TERKIRIM" status -> status = "TERKIRIM")
  /\ (forall status1 status2,
         reachable status1 status2 -> status1 ∈ statuses ->
         status2 ∈ statuses
         /\ forall newStatus, exists answer,
              validateStatusTransition status2 newStatus = JS.Normal answer)
  /\ (forall status,
         status ∈ ["DRAFT"; "DISETUJUI"; "TIDAK_TERKIRIM"] ->
         reachable status "TERKIRIM")
  /\ reachable "DISETUJUI" "TIDAK_TERKIRIM"
  /\ reachable "TIDAK_TERKIRIM" "DISETUJUI".
Proof.
  assert (transition "DRAFT" "DISETUJUI") as Happrove by reflexivity.
  assert (transition "DISETUJUI" "TERKIRIM") as Hdeliver by reflexivity.
  assert (transition "DISETUJUI" "TIDAK_TERKIRIM") as Hfail by reflexivity.
  assert (transition "TIDAK_TERKIRIM" "DISETUJUI") as Hagain by reflexivity.
  split; [| split; [| split; [| split; [| split; [| split]]]]].
  - intros status Hstep. apply validateStatusTransition_true_iff in Hstep.
    destruct Hstep as [[-> ?] | [[-> ?] | [[-> ?] | [[-> ?] | [-> ?]]]]];
      discriminate.
  - apply reachable_DRAFT.
  - apply reachable_from_TERKIRIM.
  - intros status1 status2 Hpath Hstatus1.
    assert (status2 ∈ statuses) as Hstatus2.
    { destruct Hpath as [| ? ? ? _ Hstep]; [assumption |].
      apply transition_target in Hstep. tauto. }
    split; [exact Hstatus2 |]. intros newStatus.
    unfold statuses in Hstatus2. rewrite !elem_of_cons, elem_of_nil in Hstatus2.
    destruct Hstatus2 as [-> | [-> | [-> | [-> | []]]]]; vm_compute; eauto.
  - intros status. rewrite !elem_of_cons, elem_of_nil.
    intros [-> | [-> | [-> | []]]].
    + eapply reachable_step; [eapply reachable_step; [apply reachable_refl |] |];
        eassumption.
    + eapply reachable_step; [apply reachable_refl | assumption].
    + eapply reachable_step; [eapply reachable_step; [apply reachable_refl |] |];
        eassumption.
  - eapply reachable_step; [apply reachable_refl | assumption].
  - eapply reachable_step; [apply reachable_refl | assumption].
Qed.

Section status_reports.
Context `{z.Host}.

Lemma status_base_issues_clean ctx request :
  transitionIssue ctx ∉ status_base_issues ctx request.
Proof.
  unfold status_base_issues. rewrite !elem_of_app.
  intros [Hin | [Hin | Hin]];
    destruct (_ : bool); cbn in Hin;
    rewrite ?list_elem_of_singleton, ?elem_of_nil in Hin;
    solve [destruct Hin | discriminate Hin].
Qed.

Lemma UpdateOrderStatusSchema_run ctx (request : UpdateStatus.input) :
  UpdateOrderStatusSchema ctx request
  = if validDeliveryDate (UpdateStatus.deliveryDate' request)
    then z.Returned
           (status_base_issues ctx request
            ++ z.when_not
                 (legalTransition (UpdateStatus.currentStatus' request)
                    (UpdateStatus.newStatus' request))
                 (transitionIssue ctx))
           (Some (status_data request))
    else z.Returned (status_base_issues ctx request) None.
Proof.
  unfold UpdateOrderStatusSchema, z.refine, z.field, commonValidations_id.
  rewrite optional_nullable_trim_run, optional_string_run, optional_trim_run.
  destruct request as [id currentStatus newStatus reason deliveryDate userId
                         userName notes].
  unfold status_data, transitionIssue, status_base_issues.
  cbn [UpdateStatus.id' UpdateStatus.userId' UpdateStatus.deliveryDate'
       UpdateStatus.currentStatus' UpdateStatus.newStatus'
       UpdateStatus.rejectionReason' UpdateStatus.userName' UpdateStatus.notes'].
  unfold z.string, z.string_checks, z.enum, z.OK.
  destruct (z.isUuid id), (z.isUuid userId);
    destruct deliveryDate as [[| time] |];
    try (unfold z.nullable, z.optional, z.date;
         destruct (JS.isNaN time) eqn:Htime);
    cbn -[validateStatusTransition]; rewrite ?validateStatusTransition_enum;
    rewrite ?Htime; reflexivity.
Qed.

End status_reports.

(** X17. [UpdateOrderStatusSchema] never throws.  It returns no request
    exactly when the delivery date is an invalid date, and it reports
    "Transisi status tidak valid" at [newStatus] exactly when the delivery
    date is valid and the transition is not one of the five edges: an
    illegal transition goes unreported beside an invalid date.  A change to
    the same status, out of TERKIRIM or into DRAFT is never accepted. *)
Theorem UpdateOrderStatusSchema_reports `{z.Host} (ctx : list z.key)
    (request : UpdateStatus.input) :
  (exists issues parsed,
      UpdateOrderStatusSchema ctx request = z.Returned issues parsed
      /\ (parsed = None <->
          validDeliveryDate (UpdateStatus.deliveryDate' request) = false)
      /\ (transitionIssue ctx ∈ issues <->
          validDeliveryDate (UpdateStatus.deliveryDate' request) = true
          /\ validateStatusTransition
               (OrderStatus_value (UpdateStatus.currentStatus' request))
               (OrderStatus_value (UpdateStatus.newStatus' request))
             = JS.Normal false))
  /\ (UpdateStatus.currentStatus' request = UpdateStatus.newStatus' request
      \/ UpdateStatus.currentStatus' request = TERKIRIM
      \/ UpdateStatus.newStatus' request = DRAFT ->
      z.success (UpdateOrderStatusSchema ctx request) = false).
Proof.
  split.
  - rewrite UpdateOrderStatusSchema_run.
    pose proof (status_base_issues_clean ctx request) as Hfresh.
    destruct (validDeliveryDate _); eexists _, _; (split; [reflexivity |]);
      rewrite validateStatusTransition_enum, Normal_eq_iff;
      fold (legalTransition (UpdateStatus.currentStatus' request)
              (UpdateStatus.newStatus' request)).
    + split; [split; discriminate |].
      rewrite elem_of_app. destruct (legalTransition _ _); cbn.
      * rewrite elem_of_nil. intuition discriminate.
      * rewrite list_elem_of_singleton. intuition.
    + split; [split; reflexivity |]. intuition discriminate.
  - intros Hsame. apply not_true_is_false.
    rewrite UpdateOrderStatusSchema_success, validateStatusTransition_enum.
    intros (_ & _ & _ & Hlegal).
    destruct (UpdateStatus.currentStatus' request),
      (UpdateStatus.newStatus' request);
      destruct Hsame as [? | [? | ?]]; congruence.
Qed.

(** ** Further properties of the decimal properties *)

Lemma strip_zeros_spec (fuel : nat) :
  forall m e s e',
    JS.strip_zeros fuel m e = (s, e') -> 0 < m ->
    e <= e' /\ m = s * 10 ^ (e' - e) /\ 0 < s.
Proof.
  induction fuel as [| fuel IH]; intros m e s e' Hrun Hm; cbn in Hrun.
  - injection Hrun as <- <-. rewrite Z.sub_diag. lia.
  - destruct (m mod 10 =? 0) eqn:Hmod.
    + apply Z.eqb_eq in Hmod.
      assert (m = 10 * (m / 10)) as Hdiv
        by (pose proof (Z.div_mod m 10); lia).
      apply IH in Hrun as (He & Hs & Hpos); [| lia].
      split; [lia |]. split; [| exact Hpos].
      replace (e' - e) with (Z.succ (e' - (e + 1))) by lia.
      rewrite Z.pow_succ_r by lia. lia.
    + injection Hrun as <- <-. rewrite Z.sub_diag. lia.
Qed.

Lemma strip_zeros_normal (fuel : nat) :
  forall m e s e',
    JS.strip_zeros fuel m e = (s, e') -> 0 < m ->
    Z.log2 m < Z.of_nat fuel -> s mod 10 <> 0.
Proof.
  induction fuel as [| fuel IH]; intros m e s e' Hrun Hm Hfuel; cbn in Hrun.
  - pose proof (Z.log2_nonneg m). lia.
  - destruct (m mod 10 =? 0) eqn:Hmod.
    + apply Z.eqb_eq in Hmod.
      assert (m = 10 * (m / 10)) as Hdiv
        by (pose proof (Z.div_mod m 10); lia).
      apply IH in Hrun; [exact Hrun | lia |].
      assert (Z.log2 (2 * (m / 10)) <= Z.log2 m)
        by (apply Z.log2_le_mono; lia).
      rewrite Z.log2_double in H by lia. lia.
    + injection Hrun as <- <-. apply Z.eqb_neq in Hmod. exact Hmod.
Qed.

Lemma is_digit_value (c : ascii) :
  JS.is_digit c = true -> 0 <= Z.of_nat (nat_of_ascii c) - 48 <= 9.
Proof.
  unfold JS.is_digit. cbn zeta. rewrite andb_true_iff, !Nat.leb_le. lia.
Qed.

Lemma pow10_succ (n : nat) : 10 ^ Z.of_nat (S n) = 10 * 10 ^ Z.of_nat n.
Proof. rewrite Nat2Z.inj_succ, Z.pow_succ_r by lia. reflexivity. Qed.

Lemma pow10_pos (a : Z) : 0 <= a -> 0 < 10 ^ a.
Proof. intros Ha. apply Z.pow_pos_nonneg; lia. Qed.

Lemma digits_bounds (l : list ascii) :
  forallb JS.is_digit l = true ->
  forall acc, 0 <= acc ->
    acc * 10 ^ Z.of_nat (length l) <= fold_left digit_step l acc
    < (acc + 1) * 10 ^ Z.of_nat (length l).
Proof.
  induction l as [| c l IH]; intros Hdigits acc Hacc.
  - cbn. lia.
  - cbn [forallb] in Hdigits. apply andb_true_iff in Hdigits as [Hc Hl].
    apply is_digit_value in Hc.
    cbn [fold_left length]. rewrite pow10_succ.
    specialize (IH Hl (digit_step acc c)).
    unfold digit_step in *.
    pose proof (pow10_pos (Z.of_nat (length l)) ltac:(lia)) as HP.
    specialize (IH ltac:(lia)). nia.
Qed.

Lemma to_uint_head (p : positive) :
  match Pos.to_uint p with
  | Decimal.Nil | Decimal.D0 _ => False
  | _ => True
  end.
Proof.
  pose proof (DecimalPos.Unsigned.to_of (Pos.to_uint p)) as Hnorm.
  rewrite DecimalPos.Unsigned.of_to in Hnorm. cbn [N.to_uint] in Hnorm.
  pose proof (DecimalPos.Unsigned.to_uint_nonzero p) as Hzero.
  destruct (Pos.to_uint p) as [| u | | | | | | | | |] eqn:Hp; try exact I.
  - discriminate Hnorm.
  - rewrite DecimalFacts.unorm_D0 in Hnorm. unfold Decimal.unorm in Hnorm.
    destruct (Decimal.nzhead u) eqn:Hhead; try discriminate Hnorm.
    + injection Hnorm as ->. apply Hzero. reflexivity.
    + exact (DecimalFacts.nzhead_nonzero u _ Hhead).
Qed.

(** [String(n)] has as many characters as [n] has digits. *)
Lemma String_int_length (n : Z) :
  0 < n ->
  10 ^ (Z.of_nat (String.length (JS.String_int n)) - 1) <= n
  < 10 ^ Z.of_nat (String.length (JS.String_int n)).
Proof.
  intros Hn. destruct n as [| p | p]; try lia.
  pose proof (digits_value_String_int (Z.pos p) ltac:(lia)) as Hvalue.
  rewrite <- length_list_ascii. rewrite String_int_pos in *.
  pose proof (string_of_uint_digits (Pos.to_uint p)) as Hdigits.
  pose proof (to_uint_head p) as Hhead.
  rewrite digits_value_fold in Hvalue.
  destruct (Pos.to_uint p) eqn:Hp; try contradiction;
    cbn [NilEmpty.string_of_uint list_ascii_of_string fold_left length forallb]
      in *;
    apply andb_true_iff in Hdigits as [_ Hdigits];
    match type of Hvalue with
    | fold_left _ ?l ?acc = _ =>
        let v := eval vm_compute in acc in
        change acc with v in Hvalue;
        pose proof (digits_bounds l Hdigits v ltac:(lia)) as Hbounds
    end;
    rewrite Hvalue in Hbounds; rewrite pow10_succ;
    replace (Z.of_nat (S (length (list_ascii_of_string
                                    (NilEmpty.string_of_uint u)))) - 1)
      with (Z.of_nat (length (list_ascii_of_string
                                (NilEmpty.string_of_uint u)))) by lia;
    lia.
Qed.

Lemma split_list_none (sep : ascii) (l cur : list ascii) :
  forallb (fun c => negb (Ascii.eqb c sep)) l = true ->
  JS.split_list sep cur l = [string_of_list_ascii (rev cur ++ l)].
Proof.
  revert cur. induction l as [| c l IH]; intros cur Hl; cbn.
  - rewrite app_nil_r. reflexivity.
  - cbn in Hl. apply andb_true_iff in Hl as [Hc Hl].
    apply negb_true_iff in Hc. rewrite Hc, IH by exact Hl.
    cbn [rev]. rewrite <- app_assoc. reflexivity.
Qed.

Lemma split_list_one (sep : ascii) (l1 l2 cur : list ascii) :
  forallb (fun c => negb (Ascii.eqb c sep)) l1 = true ->
  JS.split_list sep cur (l1 ++ sep :: l2)
  = string_of_list_ascii (rev cur ++ l1) :: JS.split_list sep [] l2.
Proof.
  revert cur. induction l1 as [| c l1 IH]; intros cur Hl; cbn.
  - rewrite Ascii.eqb_refl, app_nil_r. reflexivity.
  - cbn in Hl. apply andb_true_iff in Hl as [Hc Hl].
    apply negb_true_iff in Hc. rewrite Hc, IH by exact Hl.
    cbn [rev]. rewrite <- app_assoc. reflexivity.
Qed.

Lemma digits_no_point (l : list ascii) :
  forallb JS.is_digit l = true ->
  forallb (fun c => negb (Ascii.eqb c ".")) l = true.
Proof.
  rewrite !forallb_forall. intros Hl c Hc. specialize (Hl c Hc).
  apply negb_true_iff, Ascii.eqb_neq. intros ->. discriminate Hl.
Qed.

Lemma split_digits (s : string) :
  forallb JS.is_digit (list_ascii_of_string s) = true ->
  JS.split s "." = [s].
Proof.
  intros Hs. unfold JS.split.
  rewrite split_list_none by (apply digits_no_point, Hs).
  cbn [rev app]. rewrite string_of_list_ascii_of_string. reflexivity.
Qed.

Lemma split_point (s1 s2 : string) :
  forallb JS.is_digit (list_ascii_of_string s1) = true ->
  forallb JS.is_digit (list_ascii_of_string s2) = true ->
  JS.split (s1 +:+ "." +:+ s2) "." = [s1; s2].
Proof.
  intros Hs1 Hs2. unfold JS.split.
  rewrite !list_ascii_of_string_app. cbn [list_ascii_of_string app].
  rewrite split_list_one by (apply digits_no_point, Hs1).
  rewrite split_list_none by (apply digits_no_point, Hs2).
  cbn [rev app]. rewrite !string_of_list_ascii_of_string. reflexivity.
Qed.

Lemma substring_chars (s : string) :
  forall n m,
    list_ascii_of_string (substring n m s)
    = take m (drop n (list_ascii_of_string s)).
Proof.
  induction s as [| c s IH]; intros [| n] [| m]; cbn; try reflexivity.
  - rewrite IH. reflexivity.
  - rewrite IH. reflexivity.
  - rewrite IH. reflexivity.
Qed.

Lemma forallb_take {A} (f : A -> bool) (n : nat) (l : list A) :
  forallb f l = true -> forallb f (take n l) = true.
Proof.
  rewrite !forallb_forall. intros Hl x Hx. apply Hl.
  apply list_elem_of_In. apply list_elem_of_In in Hx.
  exact (subseteq_take n l x Hx).
Qed.

Lemma forallb_drop {A} (f : A -> bool) (n : nat) (l : list A) :
  forallb f l = true -> forallb f (drop n l) = true.
Proof.
  rewrite !forallb_forall. intros Hl x Hx. apply Hl.
  apply list_elem_of_In. apply list_elem_of_In in Hx.
  exact (subseteq_drop n l x Hx).
Qed.

Lemma substring_digits (s : string) (n m : nat) :
  forallb JS.is_digit (list_ascii_of_string s) = true ->
  forallb JS.is_digit (list_ascii_of_string (substring n m s)) = true.
Proof.
  intros Hs. rewrite substring_chars. apply forallb_take, forallb_drop, Hs.
Qed.

Lemma substring_length (s : string) (n m : nat) :
  (n + m <= String.length s)%nat -> String.length (substring n m s) = m.
Proof.
  intros Hlen. rewrite <- !length_list_ascii in *.
  rewrite substring_chars, length_take, length_drop. lia.
Qed.

Lemma zeros_chars (n : Z) :
  list_ascii_of_string (JS.zeros n) = replicate (Z.to_nat n) "0"%char.
Proof. unfold JS.zeros. apply fill_zero. auto. Qed.

Lemma zeros_digits (n : Z) :
  forallb JS.is_digit (list_ascii_of_string (JS.zeros n)) = true.
Proof.
  rewrite zeros_chars. induction (Z.to_nat n) as [| k IH]; [reflexivity | exact IH].
Qed.

Lemma zeros_length (n : Z) : String.length (JS.zeros n) = Z.to_nat n.
Proof. rewrite <- length_list_ascii, zeros_chars. apply length_replicate. Qed.

Lemma append_digits (s1 s2 : string) :
  forallb JS.is_digit (list_ascii_of_string s1) = true ->
  forallb JS.is_digit (list_ascii_of_string s2) = true ->
  forallb JS.is_digit (list_ascii_of_string (s1 +:+ s2)) = true.
Proof.
  intros H1 H2. rewrite list_ascii_of_string_app, forallb_app, H1, H2.
  reflexivity.
Qed.

Lemma fits_whole maxDigits decimalPlaces (val : JS.number) (s : string) :
  JS.split (JS.toString val) "." = [s] ->
  decimal_fits maxDigits decimalPlaces val
  = (Z.of_nat (String.length s) <=? maxDigits - decimalPlaces).
Proof. unfold decimal_fits. intros ->. cbn. apply andb_true_r. Qed.

Lemma fits_fraction maxDigits decimalPlaces (val : JS.number) (s1 s2 : string) :
  0 <= decimalPlaces ->
  JS.split (JS.toString val) "." = [s1; s2] ->
  decimal_fits maxDigits decimalPlaces val
  = (Z.of_nat (String.length s1) <=? maxDigits - decimalPlaces)
    && (Z.of_nat (String.length s2) <=? decimalPlaces).
Proof.
  unfold decimal_fits. intros Hplaces ->. cbn. f_equal.
  destruct s2; [| reflexivity]. cbn. symmetry. apply Z.leb_le. lia.
Qed.

(** The digit check on a positive number that prints in plain notation:
    with [s] its digits without trailing zeros and [s * 10^e'] its value,
    the integer part has [k + e'] characters (one when that is not
    positive) and the fraction [- e']. *)
Lemma fits_plain maxDigits decimalPlaces (m e s e' : Z) :
  0 < m -> 0 <= decimalPlaces ->
  JS.strip_zeros (S (Z.to_nat (Z.log2 m))) m e = (s, e') ->
  -6 < Z.of_nat (String.length (JS.String_int s)) + e' <= 21 ->
  decimal_fits maxDigits decimalPlaces (JS.Dec m e)
  = (Z.max (Z.of_nat (String.length (JS.String_int s)) + e') 1
     <=? maxDigits - decimalPlaces)
    && (- e' <=? decimalPlaces).
Proof.
  intros Hm Hplaces Hstrip Hn.
  destruct (strip_zeros_spec _ _ _ _ _ Hstrip Hm) as (He & Hs & Hpos).
  pose proof (String_int_digits s ltac:(lia)) as Hdigits.
  pose proof (String_int_length s Hpos) as Hlength.
  assert (1 <= Z.of_nat (String.length (JS.String_int s))) as Hk.
  { destruct (String.length (JS.String_int s)); [cbn in Hlength; lia | lia]. }
  assert (JS.toString (JS.Dec m e) = JS.toString_pos m e) as Hstring.
  { unfold JS.toString.
    destruct (m =? 0) eqn:H0; [apply Z.eqb_eq in H0; lia |].
    destruct (m <? 0) eqn:Hneg; [apply Z.ltb_lt in Hneg; lia | reflexivity]. }
  unfold JS.toString_pos in Hstring. rewrite Hstrip in Hstring.
  cbn zeta in Hstring.
  set (digits := JS.String_int s) in *.
  set (k := Z.of_nat (String.length digits)) in *.
  destruct ((k <=? k + e') && (k + e' <=? 21)) eqn:Hwhole.
  - apply andb_true_iff in Hwhole as [Hwhole _]. apply Z.leb_le in Hwhole.
    rewrite (fits_whole _ _ _ (digits +:+ JS.zeros (k + e' - k))).
    2:{ rewrite Hstring. apply split_digits, append_digits;
          [exact Hdigits | apply zeros_digits]. }
    rewrite append_length, zeros_length.
    replace (- e' <=? decimalPlaces) with true by (symmetry; apply Z.leb_le; lia).
    rewrite andb_true_r. f_equal. fold k. lia.
  - assert (e' < 0) as Hnegative.
    { apply andb_false_iff in Hwhole as [Hwhole | Hwhole];
        [apply Z.leb_gt in Hwhole | apply Z.leb_gt in Hwhole]; lia. }
    destruct ((0 <? k + e') && (k + e' <=? 21)) eqn:Hpoint.
    + apply andb_true_iff in Hpoint as [Hpoint _]. apply Z.ltb_lt in Hpoint.
      rewrite (fits_fraction _ _ _
                 (substring 0 (Z.to_nat (k + e')) digits)
                 (substring (Z.to_nat (k + e'))
                    (Z.to_nat (k - (k + e'))) digits)) by
        (try exact Hplaces; rewrite Hstring; apply split_point;
         apply substring_digits, Hdigits).
      rewrite !substring_length by (fold k; lia).
      f_equal; f_equal; lia.
    + assert (k + e' <= 0) as Hsmall.
      { apply andb_false_iff in Hpoint as [Hpoint | Hpoint];
          [apply Z.ltb_ge in Hpoint | apply Z.leb_gt in Hpoint]; lia. }
      replace ((-6 <? k + e') && (k + e' <=? 0)) with true in Hstring
        by (symmetry; apply andb_true_iff; split;
            [apply Z.ltb_lt | apply Z.leb_le]; lia).
      rewrite (fits_fraction _ _ _ "0" (JS.zeros (- (k + e')) +:+ digits));
        [| exact Hplaces |].
      2:{ rewrite Hstring.
          change ("0." +:+ JS.zeros (- (k + e')) +:+ digits)
            with ("0" +:+ "." +:+ (JS.zeros (- (k + e')) +:+ digits)).
          apply split_point; [reflexivity |].
          apply append_digits; [apply zeros_digits | exact Hdigits]. }
      rewrite append_length, zeros_length. fold k.
      f_equal; f_equal; cbn; lia.
Qed.

Lemma ge_zero (m e : Z) : JS.ge (JS.Dec m e) (JS.num 0) = (0 <=? m).
Proof.
  unfold JS.ge, JS.le, JS.num, JS.compare, JS.compare_dec.
  pose proof (pow10_pos (e - Z.min 0 e) ltac:(lia)) as HP.
  rewrite Z.mul_0_l. generalize dependent (10 ^ (e - Z.min 0 e)). intros P HP.
  pose proof (Z.mul_nonneg_cancel_r m P HP) as Hsign.
  destruct (0 ?= m * P) eqn:Hcmp; symmetry.
  - apply Z.compare_eq in Hcmp. apply Z.leb_le, Hsign. lia.
  - change (0 < m * P) in Hcmp. apply Z.leb_le, Hsign. lia.
  - rewrite Z.compare_gt_iff in Hcmp. apply Z.leb_gt.
    destruct (Z_lt_le_dec m 0) as [| Hm]; [assumption |].
    apply Hsign in Hm. lia.
Qed.

Section decimal_acceptance.
Context `{z.Host}.

(** What [decimalSchema] accepts: a value that reads as a number, is not
    negative, and passes the digit check. *)
Lemma decimalSchema_success maxDigits decimalPlaces message ctx x :
  z.success (decimalSchema maxDigits decimalPlaces message ctx x)
  = negb (JS.isNaN (decimal_value x))
    && JS.ge (decimal_value x) (JS.num 0)
    && decimal_fits maxDigits decimalPlaces (decimal_value x).
Proof.
  unfold decimalSchema, z.refine, z.transform, z.union, z.string, z.number.
  destruct x as [s | n]; cbn.
  - destruct (JS.isNaN (z.parseFloat s)); cbn; [reflexivity |].
    destruct (JS.ge _ _); cbn; [| reflexivity].
    fold (decimal_fits maxDigits decimalPlaces (z.parseFloat s)).
    destruct (decimal_fits _ _ _); reflexivity.
  - destruct (JS.isNaN n); cbn; [reflexivity |].
    destruct (JS.ge _ _); cbn; [| reflexivity].
    fold (decimal_fits maxDigits decimalPlaces n).
    destruct (decimal_fits _ _ _); reflexivity.
Qed.

End decimal_acceptance.

Lemma digits_window (s k a : Z) :
  1 <= k -> 0 <= a -> 10 ^ (k - 1) <= s < 10 ^ k ->
  10 ^ (k - 1 + a) <= s * 10 ^ a < 10 ^ (k + a).
Proof.
  intros Hk Ha Hs. rewrite !Z.pow_add_r by lia.
  pose proof (pow10_pos a Ha). nia.
Qed.

Lemma below_power (m n b : Z) :
  0 <= b -> 10 ^ (n - 1) <= m < 10 ^ n -> (m < 10 ^ b <-> n <= b).
Proof.
  intros Hb Hm. split.
  - intros Hlt. assert (10 ^ (n - 1) < 10 ^ b) as Hpow by lia.
    apply Z.pow_lt_mono_r_iff in Hpow; lia.
  - intros Hle. assert (10 ^ n <= 10 ^ b) by (apply Z.pow_le_mono_r; lia). lia.
Qed.

Lemma decimals_needed (m s a q places : Z) :
  0 <= a -> 0 <= places -> m = s * 10 ^ a -> s mod 10 <> 0 ->
  (q - a <= places <-> q <= places \/ m mod 10 ^ (q - places) = 0).
Proof.
  intros Ha Hplaces -> Hs. split.
  - intros Hfits. destruct (Z_le_gt_dec q places) as [| Hgt]; [auto | right].
    replace a with ((a - (q - places)) + (q - places)) by lia.
    rewrite Z.pow_add_r, Z.mul_assoc by lia. apply Z.mod_mul.
    pose proof (pow10_pos (q - places) ltac:(lia)). lia.
  - intros [Hle | Hmod]; [lia |].
    destruct (Z_le_gt_dec (q - a) places) as [| Hgt]; [assumption | exfalso].
    apply Hs.
    pose proof (pow10_pos (q - places) ltac:(lia)) as Hpos.
    apply Z.mod_divide in Hmod; [| lia]. destruct Hmod as [c Hc].
    replace (q - places) with (Z.succ (q - places - a - 1) + a) in Hc by lia.
    rewrite Z.pow_add_r, Z.pow_succ_r, Z.mul_assoc in Hc by lia.
    pose proof (pow10_pos a Ha) as Hposa.
    apply Z.mul_cancel_r in Hc; [| lia]. rewrite Hc.
    rewrite (Z.mul_comm c), <- Z.mul_assoc, Z.mul_comm. apply Z.mod_mul. lia.
Qed.

(** X18. On an amount [m / 10^q] of at most 15 digits and 6 decimals,
    given as a number or as a string that [parseFloat] reads as it,
    [decimalSchema(maxDigits, decimalPlaces)] accepts exactly the amounts
    below [10^(maxDigits - decimalPlaces)] that need no more than
    [decimalPlaces] decimals. *)
Theorem decimalSchema_plain_amounts `{z.Host} (maxDigits decimalPlaces : Z)
    (message : option string) (ctx : list z.key) (x : string + JS.number)
    (m q : Z) :
  0 <= decimalPlaces -> 1 <= maxDigits - decimalPlaces ->
  0 <= q <= 6 -> 0 <= m < 10 ^ 15 ->
  decimal_value x = JS.Dec m (- q) ->
  z.success (decimalSchema maxDigits decimalPlaces message ctx x) = true <->
  m < 10 ^ (maxDigits - decimalPlaces + q)
  /\ (q <= decimalPlaces \/ m mod 10 ^ (q - decimalPlaces) = 0).
Proof.
  intros Hplaces Hdigits Hq Hm Hx.
  rewrite decimalSchema_success, Hx, ge_zero.
  replace (0 <=? m) with true by (symmetry; apply Z.leb_le; lia).
  cbn [JS.isNaN negb andb].
  destruct (Z.eq_dec m 0) as [-> | Hnonzero].
  - rewrite (fits_whole _ _ _ "0") by reflexivity.
    rewrite Z.leb_le, Zmod_0_l.
    pose proof (pow10_pos (maxDigits - decimalPlaces + q) ltac:(lia)).
    cbn. intuition lia.
  - assert (0 < m) as Hpos by lia.
    destruct (JS.strip_zeros (S (Z.to_nat (Z.log2 m))) m (- q)) as [s e']
      eqn:Hstrip.
    destruct (strip_zeros_spec _ _ _ _ _ Hstrip Hpos) as (He & Hs & Hspos).
    assert (s mod 10 <> 0) as Hnormal.
    { apply (strip_zeros_normal _ _ _ _ _ Hstrip Hpos).
      pose proof (Z.log2_nonneg m). lia. }
    pose proof (String_int_length s Hspos) as Hlength.
    set (k := Z.of_nat (String.length (JS.String_int s))) in *.
    assert (1 <= k) as Hk.
    { destruct (Z_le_gt_dec 1 k) as [| Hgt]; [assumption | exfalso].
      assert (k = 0) as Hk0 by lia. rewrite Hk0 in Hlength. cbn in Hlength. lia. }
    replace (e' - - q) with (e' + q) in Hs by lia.
    pose proof (digits_window s k (e' + q) Hk ltac:(lia) Hlength) as Hwindow.
    rewrite <- Hs in Hwindow.
    assert (k + e' + q <= 15) as Hfifteen.
    { assert (10 ^ (k - 1 + (e' + q)) < 10 ^ 15) as Hpow by lia.
      apply Z.pow_lt_mono_r_iff in Hpow; lia. }
    rewrite (fits_plain _ _ _ _ _ _ Hpos Hplaces Hstrip) by (fold k; lia).
    fold k. rewrite andb_true_iff, Z.leb_le, Z.leb_le.
    rewrite (below_power m (k + e' + q) (maxDigits - decimalPlaces + q))
      by (try lia; replace (k + e' + q - 1) with (k - 1 + (e' + q)) by lia;
          replace (k + e' + q) with (k + (e' + q)) by lia; exact Hwindow).
    rewrite <- (decimals_needed m s (e' + q) q decimalPlaces) by (lia || assumption).
    lia.
Qed.

Lemma decimalSchema_plain_amounts_witness :
  (0 <= 2 /\ 1 <= 8 - 2 /\ 0 <= 2 <= 6 /\ 0 <= 99999999 < 10 ^ 15
   /\ @decimal_value Samples.host (inl "999999.99") = JS.Dec 99999999 (- 2))
  /\ (z.success (@decimalSchema Samples.host 8 2
                   (Some "Harga kustom harus valid") [] (inl "999999.99"))
      = true <->
      99999999 < 10 ^ (8 - 2 + 2)
      /\ (2 <= 2 \/ 99999999 mod 10 ^ (2 - 2) = 0)).
Proof.
  split; [repeat split; solve [lia | reflexivity | discriminate] |].
  apply (@decimalSchema_plain_amounts Samples.host 8 2
           (Some "Harga kustom harus valid") [] (inl "999999.99") 99999999 2);
    repeat split; solve [lia | reflexivity | discriminate].
Defined.

Lemma exponent_form_fits maxDigits decimalPlaces digit exponent :
  6 <= maxDigits - decimalPlaces ->
  exponent_form digit exponent = true ->
  decimal_fits maxDigits decimalPlaces (JS.Dec digit exponent) = true.
Proof.
  unfold exponent_form. intros Hdigits Hform.
  destruct (JS.split _ _) as [| s [| ? ?]] eqn:Hsplit; try discriminate Hform.
  rewrite (fits_whole _ _ _ s Hsplit). apply Z.leb_le in Hform.
  apply Z.leb_le. lia.
Qed.

Lemma large_exponent_form (digit exponent : Z) :
  1 <= digit <= 9 -> 21 <= exponent <= 300 ->
  exponent_form digit exponent = true.
Proof.
  intros Hdigit Hexponent.
  apply (checked_on_range (fun d => exponent_form d exponent) 1 9); [| lia].
  apply (checked_on_range
           (fun k => forallb (fun d => exponent_form d k) (seqZ 1 9)) 21 280);
    [vm_compute; reflexivity | lia].
Qed.

Lemma small_exponent_form (digit exponent : Z) :
  1 <= digit <= 9 -> 7 <= exponent <= 300 ->
  exponent_form digit (- exponent) = true.
Proof.
  intros Hdigit Hexponent.
  apply (checked_on_range (fun d => exponent_form d (- exponent)) 1 9); [| lia].
  apply (checked_on_range
           (fun k => forallb (fun d => exponent_form d (- k)) (seqZ 1 9)) 7 294);
    [vm_compute; reflexivity | lia].
Qed.

(** X19. The digit check counts the characters of [toString], so numbers
    that print in exponent notation escape it: with six or more integer
    digits allowed, [decimalSchema] accepts [d * 10^k] for a digit [d] and
    [k] from 21 to 300, far above its ceiling, and [d * 10^-k] for [k]
    from 7 to 300, with more decimals than allowed; with eight or more it
    accepts [Infinity]. *)
Theorem decimalSchema_ceiling_escaped `{z.Host} (maxDigits decimalPlaces : Z)
    (message : option string) (ctx : list z.key) :
  6 <= maxDigits - decimalPlaces ->
  (forall digit exponent x,
      1 <= digit <= 9 -> 21 <= exponent <= 300 ->
      decimal_value x = JS.Dec digit exponent ->
      z.success (decimalSchema maxDigits decimalPlaces message ctx x) = true)
  /\ (forall digit exponent x,
         1 <= digit <= 9 -> 7 <= exponent <= 300 ->
         decimal_value x = JS.Dec digit (- exponent) ->
         z.success (decimalSchema maxDigits decimalPlaces message ctx x) = true)
  /\ (forall x,
         8 <= maxDigits - decimalPlaces ->
         decimal_value x = JS.Infinity false ->
         z.success (decimalSchema maxDigits decimalPlaces message ctx x) = true).
Proof.
  intros Hdigits. split; [| split].
  - intros digit exponent x Hdigit Hexponent Hx.
    rewrite decimalSchema_success, Hx, ge_zero.
    rewrite (exponent_form_fits _ _ _ _ Hdigits
               (large_exponent_form _ _ Hdigit Hexponent)).
    rewrite andb_true_r. apply Z.leb_le. lia.
  - intros digit exponent x Hdigit Hexponent Hx.
    rewrite decimalSchema_success, Hx, ge_zero.
    rewrite (exponent_form_fits _ _ _ _ Hdigits
               (small_exponent_form _ _ Hdigit Hexponent)).
    rewrite andb_true_r. apply Z.leb_le. lia.
  - intros x Hwide Hx.
    rewrite decimalSchema_success, Hx.
    rewrite (fits_whole _ _ _ "Infinity") by reflexivity.
    cbn. apply Z.leb_le. lia.
Qed.

Lemma decimalSchema_ceiling_escaped_witness :
  6 <= 10 - 2
  /\ z.success (@decimalSchema Samples.host 10 2
                  (Some "Nilai diskon harus valid") [] (inl "1e21")) = true
  /\ z.success (@decimalSchema Samples.host 10 2
                  (Some "Nilai diskon harus valid") [] (inl "1e-7")) = true
  /\ z.success (@decimalSchema Samples.host 10 2
                  (Some "Nilai diskon harus valid") [] (inl "Infinity")) = true.
Proof.
  split; [lia |].
  destruct (@decimalSchema_ceiling_escaped Samples.host 10 2
              (Some "Nilai diskon harus valid") [] ltac:(lia))
    as (Hlarge & Hsmall & Hinfinite).
  split; [apply (Hlarge 1 21); solve [lia | reflexivity] |].
  split; [apply (Hsmall 1 7); solve [lia | reflexivity] |].
  apply Hinfinite; solve [lia | reflexivity].
Defined.

(** ** Acceptance of items and orders *)

Lemma success_iff {A} (r : z.result A) :
  z.success r = true <-> exists v, r = z.Returned [] (Some v).
Proof.
  destruct r as [e | [| i issues] [v |]]; cbn; split;
    try discriminate; try (intros [? [=]]); eauto.
Qed.

Lemma refine_pure_clean {I A} (f : A -> bool) message p (s : z.schema I A)
    ctx x v :
  z.refine (fun data => JS.Normal (f data)) message p s ctx x
  = z.Returned [] (Some v) <->
  s ctx x = z.Returned [] (Some v) /\ f v = true.
Proof.
  unfold z.refine. destruct (s ctx x) as [e | issues [w |]].
  - intuition discriminate.
  - destruct issues as [| i issues], (f w) eqn:Hf; cbn; split;
      try (intros [= <-]; auto); try (intros [[= <-] ?]; congruence);
      try discriminate; try (intros [[=] _]).
  - intuition discriminate.
Qed.

Lemma returns_refine_pure {I A} (f : A -> bool) message p (s : z.schema I A)
    ctx x :
  returns (s ctx x) ->
  returns (z.refine (fun data => JS.Normal (f data)) message p s ctx x).
Proof.
  unfold z.refine. intros (issues & [v |] & ->); eexists _, _; reflexivity.
Qed.

Lemma returns_map {A B} (f : A -> B) (r : z.result A) :
  returns r -> returns (f <$> r).
Proof. intros (issues & parsed & ->). eexists _, _. reflexivity. Qed.

Lemma returns_ap {A B} (rf : z.result (A -> B)) (ra : z.result A) :
  returns rf -> returns ra -> returns (rf <*> ra).
Proof.
  intros (issues1 & f & ->) (issues2 & a & ->). eexists _, _. reflexivity.
Qed.

Section item_acceptance.
Context `{z.Host}.

Lemma success_optional_nullable {I O} (s : z.schema I O) (ok : I -> bool)
    ctx x :
  (forall a, z.success (s ctx a) = ok a) ->
  z.success (z.optional (z.nullable s) ctx x)
  = match x with Some (JS.value a) => ok a | _ => true end.
Proof.
  intros Hs. destruct x as [[| a] |]; cbn; try reflexivity.
  rewrite !success_map. apply Hs.
Qed.

Lemma success_quantity message ctx quantity :
  z.success (z.number [z.int; z.positive message] ctx quantity)
  = negb (JS.isNaN quantity) && JS.isInteger quantity
    && negb (JS.le quantity (JS.num 0)).
Proof.
  unfold z.number. destruct (JS.isNaN quantity); [reflexivity |].
  cbn -[JS.le JS.isInteger].
  destruct (JS.isInteger quantity), (JS.le quantity (JS.num 0)); reflexivity.
Qed.

Lemma success_uuid message ctx s :
  z.success (z.string [z.uuid message] ctx s) = z.isUuid s.
Proof. cbn. destruct (z.isUuid s); reflexivity. Qed.

Lemma optional_nullable_enum_run {E} ctx (x : option (JS.nullable E)) :
  z.optional (z.nullable (@z.enum E)) ctx x = z.OK x.
Proof. destruct x as [[| s] |]; reflexivity. Qed.

Lemma default_enum_run {E} (d : E) ctx (x : option E) :
  z.default d z.enum ctx x = z.OK (default d x).
Proof. destruct x; reflexivity. Qed.

Lemma success_array_items_all {I O} (s : z.schema I O) (ok : I -> bool) :
  (forall c x, z.success (s c x) = ok x) ->
  forall data ctx i, z.success (z.array_items s ctx i data) = forallb ok data.
Proof.
  intros Hs. induction data as [| x data IH]; intros ctx i; cbn; [reflexivity |].
  rewrite success_ap, success_map, Hs, IH. reflexivity.
Qed.

Lemma success_array_all {I O} (s : z.schema I O) (ok : I -> bool) minLength
    message ctx data :
  (forall c x, z.success (s c x) = ok x) ->
  z.success (z.array s minLength message ctx data)
  = (minLength <=? length data)%nat && forallb ok data.
Proof.
  intros Hs. unfold z.array.
  rewrite <- (success_array_items_all s ok Hs data ctx 0%nat).
  destruct (z.array_items s ctx 0 data) as [e | issues parsed];
    [cbn; rewrite andb_false_r; reflexivity |].
  destruct (minLength <=? length data)%nat; cbn; [reflexivity |].
  destruct parsed; reflexivity.
Qed.

Lemma item_base_success ctx item :
  z.success (createOrderItemBaseSchema ctx item)
  = z.isUuid (CreateItem.productId' item)
    && (negb (JS.isNaN (CreateItem.quantity' item))
        && JS.isInteger (CreateItem.quantity' item)
        && negb (JS.le (CreateItem.quantity' item) (JS.num 0)))
    && match CreateItem.customPrice' item with
       | Some (JS.value x) => decimal_accepted 8 2 x
       | _ => true
       end
    && decimal_accepted 10 2
         (default (inr (JS.num 0)) (CreateItem.itemDiscountValue' item)).
Proof.
  unfold createOrderItemBaseSchema, z.field, commonValidations_id.
  rewrite !success_ap, success_map, success_uuid, success_quantity.
  rewrite !optional_nullable_trim_run, optional_nullable_enum_run,
    default_enum_run, default_run.
  rewrite (success_optional_nullable _ (decimal_accepted 8 2))
    by (intros; apply decimalSchema_success).
  rewrite decimalSchema_success.
  fold (decimal_accepted 10 2
          (default (inr (JS.num 0)) (CreateItem.itemDiscountValue' item))).
  cbn [z.success z.OK]. rewrite !andb_true_r. reflexivity.
Qed.

Lemma CreateOrderItemSchema_clean ctx (item : CreateItem.input) data :
  CreateOrderItemSchema ctx item = z.Returned [] (Some data) <->
  createOrderItemBaseSchema ctx item = z.Returned [] (Some data)
  /\ customPriceGiven data = true
  /\ customPriceReasonGiven data = true
  /\ itemPercentageBounded data = true.
Proof.
  unfold CreateOrderItemSchema. rewrite !refine_pure_clean. tauto.
Qed.

Lemma item_success_anywhere ctx ctx' (item : CreateItem.input) :
  z.success (CreateOrderItemSchema ctx item)
  = z.success (CreateOrderItemSchema ctx' item).
Proof.
  assert (forall c c',
             z.success (CreateOrderItemSchema c item) = true ->
             z.success (CreateOrderItemSchema c' item) = true) as Hmoves.
  { intros c c' Hhere. apply success_iff in Hhere as [data Hhere].
    apply CreateOrderItemSchema_clean in Hhere as (Hbase & Hchecks).
    pose proof (item_base_Some _ _ _ _ Hbase) as [-> _].
    assert (z.success (createOrderItemBaseSchema c' item) = true) as Hthere.
    { rewrite item_base_success, <- (item_base_success c), Hbase.
      reflexivity. }
    apply success_iff in Hthere as [data Hthere].
    pose proof (item_base_Some _ _ _ _ Hthere) as [-> _].
    apply success_iff. exists (item_data item).
    apply CreateOrderItemSchema_clean. auto. }
  destruct (z.success (CreateOrderItemSchema ctx' item)) eqn:Hthere.
  - apply (Hmoves ctx' ctx), Hthere.
  - apply not_true_is_false. intros Hhere.
    rewrite (Hmoves ctx ctx' Hhere) in Hthere. discriminate Hthere.
Qed.

Lemma create_order_base_success ctx order :
  z.success (createOrderBaseSchema ctx order)
  = z.isUuid (CreateOrder.storeId' order)
    && (z.isUuid (CreateOrder.salesId' order)
        && (1 <=? String.length (CreateOrder.salesId' order))%nat)
    && match CreateOrder.visitId' order with
       | Some (JS.value visitId) => z.isUuid visitId
       | _ => true
       end
    && decimal_accepted 10 2
         (default (inr (JS.num 0)) (CreateOrder.orderDiscountValue' order))
    && ((1 <=? length (CreateOrder.items' order))%nat
        && forallb (fun item => z.success (CreateOrderItemSchema [] item))
             (CreateOrder.items' order)).
Proof.
  unfold createOrderBaseSchema, z.field, commonValidations_id.
  rewrite !success_ap, success_map, success_uuid.
  rewrite !optional_nullable_trim_run, optional_nullable_enum_run, default_run.
  rewrite (success_optional_nullable _ z.isUuid)
    by (intros; apply success_uuid).
  rewrite decimalSchema_success.
  fold (decimal_accepted 10 2
          (default (inr (JS.num 0)) (CreateOrder.orderDiscountValue' order))).
  rewrite (success_array_all CreateOrderItemSchema
             (fun item => z.success (CreateOrderItemSchema [] item)))
    by (intros; apply item_success_anywhere).
  cbn [z.success z.OK]. rewrite !andb_true_r.
  do 4 f_equal. cbn -[Nat.leb].
  destruct (z.isUuid _), (1 <=? _)%nat; reflexivity.
Qed.

End item_acceptance.

(** X20. [CreateOrderItemSchema] accepts an item exactly when its product
    id is a UUID, its quantity a positive integer, its custom price (when
    given and not null) and its discount value pass [decimalSchema(8, 2)]
    and [decimalSchema(10, 2)], a CUSTOM price type comes with a custom
    price above 0 and a reason that is not blank, and a PERCENTAGE discount
    is not above 100. *)
Theorem CreateOrderItemSchema_accepts `{z.Host} (ctx : list z.key)
    (item : CreateItem.input) :
  z.success (CreateOrderItemSchema ctx item) = true <->
  z.isUuid (CreateItem.productId' item) = true
  /\ (JS.isInteger (CreateItem.quantity' item) = true
      /\ JS.gt (CreateItem.quantity' item) (JS.num 0) = true)
  /\ match CreateItem.customPrice' item with
     | Some (JS.value x) => decimal_accepted 8 2 x = true
     | _ => True
     end
  /\ decimal_accepted 10 2
       (default (inr (JS.num 0)) (CreateItem.itemDiscountValue' item)) = true
  /\ (isCustom item = true ->
      givesCustomPrice item = true /\ givesReason item = true)
  /\ percentageAbove100 (CreateItem.itemDiscountType' item)
       (CreateItem.itemDiscountValue' item) = false.
Proof.
  rewrite success_iff. unfold CreateOrderItemSchema.
  setoid_rewrite refine_pure_clean. setoid_rewrite refine_pure_clean.
  setoid_rewrite refine_pure_clean.
  destruct (item_checks_read item) as (Hprice & Hreason & Hbounded).
  assert (forall q, JS.isNaN q = false ->
                    negb (JS.le q (JS.num 0)) = JS.gt q (JS.num 0)) as Hpositive.
  { intros q Hq. rewrite (not_le_gt q (JS.num 0) Hq eq_refl).
    apply negb_involutive. }
  split.
  - intros (data & ((Hbase & Hgiven) & Hwhy) & Hpercentage).
    pose proof (item_base_Some _ _ _ _ Hbase) as [-> Hreadable].
    assert (z.success (createOrderItemBaseSchema ctx item) = true) as Hsuccess
      by (rewrite Hbase; reflexivity).
    rewrite item_base_success in Hsuccess.
    apply andb_true_iff in Hsuccess as [Hsuccess Hvalue].
    apply andb_true_iff in Hsuccess as [Hsuccess Hcustom].
    apply andb_true_iff in Hsuccess as [Hid Hquantity].
    apply andb_true_iff in Hquantity as [Hquantity Hpos].
    apply andb_true_iff in Hquantity as [Hnan Hint].
    apply negb_true_iff in Hnan. rewrite (Hpositive _ Hnan) in Hpos.
    rewrite Hprice in Hgiven. rewrite Hreason in Hwhy.
    rewrite (Hbounded Hreadable) in Hpercentage.
    apply negb_true_iff in Hpercentage.
    repeat split; auto.
    + destruct (CreateItem.customPrice' item) as [[| x] |]; auto.
    + destruct (isCustom item); [exact Hgiven | discriminate].
    + destruct (isCustom item); [exact Hwhy | discriminate].
  - intros (Hid & (Hint & Hpos) & Hcustom & Hvalue & Hrequired & Hpercentage).
    assert (JS.isNaN (CreateItem.quantity' item) = false) as Hnan
      by (destruct (CreateItem.quantity' item); [discriminate Hint | |];
          reflexivity).
    assert (z.success (createOrderItemBaseSchema ctx item) = true) as Hsuccess.
    { rewrite item_base_success, Hid, Hnan, Hint, (Hpositive _ Hnan), Hpos,
        Hvalue.
      destruct (CreateItem.customPrice' item) as [[| x] |];
        rewrite ?Hcustom; reflexivity. }
    apply success_iff in Hsuccess as [data Hbase].
    pose proof (item_base_Some _ _ _ _ Hbase) as [-> Hreadable].
    exists (item_data item).
    rewrite Hprice, Hreason, (Hbounded Hreadable), Hpercentage.
    repeat split; try exact Hbase;
      destruct (isCustom item) eqn:Hcustomised; try reflexivity;
      destruct (Hrequired eq_refl) as [Hgiven Hwhy];
      rewrite ?Hgiven, ?Hwhy; reflexivity.
Qed.

(** X21. [CreateOrderSchema] accepts an order exactly when the store id
    and the sales id are UUIDs (the sales id not empty), the visit id,
    when given and not null, is a UUID, the order discount value passes
    [decimalSchema(10, 2)], there is at least one item and each one is
    accepted by [CreateOrderItemSchema] (at any path), a PERCENTAGE order
    discount is not above 100, and no product comes twice. *)
Theorem CreateOrderSchema_accepts `{z.Host} (ctx : list z.key)
    (order : CreateOrder.input) :
  z.success (CreateOrderSchema ctx order) = true <->
  z.isUuid (CreateOrder.storeId' order) = true
  /\ (z.isUuid (CreateOrder.salesId' order) = true
      /\ CreateOrder.salesId' order <> "")
  /\ match CreateOrder.visitId' order with
     | Some (JS.value visitId) => z.isUuid visitId = true
     | _ => True
     end
  /\ decimal_accepted 10 2
       (default (inr (JS.num 0)) (CreateOrder.orderDiscountValue' order)) = true
  /\ CreateOrder.items' order <> []
  /\ (forall item path,
         item ∈ CreateOrder.items' order ->
         z.success (CreateOrderItemSchema path item) = true)
  /\ percentageAbove100 (CreateOrder.orderDiscountType' order)
       (CreateOrder.orderDiscountValue' order) = false
  /\ NoDup (CreateItem.productId' <$> CreateOrder.items' order).
Proof.
  rewrite success_iff. unfold CreateOrderSchema.
  setoid_rewrite refine_pure_clean. setoid_rewrite refine_pure_clean.
  assert (forall data issues,
             createOrderBaseSchema ctx order = z.Returned issues (Some data) ->
             (negb (bool_decide (CreateOrder.orderDiscountType data
                                 = Some (JS.value PERCENTAGE)))
              || JS.le (CreateOrder.orderDiscountValue data) (JS.num 100))
             = negb (percentageAbove100 (CreateOrder.orderDiscountType' order)
                       (CreateOrder.orderDiscountValue' order))
             /\ (allDistinct (CreateItem.productId <$> CreateOrder.items data)
                 = true <->
                 NoDup (CreateItem.productId' <$> CreateOrder.items' order)))
    as Hread.
  { intros data issues Hrun.
    apply create_order_base_Some in Hrun as (-> & Hvalue & Hnan & ->).
    split.
    - unfold percentageAbove100.
      destruct (bool_decide (CreateOrder.orderDiscountType' order = _));
        [| reflexivity].
      cbn. rewrite not_le_gt by (assumption || reflexivity). rewrite Hvalue.
      destruct (CreateOrder.orderDiscountValue' order); reflexivity.
    - rewrite <- list_fmap_compose. apply allDistinct_NoDup. }
  split.
  - intros (data & (Hbase & Hpercentage) & Hdistinct).
    destruct (Hread _ _ Hbase) as [Hbounded Hnodup].
    rewrite Hbounded in Hpercentage. apply negb_true_iff in Hpercentage.
    apply Hnodup in Hdistinct.
    assert (z.success (createOrderBaseSchema ctx order) = true) as Hsuccess
      by (rewrite Hbase; reflexivity).
    rewrite create_order_base_success in Hsuccess.
    apply andb_true_iff in Hsuccess as [Hsuccess Hitems].
    apply andb_true_iff in Hitems as [Hlength Hitems].
    apply andb_true_iff in Hsuccess as [Hsuccess Hvalue].
    apply andb_true_iff in Hsuccess as [Hsuccess Hvisit].
    apply andb_true_iff in Hsuccess as [Hstore Hsales].
    apply andb_true_iff in Hsales as [Hsales Hfilled].
    repeat split; auto.
    + intros Hempty. rewrite Hempty in Hfilled. discriminate Hfilled.
    + destruct (CreateOrder.visitId' order) as [[| visitId] |]; auto.
    + intros Hempty. rewrite Hempty in Hlength. discriminate Hlength.
    + intros item path Hitem. rewrite forallb_forall in Hitems.
      rewrite (item_success_anywhere path []).
      apply Hitems, list_elem_of_In, Hitem.
  - intros (Hstore & (Hsales & Hfilled) & Hvisit & Hvalue & Hitems & Hall
            & Hpercentage & Hnodup).
    assert (z.success (createOrderBaseSchema ctx order) = true) as Hsuccess.
    { rewrite create_order_base_success, Hstore, Hsales, Hvalue.
      rewrite !andb_true_iff. repeat split.
      - destruct (CreateOrder.salesId' order); [contradiction | reflexivity].
      - destruct (CreateOrder.visitId' order) as [[| visitId] |]; auto.
      - destruct (CreateOrder.items' order); [contradiction | reflexivity].
      - apply forallb_forall. intros item Hitem.
        apply Hall, list_elem_of_In, Hitem. }
    apply success_iff in Hsuccess as [data Hbase]. exists data.
    destruct (Hread _ _ Hbase) as [Hbounded Hdistinct].
    rewrite Hbounded, Hpercentage.
    repeat split; [exact Hbase | apply Hdistinct, Hnodup].
Qed.

(** X22. An accepted update holds accepted items only, the ones marked
    deleted included: every item of an accepted update request is accepted
    by [UpdateOrderItemSchema] at its place, so it has no PERCENTAGE
    discount above 100 and, if CUSTOM-priced, gives its price and its
    reason.  (Only the duplicate check leaves deleted items out.) *)
Theorem accepted_update_has_accepted_items `{z.Host} (ctx : list z.key)
    (order : UpdateOrder.input) (n : nat) (item : UpdateItem.input) :
  z.success (UpdateOrderSchema ctx order) = true ->
  UpdateOrder.items' order !! n = Some item ->
  z.success (UpdateOrderItemSchema ((ctx ++ [z.Key "items"]) ++ [z.Index n])
               item) = true
  /\ percentageAbove100 (CreateItem.itemDiscountType' (UpdateItem.base' item))
       (CreateItem.itemDiscountValue' (UpdateItem.base' item)) = false
  /\ (isCustom (UpdateItem.base' item) = true ->
      givesCustomPrice (UpdateItem.base' item) = true
      /\ givesReason (UpdateItem.base' item) = true).
Proof.
  intros Hsuccess Hitem.
  assert (z.success (UpdateOrderItemSchema
                       ((ctx ++ [z.Key "items"]) ++ [z.Index n]) item) = true)
    as Haccepted.
  { unfold UpdateOrderSchema in Hsuccess.
    do 2 apply success_refine in Hsuccess.
    unfold updateOrderBaseSchema in Hsuccess.
    rewrite success_ap in Hsuccess.
    apply andb_true_iff in Hsuccess as [_ Hitems].
    exact (success_array _ _ _ _ _ Hitems n item Hitem). }
  split; [exact Haccepted |].
  destruct (UpdateOrderItemSchema_issues
              ((ctx ++ [z.Key "items"]) ++ [z.Index n]) item)
    as (Hprice & Hreason & Hpercentage).
  split.
  - destruct (percentageAbove100 _ _) eqn:Habove; [| reflexivity].
    rewrite (rejected_when _ _ _ Hpercentage eq_refl) in Haccepted.
    discriminate Haccepted.
  - intros Hcustom. split.
    + destruct (givesCustomPrice _) eqn:Hgiven; [reflexivity |].
      rewrite (rejected_when _ _ _ Hprice (conj Hcustom eq_refl)) in Haccepted.
      discriminate Haccepted.
    + destruct (givesReason _) eqn:Hgiven; [reflexivity |].
      rewrite (rejected_when _ _ _ Hreason (conj Hcustom eq_refl)) in Haccepted.
      discriminate Haccepted.
Qed.

Lemma accepted_update_has_accepted_items_witness :
  (z.success (@UpdateOrderSchema Samples.host [] Samples.deletedDuplicate) = true
   /\ UpdateOrder.items' Samples.deletedDuplicate !! 0%nat
      = Some {| UpdateItem.base' := Samples.plainItem;
                UpdateItem.id' := None;
                UpdateItem.isDeleted' := Some true |})
  /\ z.success (@UpdateOrderItemSchema Samples.host
                  (([] ++ [z.Key "items"]) ++ [z.Index 0])
                  {| UpdateItem.base' := Samples.plainItem;
                     UpdateItem.id' := None;
                     UpdateItem.isDeleted' := Some true |}) = true
  /\ @percentageAbove100 Samples.host
       (CreateItem.itemDiscountType' Samples.plainItem)
       (CreateItem.itemDiscountValue' Samples.plainItem) = false
  /\ (isCustom Samples.plainItem = true ->
      @givesCustomPrice Samples.host Samples.plainItem = true
      /\ givesReason Samples.plainItem = true).
Proof.
  split; [split; vm_compute; reflexivity |].
  apply (@accepted_update_has_accepted_items Samples.host []
           Samples.deletedDuplicate 0%nat
           {| UpdateItem.base' := Samples.plainItem;
              UpdateItem.id' := None;
              UpdateItem.isDeleted' := Some true |});
    vm_compute; reflexivity.
Defined.

(** ** The order form *)

Section form_facts.
Context `{z.Host}.

Lemma returns_array_items {I O} (s : z.schema I O) :
  (forall c x, returns (s c x)) ->
  forall data ctx i, returns (z.array_items s ctx i data).
Proof.
  intros Hs. induction data as [| x data IH]; intros ctx i; cbn.
  - eexists _, _. reflexivity.
  - apply returns_ap; [apply returns_map, Hs | apply IH].
Qed.

Lemma returns_array {I O} (s : z.schema I O) minLength message ctx data :
  (forall c x, returns (s c x)) ->
  returns (z.array s minLength message ctx data).
Proof.
  intros Hs. unfold z.array.
  destruct (returns_array_items s Hs data ctx 0%nat) as (issues & parsed & ->).
  eexists _, _. reflexivity.
Qed.

Lemma optional_nullable_string_run ctx (x : option (JS.nullable string)) :
  z.optional (z.nullable (z.string [])) ctx x = z.OK x.
Proof. destruct x as [[| s] |]; reflexivity. Qed.

Lemma optional_boolean_run ctx (x : option bool) :
  z.optional z.boolean ctx x = z.OK x.
Proof. destruct x; reflexivity. Qed.

Ltac form_item_cases item :=
  unfold orderFormItemSchema, z.field;
  rewrite optional_string_run, !optional_nullable_string_run,
    optional_nullable_enum_run, optional_boolean_run, default_enum_run,
    default_run;
  destruct item as [id productId quantity priceType customPrice reason
                      discountType discountValue description isDeleted];
  cbn [FormItem.id' FormItem.productId' FormItem.quantity' FormItem.priceType'
       FormItem.customPrice' FormItem.customPriceReason'
       FormItem.itemDiscountType' FormItem.itemDiscountValue'
       FormItem.itemDiscountDescription' FormItem.isDeleted'];
  unfold z.number, z.string, z.string_checks, z.optional, z.nullable,
    form_item_accepted, form_item_data;
  cbn [FormItem.id' FormItem.productId' FormItem.quantity' FormItem.priceType'
       FormItem.customPrice' FormItem.customPriceReason'
       FormItem.itemDiscountType' FormItem.itemDiscountValue'
       FormItem.itemDiscountDescription' FormItem.isDeleted'];
  destruct (JS.isNaN quantity);
  destruct customPrice as [[| customPrice] |];
  try destruct (JS.isNaN customPrice);
  destruct (JS.isNaN (default (JS.num 0) discountValue));
  cbn -[JS.le JS.isInteger Nat.leb].

Lemma form_item_returns ctx item : returns (orderFormItemSchema ctx item).
Proof. form_item_cases item; eexists _, _; reflexivity. Qed.

Lemma form_item_Some ctx item issues data :
  orderFormItemSchema ctx item = z.Returned issues (Some data) ->
  data = form_item_data item.
Proof. form_item_cases item; intros [= _ <-]; reflexivity. Qed.

Lemma form_item_success ctx item :
  z.success (orderFormItemSchema ctx item) = form_item_accepted item.
Proof.
  form_item_cases item; rewrite ?andb_false_r; try reflexivity;
    destruct (1 <=? String.length productId)%nat, (JS.isInteger quantity),
      (JS.le quantity (JS.num 0)); reflexivity.
Qed.

Ltac form_cases form :=
  unfold orderFormBaseSchema, z.field;
  rewrite !optional_nullable_string_run, optional_nullable_enum_run,
    default_run;
  destruct form as [storeId visitId discountType discountValue description
                      notes items];
  cbn [OrderForm.storeId' OrderForm.visitId' OrderForm.orderDiscountType'
       OrderForm.orderDiscountValue' OrderForm.orderDiscountDescription'
       OrderForm.notes' OrderForm.items'];
  unfold z.number, z.string, z.string_checks, z.optional, z.nullable,
    form_data;
  cbn [OrderForm.storeId' OrderForm.visitId' OrderForm.orderDiscountType'
       OrderForm.orderDiscountValue' OrderForm.orderDiscountDescription'
       OrderForm.notes' OrderForm.items'];
  destruct visitId as [[| visitId] |];
  destruct (JS.isNaN (default (JS.num 0) discountValue)).

Lemma form_base_returns ctx form : returns (orderFormBaseSchema ctx form).
Proof.
  form_cases form;
    match goal with
    | |- context [z.array ?s ?n ?m ?c ?d] =>
        destruct (returns_array s n m c d form_item_returns)
          as (issues & parsed & ->)
    end; cbn; eexists _, _; reflexivity.
Qed.

Lemma form_base_Some ctx form issues data :
  orderFormBaseSchema ctx form = z.Returned issues (Some data) ->
  data = form_data form.
Proof.
  form_cases form;
    match goal with
    | |- context [z.array ?s ?n ?m ?c ?d] =>
        destruct (z.array s n m c d) as [e | issues' [parsed |]] eqn:Hitems
    end; cbn; try discriminate;
    intros [= _ <-];
    apply (array_Some _ form_item_data) in Hitems as ->;
    try reflexivity; intros ? ? ? ?; apply form_item_Some.
Qed.

Lemma form_base_success ctx form :
  z.success (orderFormBaseSchema ctx form)
  = (1 <=? String.length (OrderForm.storeId' form))%nat
    && match OrderForm.visitId' form with
       | Some (JS.value visitId) => z.isUuid visitId
       | _ => true
       end
    && negb (JS.isNaN (default (JS.num 0) (OrderForm.orderDiscountValue' form)))
    && ((1 <=? length (OrderForm.items' form))%nat
        && forallb form_item_accepted (OrderForm.items' form)).
Proof.
  rewrite <- (success_array_all orderFormItemSchema form_item_accepted 1
                "Order harus memiliki minimal 1 item"
                (ctx ++ [z.Key "items"]) _ form_item_success).
  form_cases form;
    match goal with
    | |- context [z.array ?s ?n ?m ?c ?d] =>
        destruct (z.array s n m c d) as [e | [| i issues'] [parsed |]]
    end; cbn -[Nat.leb]; rewrite ?andb_false_r; try reflexivity;
    destruct (1 <=? String.length storeId)%nat; try destruct (z.isUuid visitId);
    reflexivity.
Qed.

Lemma active_inputs (items : list FormItem.input) :
  filter active (form_item_data <$> items)
  = form_item_data <$> activeInputs items.
Proof.
  unfold activeInputs. induction items as [| item items IH]; [reflexivity |].
  rewrite fmap_cons, !filter_cons.
  destruct (decide (active (form_item_data item))) as [Hkept | Hkept];
    destruct (decide (FormItem.isDeleted' item <> Some true))
      as [Hkept' | Hkept'];
    try (cbn; f_equal; exact IH);
    exfalso; unfold active, form_item_data in Hkept; cbn in Hkept;
    destruct (FormItem.isDeleted' item) as [[] |]; cbn in Hkept;
    try contradiction; try (apply Hkept'; discriminate);
    try (apply Hkept; exact I).
Qed.

End form_facts.

(** X23. [OrderFormSchema] never throws, and it accepts a form exactly
    when a store is chosen, the visit id (when given and not null) is a
    UUID, the order discount value is a number, every item names a
    product, has a positive whole quantity and numbers that are numbers,
    at least one item is not marked deleted, a PERCENTAGE order discount
    is not above 100, and no product comes twice among the items not
    marked deleted.  Nothing is asked of an item's discount or of a CUSTOM
    price: those checks are the server schemas' alone. *)
Theorem OrderFormSchema_accepts `{z.Host} (ctx : list z.key)
    (form : OrderForm.input) :
  returns (OrderFormSchema ctx form)
  /\ (z.success (OrderFormSchema ctx form) = true <->
      OrderForm.storeId' form <> ""
      /\ match OrderForm.visitId' form with
         | Some (JS.value visitId) => z.isUuid visitId = true
         | _ => True
         end
      /\ JS.isNaN (default (JS.num 0) (OrderForm.orderDiscountValue' form))
         = false
      /\ (forall item, item ∈ OrderForm.items' form ->
                       form_item_accepted item = true)
      /\ activeInputs (OrderForm.items' form) <> []
      /\ (OrderForm.orderDiscountType' form = Some (JS.value PERCENTAGE) ->
          JS.le (default (JS.num 0) (OrderForm.orderDiscountValue' form))
            (JS.num 100) = true)
      /\ NoDup (FormItem.productId' <$> activeInputs (OrderForm.items' form))).
Proof.
  split.
  - unfold OrderFormSchema. do 3 apply returns_refine_pure.
    apply form_base_returns.
  - rewrite success_iff. unfold OrderFormSchema.
    setoid_rewrite refine_pure_clean. setoid_rewrite refine_pure_clean.
    setoid_rewrite refine_pure_clean.
    split.
    + intros (data & ((Hbase & Hactive) & Hpercentage) & Hdistinct).
      pose proof (form_base_Some _ _ _ _ Hbase) as ->.
      assert (z.success (orderFormBaseSchema ctx form) = true) as Hsuccess
        by (rewrite Hbase; reflexivity).
      rewrite form_base_success in Hsuccess.
      apply andb_true_iff in Hsuccess as [Hsuccess Hitems].
      apply andb_true_iff in Hitems as [_ Hitems].
      apply andb_true_iff in Hsuccess as [Hsuccess Hvalue].
      apply andb_true_iff in Hsuccess as [Hstore Hvisit].
      cbn [form_data OrderForm.items OrderForm.orderDiscountType
           OrderForm.orderDiscountValue] in *.
      rewrite active_inputs in Hactive, Hdistinct.
      rewrite <- list_fmap_compose in Hdistinct.
      apply allDistinct_NoDup in Hdistinct.
      repeat split.
      * intros Hempty. rewrite Hempty in Hstore. discriminate Hstore.
      * destruct (OrderForm.visitId' form) as [[| visitId] |]; auto.
      * apply negb_true_iff. assumption.
      * intros item Hitem. rewrite forallb_forall in Hitems.
        apply Hitems, list_elem_of_In, Hitem.
      * intros Hnone. rewrite Hnone in Hactive. discriminate Hactive.
      * intros Htype. rewrite Htype in Hpercentage. exact Hpercentage.
      * exact Hdistinct.
    + intros (Hstore & Hvisit & Hvalue & Hitems & Hactive & Hpercentage
              & Hdistinct).
      assert (z.success (orderFormBaseSchema ctx form) = true) as Hsuccess.
      { rewrite form_base_success, !andb_true_iff. repeat split.
        - destruct (OrderForm.storeId' form); [contradiction | reflexivity].
        - destruct (OrderForm.visitId' form) as [[| visitId] |]; auto.
        - rewrite Hvalue. reflexivity.
        - destruct (OrderForm.items' form); [contradiction | reflexivity].
        - apply forallb_forall. intros item Hitem.
          apply Hitems, list_elem_of_In, Hitem. }
      apply success_iff in Hsuccess as [data Hbase].
      pose proof (form_base_Some _ _ _ _ Hbase) as ->.
      exists (form_data form).
      cbn [form_data OrderForm.items OrderForm.orderDiscountType
           OrderForm.orderDiscountValue].
      rewrite active_inputs, <- list_fmap_compose.
      repeat split.
      * exact Hbase.
      * rewrite length_fmap.
        destruct (activeInputs (OrderForm.items' form));
          [contradiction | reflexivity].
      * destruct (decide (OrderForm.orderDiscountType' form
                          = Some (JS.value PERCENTAGE))) as [Htype | Htype].
        -- rewrite (Hpercentage Htype). apply orb_true_r.
        -- rewrite (bool_decide_eq_false_2 _ Htype). reflexivity.
      * apply allDistinct_NoDup. exact Hdistinct.
Qed.

(** ** Acceptance of updates *)

Section update_acceptance.
Context `{z.Host}.

Lemma success_optional {I O} (s : z.schema I O) (ok : I -> bool) ctx x :
  (forall a, z.success (s ctx a) = ok a) ->
  z.success (z.optional s ctx x)
  = match x with Some a => ok a | None => true end.
Proof.
  intros Hs. destruct x as [a |]; cbn; [| reflexivity].
  rewrite success_map. apply Hs.
Qed.

Lemma success_date ctx time :
  z.success (z.date ctx time) = negb (JS.isNaN time).
Proof. unfold z.date. destruct (JS.isNaN time); reflexivity. Qed.

Lemma update_item_base_success ctx item :
  z.success (updateOrderItemBaseSchema ctx item)
  = z.success (createOrderItemBaseSchema ctx (UpdateItem.base' item))
    && match UpdateItem.id' item with
       | Some id => z.isUuid id
       | None => true
       end.
Proof.
  unfold updateOrderItemBaseSchema, z.field.
  rewrite !success_ap, success_map, optional_boolean_run.
  rewrite (success_optional _ z.isUuid) by (intros; apply success_uuid).
  cbn [z.success z.OK]. apply andb_true_r.
Qed.

Lemma UpdateOrderItemSchema_clean ctx (item : UpdateItem.input) data :
  UpdateOrderItemSchema ctx item = z.Returned [] (Some data) <->
  updateOrderItemBaseSchema ctx item = z.Returned [] (Some data)
  /\ customPriceGiven (UpdateItem.base data) = true
  /\ customPriceReasonGiven (UpdateItem.base data) = true
  /\ itemPercentageBounded (UpdateItem.base data) = true.
Proof.
  unfold UpdateOrderItemSchema. rewrite !refine_pure_clean. tauto.
Qed.

(** An update item is accepted exactly when its properties are accepted
    as a new item and its id, when given, is a UUID. *)
Lemma UpdateOrderItemSchema_success ctx ctx' (item : UpdateItem.input) :
  z.success (UpdateOrderItemSchema ctx item)
  = z.success (CreateOrderItemSchema ctx' (UpdateItem.base' item))
    && match UpdateItem.id' item with
       | Some id => z.isUuid id
       | None => true
       end.
Proof.
  rewrite (item_success_anywhere ctx' ctx).
  destruct (z.success (UpdateOrderItemSchema ctx item)) eqn:Hupdate; symmetry.
  - apply success_iff in Hupdate as [data Hupdate].
    apply UpdateOrderItemSchema_clean in Hupdate as (Hbase & Hchecks).
    pose proof (update_item_base_Some _ _ _ _ Hbase) as [-> _].
    assert (z.success (updateOrderItemBaseSchema ctx item) = true) as Hsuccess
      by (rewrite Hbase; reflexivity).
    rewrite update_item_base_success in Hsuccess.
    apply andb_true_iff in Hsuccess as [Hcreate ->]. rewrite andb_true_r.
    apply success_iff in Hcreate as [data Hcreate].
    pose proof (item_base_Some _ _ _ _ Hcreate) as [-> _].
    apply success_iff. exists (item_data (UpdateItem.base' item)).
    apply CreateOrderItemSchema_clean. auto.
  - apply not_true_is_false. intros Hboth.
    apply andb_true_iff in Hboth as [Hcreate Hid].
    apply success_iff in Hcreate as [data Hcreate].
    apply CreateOrderItemSchema_clean in Hcreate as (Hbase & Hchecks).
    pose proof (item_base_Some _ _ _ _ Hbase) as [-> _].
    assert (z.success (updateOrderItemBaseSchema ctx item) = true) as Hsuccess
      by (rewrite update_item_base_success, Hbase, Hid; reflexivity).
    apply success_iff in Hsuccess as [data Hsuccess].
    pose proof (update_item_base_Some _ _ _ _ Hsuccess) as [-> _].
    assert (z.success (UpdateOrderItemSchema ctx item) = true) as Haccepted.
    { apply success_iff. exists (update_item_data item).
      apply UpdateOrderItemSchema_clean. auto. }
    congruence.
Qed.

Lemma update_order_base_success ctx order :
  z.success (updateOrderBaseSchema ctx order)
  = z.isUuid (UpdateOrder.id' order)
    && match UpdateOrder.orderDiscountValue' order with
       | Some x => decimal_accepted 10 2 x
       | None => true
       end
    && validDeliveryDate (UpdateOrder.deliveryDate' order)
    && ((1 <=? length (UpdateOrder.items' order))%nat
        && forallb (fun item => z.success (UpdateOrderItemSchema [] item))
             (UpdateOrder.items' order)).
Proof.
  unfold updateOrderBaseSchema, z.field, commonValidations_id.
  rewrite !success_ap, success_map, success_uuid.
  rewrite !optional_nullable_trim_run, optional_nullable_enum_run.
  rewrite (success_optional _ (decimal_accepted 10 2))
    by (intros; apply decimalSchema_success).
  rewrite (success_optional_nullable _ (fun time => negb (JS.isNaN time)))
    by (intros; apply success_date).
  rewrite (success_array_all UpdateOrderItemSchema
             (fun item => z.success (UpdateOrderItemSchema [] item)))
    by (intros c x; rewrite (UpdateOrderItemSchema_success c []),
          (UpdateOrderItemSchema_success [] []); reflexivity).
  cbn [z.success z.OK]. rewrite !andb_true_r. reflexivity.
Qed.

End update_acceptance.

(** X25. [UpdateOrderSchema] accepts an update exactly when the order id
    is a UUID, the order discount value, when given, passes
    [decimalSchema(10, 2)], the delivery date, when given and not null, is
    a valid date, there is at least one item, every item (deleted or not)
    is accepted as a new item by [CreateOrderItemSchema] and has an id that
    is a UUID when given, a PERCENTAGE order discount with a value is not
    above 100, and no product comes twice among the items not marked
    deleted. *)
Theorem UpdateOrderSchema_accepts `{z.Host} (ctx : list z.key)
    (order : UpdateOrder.input) :
  z.success (UpdateOrderSchema ctx order) = true <->
  z.isUuid (UpdateOrder.id' order) = true
  /\ match UpdateOrder.orderDiscountValue' order with
     | Some x => decimal_accepted 10 2 x = true
     | None => True
     end
  /\ validDeliveryDate (UpdateOrder.deliveryDate' order) = true
  /\ UpdateOrder.items' order <> []
  /\ (forall item path,
         item ∈ UpdateOrder.items' order ->
         z.success (CreateOrderItemSchema path (UpdateItem.base' item)) = true
         /\ match UpdateItem.id' item with
            | Some id => z.isUuid id = true
            | None => True
            end)
  /\ percentageAbove100 (UpdateOrder.orderDiscountType' order)
       (UpdateOrder.orderDiscountValue' order) = false
  /\ NoDup ((fun item => CreateItem.productId' (UpdateItem.base' item))
              <$> keptItems (UpdateOrder.items' order)).
Proof.
  rewrite success_iff. unfold UpdateOrderSchema.
  setoid_rewrite refine_pure_clean. setoid_rewrite refine_pure_clean.
  assert (forall data issues,
             updateOrderBaseSchema ctx order = z.Returned issues (Some data) ->
             (negb (bool_decide (UpdateOrder.orderDiscountType data
                                 = Some (JS.value PERCENTAGE)))
              || match UpdateOrder.orderDiscountValue data with
                 | None => true
                 | Some orderDiscountValue =>
                     JS.le orderDiscountValue (JS.num 100)
                 end)
             = negb (percentageAbove100 (UpdateOrder.orderDiscountType' order)
                       (UpdateOrder.orderDiscountValue' order))
             /\ (allDistinct
                   ((fun item => CreateItem.productId (UpdateItem.base item))
                      <$> filter notDeleted (UpdateOrder.items data)) = true <->
                 NoDup ((fun item => CreateItem.productId' (UpdateItem.base' item))
                          <$> keptItems (UpdateOrder.items' order))))
    as Hread.
  { intros data issues Hrun.
    apply update_order_base_Some in Hrun as (-> & -> & Hnan & ->).
    split.
    - unfold percentageAbove100.
      destruct (bool_decide (UpdateOrder.orderDiscountType' order = _));
        [| reflexivity].
      destruct (UpdateOrder.orderDiscountValue' order) as [x |];
        [| reflexivity].
      cbn. rewrite not_le_gt by (assumption || reflexivity). reflexivity.
    - rewrite kept_productIds. apply allDistinct_NoDup. }
  assert (forall item : UpdateItem.input,
             z.success (UpdateOrderItemSchema [] item) = true <->
             forall path,
               z.success (CreateOrderItemSchema path (UpdateItem.base' item))
               = true
               /\ match UpdateItem.id' item with
                  | Some id => z.isUuid id = true
                  | None => True
                  end) as Hitem.
  { intros item. split.
    - intros Haccepted path.
      rewrite (UpdateOrderItemSchema_success [] path) in Haccepted.
      apply andb_true_iff in Haccepted as [-> Hid].
      destruct (UpdateItem.id' item); auto.
    - intros Hboth. destruct (Hboth []) as [Hcreate Hid].
      rewrite (UpdateOrderItemSchema_success [] []), Hcreate.
      destruct (UpdateItem.id' item); auto. }
  split.
  - intros (data & (Hbase & Hpercentage) & Hdistinct).
    destruct (Hread _ _ Hbase) as [Hbounded Hnodup].
    rewrite Hbounded in Hpercentage. apply negb_true_iff in Hpercentage.
    apply Hnodup in Hdistinct.
    assert (z.success (updateOrderBaseSchema ctx order) = true) as Hsuccess
      by (rewrite Hbase; reflexivity).
    rewrite update_order_base_success in Hsuccess.
    apply andb_true_iff in Hsuccess as [Hsuccess Hitems].
    apply andb_true_iff in Hitems as [Hlength Hitems].
    apply andb_true_iff in Hsuccess as [Hsuccess Hdate].
    apply andb_true_iff in Hsuccess as [Hid Hvalue].
    repeat split; auto.
    + destruct (UpdateOrder.orderDiscountValue' order); auto.
    + intros Hempty. rewrite Hempty in Hlength. discriminate Hlength.
    + rewrite forallb_forall in Hitems.
      apply (Hitem item), Hitems, list_elem_of_In. assumption.
    + rewrite forallb_forall in Hitems.
      apply (Hitem item); [| exact []].
      apply Hitems, list_elem_of_In. assumption.
  - intros (Hid & Hvalue & Hdate & Hitems & Hall & Hpercentage & Hnodup).
    assert (z.success (updateOrderBaseSchema ctx order) = true) as Hsuccess.
    { rewrite update_order_base_success, Hid, Hdate.
      rewrite !andb_true_iff. repeat split.
      - destruct (UpdateOrder.orderDiscountValue' order); auto.
      - destruct (UpdateOrder.items' order); [contradiction | reflexivity].
      - apply forallb_forall. intros item Hin. apply Hitem.
        intros path. apply Hall, list_elem_of_In, Hin. }
    apply success_iff in Hsuccess as [data Hbase]. exists data.
    destruct (Hread _ _ Hbase) as [Hbounded Hdistinct].
    rewrite Hbounded, Hpercentage.
    repeat split; [exact Hbase | apply Hdistinct, Hnodup].
Qed.

(** ** The refinements shared through common.ts *)

(** X24. The refinements exported by common.ts are the ones the order
    item schemas spell out: on every parsed item [customPriceRefinement]
    and [customPriceReasonRefinement] answer as the first two refinements
    of [CreateOrderItemSchema] and [UpdateOrderItemSchema] do, and they
    raise the same issues. *)
Theorem shared_refinements_agree (data : CreateItem.data) :
  Common.customPriceRefinement (PriceType_value (CreateItem.priceType data))
    (CreateItem.customPrice data) = customPriceGiven data
  /\ Common.customPriceReasonRefinement
       (PriceType_value (CreateItem.priceType data))
       (CreateItem.customPriceReason data) = customPriceReasonGiven data
  /\ (forall ctx,
         z.Issue z.custom (ctx ++ Common.customPriceRefinement_path)
           (Some Common.customPriceRefinement_message)
         = customPriceIssue ctx)
  /\ (forall ctx,
         z.Issue z.custom (ctx ++ Common.customPriceReasonRefinement_path)
           (Some Common.customPriceReasonRefinement_message)
         = customPriceReasonIssue ctx).
Proof.
  unfold Common.customPriceRefinement, Common.customPriceReasonRefinement,
    customPriceGiven, customPriceReasonGiven.
  destruct data as [? ? [] ? ? ? ? ?]; cbn; auto.
Qed.
